(** * RealSocialService: result shaping and versioned follows

    A shallow embedding of the class [RealSocialService] (the third document
    of src/lib/providers/PrivyProvider.tsx) and of the part of the OnChainDB
    client it talks to.

    - [Js]       the JavaScript primitives the service relies on:
                 truthiness, [||], default parameters, the stable
                 [Array.prototype.sort], [slice];
    - [Eff]      a state-and-exception monad for the [async] methods, which
                 are all of the shape [try { ... } catch { return default }];
    - data model the documents of lib/models that the service reads and
                 writes, and the query specifications it builds;
    - [Service]  the methods of the class, over an abstract client
                 ([execute], [store], the clock, the random source);
    - [Store]    a document store with filter / offset / limit queries and
                 an appending [store], to run the methods against.

    Conventions. Documents are typed as lib/models declares them; a field
    that the source reads defensively ([x || d], [!x], [if (x)]) or that a
    projection may drop is an [option], with [None] for [undefined] and
    [null]. Numbers are integers. Console output is not modelled. *)

From Stdlib Require Import String Ascii ZArith List Bool Lia Permutation.
From Stdlib Require Import DecimalString.
Import ListNotations.

Local Open Scope string_scope.
Local Open Scope list_scope.
Local Open Scope Z_scope.
Local Set Warnings "-register-all".

(* ================================================================== *)
(** ** JavaScript primitives *)

Module Js.

(** [ToBoolean] on the value types that occur in the records. Objects and
    arrays are always truthy; [undefined] and [null] are the [None] of an
    optional field and are handled by [truthy_opt]. *)
Class Truthy (A : Type) := truthy : A -> bool.

#[global] Instance truthy_string : Truthy string :=
  fun s => negb (String.eqb s "").
#[global] Instance truthy_Z : Truthy Z :=
  fun n => negb (Z.eqb n 0).
#[global] Instance truthy_bool : Truthy bool :=
  fun b => b.
#[global] Instance truthy_list {A} : Truthy (list A) :=
  fun _ => true.

Definition truthy_opt {A} `{Truthy A} (v : option A) : bool :=
  match v with
  | Some x => truthy x
  | None => false
  end.

(** [v || d] where [d] is a literal default of the field's type. *)
Definition or_default {A} `{Truthy A} (v : option A) (d : A) : A :=
  match v with
  | Some x => if truthy x then x else d
  | None => d
  end.

(** [v || w] where both sides are optional fields. *)
Definition or_else {A} `{Truthy A} (v w : option A) : option A :=
  if truthy_opt v then v else w.

(** A comparator result; [None] is [NaN]. *)
Definition number := option Z.

(** [a - b] on numbers. *)
Definition minus (a b : number) : number :=
  match a, b with
  | Some x, Some y => Some (x - y)
  | _, _ => None
  end.

(** [SortCompare] of ECMAScript: the comparator's value [v] is used through
    [v > 0]; a [NaN] counts as [+0]. *)
Definition positive (v : number) : bool :=
  match v with
  | Some d => 0 <? d
  | None => false
  end.

(** [Array.prototype.sort(cmp)]. The sort is stable (ECMAScript 2019), so for
    a consistent comparator its result is the one of a stable insertion
    sort: an element moves right past exactly those elements it compares
    strictly greater than. *)
Fixpoint insert {A} (cmp : A -> A -> number) (x : A) (l : list A) : list A :=
  match l with
  | [] => [x]
  | y :: l' => if positive (cmp x y) then y :: insert cmp x l' else x :: l
  end.

Definition sort {A} (cmp : A -> A -> number) (l : list A) : list A :=
  fold_right (insert cmp) [] l.

(** [arr.slice(0, n)] for an integer [n]: a negative [n] counts from the
    end of the array. *)
Definition slice0 {A} (n : Z) (l : list A) : list A :=
  if n <? 0
  then firstn (Z.to_nat (Z.max 0 (Z.of_nat (length l) + n))) l
  else firstn (Z.to_nat n) l.

(** [s.slice(-n)] on a string: its last [n] characters, the whole string
    when it is shorter. *)
Definition slice_last (n : nat) (s : string) : string :=
  substring (String.length s - n) n s.

(** A parameter with a default value, [f(p: number = d)]: the argument
    when one is passed, [d] otherwise. *)
Definition param (p : option Z) (d : Z) : Z :=
  match p with
  | Some n => n
  | None => d
  end.

(** Template-literal rendering of an integer, [`${n}`]. *)
Definition show (n : Z) : string :=
  NilZero.string_of_int (Z.to_int n).

End Js.

Import Js.

(* ================================================================== *)
(** ** Effects: client state and exceptions *)

Module Eff.

(** What a call leaves behind: a value, or a thrown exception. *)
Inductive outcome (A : Type) : Type :=
| Ok (a : A)
| Throw.
Arguments Ok {A} a.
Arguments Throw {A}.

(** An [async] computation over a world [W] (the remote store, the clock,
    the random source). Effects performed before a throw persist. *)
Definition M (W A : Type) : Type := W -> outcome A * W.

Definition ret {W A} (a : A) : M W A := fun w => (Ok a, w).

Definition bind {W A B} (m : M W A) (k : A -> M W B) : M W B :=
  fun w =>
    match m w with
    | (Ok a, w') => k a w'
    | (Throw, w') => (Throw, w')
    end.

Definition throw {W A} : M W A := fun w => (Throw, w).

(** [try { m } catch (error) { h }] *)
Definition try_catch {W A} (m : M W A) (h : M W A) : M W A :=
  fun w =>
    match m w with
    | (Ok a, w') => (Ok a, w')
    | (Throw, w') => h w'
    end.

Definition value {A} (d : A) (o : outcome A) : A :=
  match o with
  | Ok a => a
  | Throw => d
  end.

End Eff.

Import Eff.

Declare Scope eff_scope.
Delimit Scope eff_scope with eff.
Notation "x <- m ;; k" := (bind m (fun x => k))
(at level 61, m at next level, right associativity) : eff_scope.
Notation "'try' m 'catch' h" := (try_catch m h)
(at level 62, m at level 61, h at level 61) : eff_scope.


(* ================================================================== *)
(** ** Data model (lib/models) *)

(** A timestamp field holds the ISO-8601 string that
    [new Date().toISOString()] produced. It is represented by the
    millisecond count that [new Date(s).getTime()] gives back for it; such a
    string is never empty, hence always truthy. *)
Record instant := Instant { getTime : Z }.

#[global] Instance truthy_instant : Truthy instant :=
  fun _ => true.

(** [new Date(v).getTime()]; an absent ([undefined]) field gives [NaN]. *)
Definition Date_getTime (v : option instant) : number :=
  option_map getTime v.

(** [interface Follow]. The service reads [updated_at] and [created_at]
    defensively ([b.updated_at || b.created_at]), so both may be absent. *)
Module Follow.
Record t := mk {
  id : string;
  follower : string;
  following : string;
  status : string;
  created_at : option instant;
  updated_at : option instant
}.
End Follow.

(** [interface Like]. *)
Module Like.
Record t := mk {
  id : string;
  user : string;
  tweet_id : string;
  reaction_type : string;
  created_at : instant
}.
End Like.

(** An entry of a joined [likes] / [retweets] sequence; the join projects
    [selectFields(["user", "created_at"])]. *)
Module Reaction.
Record t := mk {
  user : option string;
  created_at : option string
}.
End Reaction.

(** [interface User]; every field but the key may be missing from a
    projected or partial document. *)
Module User.
Record t := mk {
  address : string;
  display_name : option string;
  bio : option string;
  avatar_url : option string;
  website_url : option string;
  verified : option bool;
  follower_count : option Z;
  following_count : option Z;
  tweet_count : option Z;
  created_at : option string;
  updated_at : option string;
  version : option Z;
  status : option string
}.
End User.

(** [Tweet.location]; opaque to the service. *)
Record Location := mkLocation {
  name : string;
  country_code : string;
  coordinates : Z * Z
}.

(** A document of the [tweets] collection as a query returns it ([any] in
    the source): the stored fields, each possibly absent, and the aliases
    that joins attach. *)
Module Tweet.
Inductive t := mk {
  id : string;
  author : string;
  content : option string;
  content_type : option string;
  hashtags : option (list string);
  mentions : option (list string);
  media_urls : option (list string);
  reply_to_id : option string;
  retweet_of_id : option string;
  quote_tweet_id : option string;
  like_count : option Z;
  retweet_count : option Z;
  reply_count : option Z;
  quote_count : option Z;
  timestamp : option string;
  created_at : option string;
  updated_at : option string;
  is_deleted : option bool;
  visibility : option string;
  language : option string;
  location : option Location;
  engagement_score : option Z;
  (* joined aliases *)
  author_info : option User.t;
  likes : option (list Reaction.t);
  retweets : option (list Reaction.t);
  replies : option (list t);
  quotes : option (list t);
  quote_tweet : option t
}.
End Tweet.

(** A document of the [users] collection with the aliases that
    [getUserWithTweets] joins. An element of [user_tweets] may be [null]
    (the source guards with [tweet && tweet.content]). *)
Module UserDoc.
Record t := mk {
  userData : User.t;
  user_tweets : option (list (option Tweet.t));
  followers : option (list Follow.t);
  following : option (list Follow.t)
}.
End UserDoc.

(** [interface TweetWithContext], the view object handed to the UI. *)
Module View.
Record t := mk {
  id : string;
  author : string;
  content : option string;
  content_type : string;
  hashtags : list string;
  mentions : list string;
  media_urls : option (list string);
  reply_to_id : option string;
  retweet_of_id : option string;
  quote_tweet_id : option string;
  like_count : Z;
  retweet_count : Z;
  reply_count : Z;
  quote_count : Z;
  created_at : option string;
  updated_at : option string;
  is_deleted : bool;
  visibility : string;
  language : option string;
  location : option Location;
  engagement_score : Z;
  user_liked : bool;
  user_retweeted : bool;
  author_info : option User.t;
  quote_tweet : option Tweet.t
}.
End View.

Definition TweetWithContext := View.t.

(** Field assignments on a view object, [tweetWithContext.f = v]. *)
Definition set_counts (like_count retweet_count reply_count quote_count : Z)
    (v : View.t) : View.t :=
  View.mk (View.id v) (View.author v) (View.content v) (View.content_type v)
    (View.hashtags v) (View.mentions v) (View.media_urls v)
    (View.reply_to_id v) (View.retweet_of_id v) (View.quote_tweet_id v)
    like_count retweet_count reply_count quote_count
    (View.created_at v) (View.updated_at v) (View.is_deleted v)
    (View.visibility v) (View.language v) (View.location v)
    (View.engagement_score v) (View.user_liked v) (View.user_retweeted v)
    (View.author_info v) (View.quote_tweet v).

Definition set_author_info (a : User.t) (v : View.t) : View.t :=
  View.mk (View.id v) (View.author v) (View.content v) (View.content_type v)
    (View.hashtags v) (View.mentions v) (View.media_urls v)
    (View.reply_to_id v) (View.retweet_of_id v) (View.quote_tweet_id v)
    (View.like_count v) (View.retweet_count v) (View.reply_count v)
    (View.quote_count v)
    (View.created_at v) (View.updated_at v) (View.is_deleted v)
    (View.visibility v) (View.language v) (View.location v)
    (View.engagement_score v) (View.user_liked v) (View.user_retweeted v)
    (Some a) (View.quote_tweet v).

Definition set_quote_tweet (q : Tweet.t) (v : View.t) : View.t :=
  View.mk (View.id v) (View.author v) (View.content v) (View.content_type v)
    (View.hashtags v) (View.mentions v) (View.media_urls v)
    (View.reply_to_id v) (View.retweet_of_id v) (View.quote_tweet_id v)
    (View.like_count v) (View.retweet_count v) (View.reply_count v)
    (View.quote_count v)
    (View.created_at v) (View.updated_at v) (View.is_deleted v)
    (View.visibility v) (View.language v) (View.location v)
    (View.engagement_score v) (View.user_liked v) (View.user_retweeted v)
    (View.author_info v) (Some q).

(** [if (x) { v.f = x }]: an absent or [null] alias leaves the view as it
    is (objects are truthy). *)
Definition attach {A} (set : A -> View.t -> View.t) (x : option A)
    (v : View.t) : View.t :=
  match x with
  | Some a => set a v
  | None => v
  end.

(** [user.follower_count = n; user.following_count = m]. *)
Definition set_follow_counts (n m : Z) (u : User.t) : User.t :=
  User.mk (User.address u) (User.display_name u) (User.bio u)
    (User.avatar_url u) (User.website_url u) (User.verified u)
    (Some n) (Some m) (User.tweet_count u)
    (User.created_at u) (User.updated_at u) (User.version u)
    (User.status u).

(** [interface SocialServiceConfig]. *)
Record SocialServiceConfig := mkConfig {
  endpoint : string;
  appId : string;
  apiKey : option string;
  currentUserAddress : option string
}.

(* ================================================================== *)
(** ** Query specifications (what the fluent builder accumulates) *)

Inductive Predicate :=
| Equals (field value : string)     (* whereField(f).equals(v) *)
| IsNull (field : string).          (* whereField(f).isNull()  *)

Inductive Cardinality := OneToOne | OneToMany.   (* joinOne / joinMany *)

Inductive Projection :=
| SelectAll
| SelectFields (fields : list string).

Inductive JoinSpec :=
| Join (card : Cardinality) (alias target : string)
       (onField equalsExpr : string) (proj : Projection)
       (nested : list JoinSpec).

Record Query := mkQuery {
  collection : string;
  predicates : list Predicate;
  joins : list JoinSpec;
  projection : Projection;
  q_offset : option Z;
  q_limit : option Z
}.

(** The object [execute()] resolves to; [records] may be missing (the source
    tests [!result.records]). *)
Record QueryResult (R : Type) := mkResult {
  records : option (list R)
}.
Arguments mkResult {R} records.
Arguments records {R} q.

(** The argument of [store()]: [{ collection, data }]. *)
Module StoreRequest.
Record t (R : Type) := mk {
  collection : string;
  data : list R
}.
Arguments mk {R} collection data.
Arguments collection {R} t.
Arguments data {R} t.
End StoreRequest.

(** What [getTweetWithReplies] and [getUserWithTweets] resolve to. *)
Record TweetWithReplies := mkTweetWithReplies {
  tweet : option TweetWithContext;
  replies : list TweetWithContext;
  total_replies : Z
}.

Record UserWithTweets := mkUserWithTweets {
  user : option User.t;
  tweets : list TweetWithContext;
  followers : list Follow.t;
  following : list Follow.t
}.

(** [a === b] on strings. *)
Definition str_eq (a b : string) : bool := String.eqb a b.

(** [v === s] where [v] may be [undefined]. *)
Definition opt_str_eq (v : option string) (s : string) : bool :=
  match v with
  | Some a => str_eq a s
  | None => false
  end.

(** [arr.length] as a number. *)
Definition len {A} (l : list A) : Z := Z.of_nat (length l).

(** [x.records && x.records.length > 0] *)
Definition has_records {R} (x : QueryResult R) : bool :=
  match records x with
  | Some (_ :: _) => true
  | _ => false
  end.

(** The comparator of the three follow methods:
    [(a, b) => new Date(b.updated_at || b.created_at).getTime()
             - new Date(a.updated_at || a.created_at).getTime()] *)
Definition by_latest (a b : Follow.t) : number :=
  minus (Date_getTime (or_else (Follow.updated_at b) (Follow.created_at b)))
        (Date_getTime (or_else (Follow.updated_at a) (Follow.created_at a))).

(** *** The queries the service builds *)

Definition user_fields : list string :=
  ["address"; "display_name"; "bio"; "avatar_url"; "verified"].

Definition author_info_join : JoinSpec :=
  Join OneToOne "author_info" "users" "address" "$data.author"
       (SelectFields user_fields) [].

Definition quote_fields : list string :=
  ["id"; "content"; "author"; "like_count"; "created_at"].

Definition quote_tweet_join : JoinSpec :=
  Join OneToOne "quote_tweet" "tweets" "id" "$data.quote_tweet_id"
       (SelectFields quote_fields) [author_info_join].

Definition timeline_query (limit offset : Z) : Query :=
  mkQuery "tweets" [IsNull "reply_to_id"]
    [ author_info_join;
      Join OneToMany "likes" "likes" "tweet_id" "$data.id"
           (SelectFields ["user"; "created_at"]) [];
      Join OneToMany "retweets" "retweets" "tweet_id" "$data.id"
           (SelectFields ["user"; "created_at"]) [];
      Join OneToMany "replies" "tweets" "reply_to_id" "$data.id"
           (SelectFields ["id"; "author"; "created_at"]) [];
      Join OneToMany "quotes" "tweets" "quote_tweet_id" "$data.id"
           (SelectFields ["id"; "author"; "created_at"]) [];
      quote_tweet_join ]
    SelectAll (Some offset) (Some limit).

Definition author_query (authorAddress : string) (limit : Z) : Query :=
  mkQuery "tweets" [Equals "author" authorAddress]
    [author_info_join; quote_tweet_join]
    SelectAll None (Some limit).

Definition thread_query (tweetId : string) : Query :=
  mkQuery "tweets" [Equals "id" tweetId]
    [ author_info_join;
      Join OneToMany "replies" "tweets" "reply_to_id" "$data.id" SelectAll
           [author_info_join; quote_tweet_join];
      quote_tweet_join ]
    SelectAll None (Some 1).

Definition tweet_query (tweetId : string) : Query :=
  mkQuery "tweets" [Equals "id" tweetId] [] SelectAll None (Some 1).

Definition replies_query (tweetId : string) (limit : Z) : Query :=
  mkQuery "tweets" [Equals "reply_to_id" tweetId]
    [ author_info_join;
      Join OneToOne "quote_tweet" "tweets" "id" "$data.quote_tweet_id"
           (SelectFields quote_fields) [] ]
    SelectAll None (Some limit).

Definition like_query (userAddress tweetId : string) : Query :=
  mkQuery "likes" [Equals "user" userAddress; Equals "tweet_id" tweetId] []
    SelectAll None (Some 1).

Definition follow_query (followerAddress followingAddress : string) : Query :=
  mkQuery "follows"
    [Equals "follower" followerAddress; Equals "following" followingAddress]
    [] SelectAll None (Some 10).

Definition user_query (address : string) : Query :=
  mkQuery "users" [Equals "address" address] [] SelectAll None (Some 1).

Definition profile_query (address : string) : Query :=
  mkQuery "users" [Equals "address" address]
    [ Join OneToMany "user_tweets" "tweets" "author" "$data.address"
           SelectAll [];
      Join OneToMany "followers" "follows" "following" "$data.address"
           SelectAll [];
      Join OneToMany "following" "follows" "follower" "$data.address"
           SelectAll [] ]
    SelectAll None (Some 1).

(* ================================================================== *)
(** ** The service *)

Local Open Scope eff_scope.

(** [mapTweetData(tweetData, user_liked = false, user_retweeted = false)] *)
Definition mapTweetData (tweetData : Tweet.t) (user_liked user_retweeted : bool)
    : TweetWithContext :=
  {| View.id := Tweet.id tweetData;
     View.author := Tweet.author tweetData;
     View.content := Tweet.content tweetData;
     View.content_type := or_default (Tweet.content_type tweetData) "text";
     View.hashtags := or_default (Tweet.hashtags tweetData) [];
     View.mentions := or_default (Tweet.mentions tweetData) [];
     View.media_urls := Tweet.media_urls tweetData;
     View.reply_to_id := Tweet.reply_to_id tweetData;
     View.retweet_of_id := Tweet.retweet_of_id tweetData;
     View.quote_tweet_id := Tweet.quote_tweet_id tweetData;
     View.like_count := or_default (Tweet.like_count tweetData) 0;
     View.retweet_count := or_default (Tweet.retweet_count tweetData) 0;
     View.reply_count := or_default (Tweet.reply_count tweetData) 0;
     View.quote_count := or_default (Tweet.quote_count tweetData) 0;
     View.created_at :=
       or_else (Tweet.timestamp tweetData) (Tweet.created_at tweetData);
     View.updated_at :=
       or_else (Tweet.timestamp tweetData) (Tweet.updated_at tweetData);
     View.is_deleted := or_default (Tweet.is_deleted tweetData) false;
     View.visibility := or_default (Tweet.visibility tweetData) "public";
     View.language := Tweet.language tweetData;
     View.location := Tweet.location tweetData;
     View.engagement_score := or_default (Tweet.engagement_score tweetData) 0;
     View.user_liked := user_liked;
     View.user_retweeted := user_retweeted;
     View.author_info := None;
     View.quote_tweet := None |}.

(** [likes.some((like) => like.user === address)] *)
Definition some_liked_by (address : string) (likes : list Reaction.t) : bool :=
  existsb (fun like => opt_str_eq (Reaction.user like) address) likes.

(** The [tweet && tweet.content] filter of [getUserWithTweets]; it also
    narrows the element type. *)
Definition valid_tweets (tweetsArray : list (option Tweet.t)) : list Tweet.t :=
  flat_map (fun tweet =>
              match tweet with
              | Some t => if truthy_opt (Tweet.content t) then [t] else []
              | None => []
              end) tweetsArray.

Section Service.

(** The world behind [this.client], the clock and [Math.random]. *)
Variable W : Type.

(** [this.config] *)
Variable config : SocialServiceConfig.

(** [this.client.queryBuilder(). ... .execute()], one entry per collection
    (the documents of a collection share a shape). The assembled [Query] is
    the argument. *)
Variable execute_tweets : Query -> M W (QueryResult Tweet.t).
Variable execute_likes : Query -> M W (QueryResult Like.t).
Variable execute_follows : Query -> M W (QueryResult Follow.t).
Variable execute_users : Query -> M W (QueryResult UserDoc.t).

(** The optional [paymentCallback] of the write methods; the service only
    hands it on to [store]. *)
Variable PaymentCallback : Type.

(** [this.client.store(storeRequest, paymentCallback)] *)
Variable store_likes :
  StoreRequest.t Like.t -> option PaymentCallback -> M W unit.
Variable store_follows :
  StoreRequest.t Follow.t -> option PaymentCallback -> M W unit.

(** [Date.now()], and the instant behind [new Date()]. *)
Variable Date_now : M W Z.

(** [Math.random().toString(36).substr(2, 9)] *)
Variable random_suffix : M W string.

(** [if (this.config.currentUserAddress)]: the caller identity when it is
    configured, that is, present and not the empty string. *)
Definition caller : option string :=
  match currentUserAddress config with
  | Some a => if truthy a then Some a else None
  | None => None
  end.

(** The per-record step of [getPublicTimeline]'s [records.map]. *)
Definition shape_timeline_record (record : Tweet.t) : TweetWithContext :=
  let tweetData := record in
  let likes := or_default (Tweet.likes tweetData) [] in
  let like_count := len likes in
  let user_liked :=
    match caller with
    | Some address => some_liked_by address likes
    | None => false
    end in
  let retweets := or_default (Tweet.retweets tweetData) [] in
  let retweet_count := len retweets in
  let replies := or_default (Tweet.replies tweetData) [] in
  let reply_count := len replies in
  let quotes := or_default (Tweet.quotes tweetData) [] in
  let quote_count := len quotes in
  let authorInfo := Tweet.author_info tweetData in
  let quotedTweet := Tweet.quote_tweet tweetData in
  let tweetWithContext := mapTweetData tweetData user_liked false in
  let tweetWithContext :=
    set_counts like_count retweet_count reply_count quote_count
               tweetWithContext in
  let tweetWithContext := attach set_author_info authorInfo tweetWithContext in
  attach set_quote_tweet quotedTweet tweetWithContext.

Definition getPublicTimeline (limit offset : option Z)
    : M W (list TweetWithContext) :=
  let limit := param limit 20 in
  let offset := param offset 0 in
  try (result <- execute_tweets (timeline_query limit offset) ;;
       match records result with
       | None => ret []
       | Some records => ret (map shape_timeline_record records)
       end)
  catch (ret []).

(** The body shared by the loops of [getTweetsByAuthor], and by the main
    tweet and the replies of the thread methods: map, then attach the two
    one-to-one aliases when they are there. *)
Definition with_context (tweetData : Tweet.t) (user_liked : bool)
    : TweetWithContext :=
  let authorInfo := Tweet.author_info tweetData in
  let quotedTweet := Tweet.quote_tweet tweetData in
  let tweetWithContext := mapTweetData tweetData user_liked false in
  let tweetWithContext := attach set_author_info authorInfo tweetWithContext in
  attach set_quote_tweet quotedTweet tweetWithContext.

Definition getTweetsByAuthor (authorAddress : string) (limit : option Z)
    : M W (list TweetWithContext) :=
  let limit := param limit 20 in
  try (result <- execute_tweets (author_query authorAddress limit) ;;
       match records result with
       | None => ret []
       | Some records =>
           ret (fold_left (fun tweets record =>
                             tweets ++ [with_context record false])
                          records [])
       end)
  catch (ret []).

(** [let user_liked = false;
     if (this.config.currentUserAddress) {
       const likeResult = await ... .limit(1).execute();
       user_liked = likeResult.records && likeResult.records.length > 0; }]
    The source has this block three times: for the main tweet and for each
    reply in [getTweetWithReplies], and for each reply in [getReplies]. *)
Definition liked_by_caller (tweetId : string) : M W bool :=
  match caller with
  | Some address =>
      likeResult <- execute_likes (like_query address tweetId) ;;
      ret (has_records likeResult)
  | None => ret false
  end.

(** [for (const replyRecord of repliesData) { if (!replyRecord.content)
    continue; ...; replies.push(replyWithContext); }] *)
Fixpoint push_replies (repliesData : list Tweet.t)
    (replies : list TweetWithContext) : M W (list TweetWithContext) :=
  match repliesData with
  | [] => ret replies
  | replyRecord :: rest =>
      if negb (truthy_opt (Tweet.content replyRecord))
      then push_replies rest replies
      else
        reply_user_liked <- liked_by_caller (Tweet.id replyRecord) ;;
        push_replies rest (replies ++ [with_context replyRecord reply_user_liked])
  end.

Definition no_tweet : TweetWithReplies :=
  {| tweet := None; replies := []; total_replies := 0 |}.

Definition getTweetWithReplies (tweetId : string) : M W TweetWithReplies :=
  try (result <- execute_tweets (thread_query tweetId) ;;
       match records result with
       | None | Some [] => ret no_tweet
       | Some (tweetWithJoins :: _) =>
           user_liked <- liked_by_caller tweetId ;;
           let tweet := with_context tweetWithJoins user_liked in
           let repliesData := or_default (Tweet.replies tweetWithJoins) [] in
           replies <- push_replies repliesData [] ;;
           ret {| tweet := Some tweet;
                  replies := replies;
                  total_replies := len replies |}
       end)
  catch (ret no_tweet).

Definition getTweet (tweetId : string) : M W (option TweetWithContext) :=
  try (result <- execute_tweets (tweet_query tweetId) ;;
       match records result with
       | None | Some [] => ret None
       | Some (tweet :: _) => ret (Some (mapTweetData tweet false false))
       end)
  catch (ret None).

Definition getReplies (tweetId : string) (limit : option Z)
    : M W (list TweetWithContext) :=
  let limit := param limit 50 in
  try (result <- execute_tweets (replies_query tweetId limit) ;;
       match records result with
       | None => ret []
       | Some records => push_replies records []
       end)
  catch (ret []).

Definition getUser (address : string) : M W (option User.t) :=
  try (result <- execute_users (user_query address) ;;
       match records result with
       | None | Some [] => ret None
       | Some (record :: _) => ret (Some (UserDoc.userData record))
       end)
  catch (ret None).

Definition no_user : UserWithTweets :=
  {| user := None; tweets := []; followers := []; following := [] |}.

Definition getUserWithTweets (address : string) (limit : option Z)
    : M W UserWithTweets :=
  let limit := param limit 50 in
  try (result <- execute_users (profile_query address) ;;
       match records result with
       | None | Some [] => ret no_user
       | Some (userRecord :: _) =>
           let user := UserDoc.userData userRecord in
           let tweetsArray := or_default (UserDoc.user_tweets userRecord) [] in
           let tweets :=
             map (fun tweet => mapTweetData tweet false false)
                 (slice0 limit (valid_tweets tweetsArray)) in
           let followers := or_default (UserDoc.followers userRecord) [] in
           let following := or_default (UserDoc.following userRecord) [] in
           let user := set_follow_counts (len followers) (len following) user in
           ret {| user := Some user;
                  tweets := tweets;
                  followers := followers;
                  following := following |}
       end)
  catch (ret no_user).

(** [new Date().toISOString()] *)
Definition new_Date : M W instant :=
  t <- Date_now ;; ret (Instant t).

(** [sortedRecords[0]] followed by a property read: on an empty array this
    is a [TypeError]. *)
Definition first_record (sortedRecords : list Follow.t) : M W Follow.t :=
  match sortedRecords with
  | latestFollow :: _ => ret latestFollow
  | [] => throw
  end.

Definition likeTweet (userAddress tweetId : string)
    (paymentCallback : option PaymentCallback) : M W bool :=
  try (existingLike <- execute_likes (like_query userAddress tweetId) ;;
       if has_records existingLike
       then ret false
       else
         now <- Date_now ;;
         suffix <- random_suffix ;;
         created_at <- new_Date ;;
         let likeData :=
           {| Like.id := ("like_" ++ show now ++ "_" ++ suffix)%string;
              Like.user := userAddress;
              Like.tweet_id := tweetId;
              Like.reaction_type := "like";
              Like.created_at := created_at |} in
         let storeRequest := StoreRequest.mk "likes" [likeData] in
         _ <- store_likes storeRequest paymentCallback ;;
         ret true)
  catch (ret false).

Definition followUser (followerAddress followingAddress : string)
    (paymentCallback : option PaymentCallback) : M W bool :=
  try (if str_eq followerAddress followingAddress
       then ret false
       else
         existingFollow <- execute_follows
                             (follow_query followerAddress followingAddress) ;;
         match records existingFollow with
         | Some ((_ :: _) as records) =>
             (* sort() works in place: from here on existingFollow.records
                and sortedRecords are the same array *)
             let sortedRecords := sort by_latest records in
             latestFollow <- first_record sortedRecords ;;
             if str_eq (Follow.status latestFollow) "active"
             then ret false
             else
               let followId := Follow.id latestFollow in
               records0 <- first_record sortedRecords ;;
               updated_at <- new_Date ;;
               let newFollowVersion :=
                 {| Follow.id := followId;
                    Follow.follower := followerAddress;
                    Follow.following := followingAddress;
                    Follow.status := "active";
                    Follow.created_at := Follow.created_at records0;
                    Follow.updated_at := Some updated_at |} in
               let storeRequest :=
                 StoreRequest.mk "follows" [newFollowVersion] in
               _ <- store_follows storeRequest paymentCallback ;;
               ret true
         | _ =>
             now <- Date_now ;;
             let followId :=
               ("follow_" ++ slice_last 8 followerAddress ++ "_"
                ++ slice_last 8 followingAddress ++ "_" ++ show now)%string in
             created_at <- new_Date ;;
             updated_at <- new_Date ;;
             let newFollowVersion :=
               {| Follow.id := followId;
                  Follow.follower := followerAddress;
                  Follow.following := followingAddress;
                  Follow.status := "active";
                  Follow.created_at := Some created_at;
                  Follow.updated_at := Some updated_at |} in
             let storeRequest :=
               StoreRequest.mk "follows" [newFollowVersion] in
             _ <- store_follows storeRequest paymentCallback ;;
             ret true
         end)
  catch (ret false).

Definition unfollowUser (followerAddress followingAddress : string)
    (paymentCallback : option PaymentCallback) : M W bool :=
  try (existingFollow <- execute_follows
                           (follow_query followerAddress followingAddress) ;;
       match records existingFollow with
       | None | Some [] => ret false
       | Some records =>
           let sortedRecords := sort by_latest records in
           latestFollow <- first_record sortedRecords ;;
           if negb (str_eq (Follow.status latestFollow) "active")
           then ret false
           else
             updated_at <- new_Date ;;
             let unfollowVersion :=
               {| Follow.id := Follow.id latestFollow;
                  Follow.follower := followerAddress;
                  Follow.following := followingAddress;
                  Follow.status := "inactive";
                  Follow.created_at := Follow.created_at latestFollow;
                  Follow.updated_at := Some updated_at |} in
             let storeRequest :=
               StoreRequest.mk "follows" [unfollowVersion] in
             _ <- store_follows storeRequest paymentCallback ;;
             ret true
       end)
  catch (ret false).

Definition isFollowing (followerAddress followingAddress : string)
    : M W bool :=
  try (result <- execute_follows
                   (follow_query followerAddress followingAddress) ;;
       match records result with
       | None | Some [] => ret false
       | Some records =>
           let sortedRecords := sort by_latest records in
           latest <- first_record sortedRecords ;;
           ret (str_eq (Follow.status latest) "active")
       end)
  catch (ret false).

End Service.

(* ================================================================== *)
(** ** The document store behind the client *)

Module Store.

(** Modelled from the spec: the OnChainDB client ([@onchaindb/sdk]) is not
    part of the repository; the service only calls it. The store below is
    the Query Executor of the specification restricted to the [follows] and
    [likes] collections, whose queries carry no joins and select all
    fields: a collection is a sequence of documents in storage order,
    [execute] keeps the documents that satisfy every predicate, applies
    [offset] and then [limit], and [store] appends (a new version never
    replaces an old one). A remote call can fail; [faults] lists, for the
    coming remote calls in order, whether each one throws. *)
Record World := mkWorld {
  follows : list Follow.t;
  likes : list Like.t;
  clock : nat -> Z;          (* what the n-th reading of the clock gives *)
  clock_reads : nat;
  entropy : nat -> string;   (* what the n-th random draw gives *)
  draws : nat;
  faults : list bool;
  store_calls : nat          (* how many times [store] has been called *)
}.

Definition with_follows (v : list Follow.t) (w : World) : World :=
  mkWorld v (likes w) (clock w) (clock_reads w) (entropy w) (draws w)
          (faults w) (store_calls w).

Definition with_likes (v : list Like.t) (w : World) : World :=
  mkWorld (follows w) v (clock w) (clock_reads w) (entropy w) (draws w)
          (faults w) (store_calls w).

Definition with_clock_reads (v : nat) (w : World) : World :=
  mkWorld (follows w) (likes w) (clock w) v (entropy w) (draws w)
          (faults w) (store_calls w).

Definition with_draws (v : nat) (w : World) : World :=
  mkWorld (follows w) (likes w) (clock w) (clock_reads w) (entropy w) v
          (faults w) (store_calls w).

Definition with_faults (v : list bool) (w : World) : World :=
  mkWorld (follows w) (likes w) (clock w) (clock_reads w) (entropy w)
          (draws w) v (store_calls w).

Definition with_store_calls (v : nat) (w : World) : World :=
  mkWorld (follows w) (likes w) (clock w) (clock_reads w) (entropy w)
          (draws w) (faults w) v.

(** A call over the network: it consumes the next entry of [faults]. *)
Definition remote {A} (call : M World A) : M World A :=
  fun w =>
    match faults w with
    | true :: rest => (Throw, with_faults rest w)
    | false :: rest => call (with_faults rest w)
    | [] => call w
    end.

(** Modelled from the spec: the fields of a document that a Field Predicate
    can name. The service filters on string-valued fields only; any other
    name is read as an absent field. *)
Definition follow_field (field : string) (r : Follow.t) : option string :=
  if str_eq field "id" then Some (Follow.id r)
  else if str_eq field "follower" then Some (Follow.follower r)
  else if str_eq field "following" then Some (Follow.following r)
  else if str_eq field "status" then Some (Follow.status r)
  else None.

Definition like_field (field : string) (r : Like.t) : option string :=
  if str_eq field "id" then Some (Like.id r)
  else if str_eq field "user" then Some (Like.user r)
  else if str_eq field "tweet_id" then Some (Like.tweet_id r)
  else if str_eq field "reaction_type" then Some (Like.reaction_type r)
  else None.

(** Modelled from the spec: one Field Predicate on one document. [Equals]
    compares the field with the value; [IsNull] holds when the field is
    absent. *)
Definition satisfies {R} (get : string -> R -> option string) (r : R)
    (p : Predicate) : bool :=
  match p with
  | Equals field value => opt_str_eq (get field r) value
  | IsNull field => match get field r with None => true | Some _ => false end
  end.

(** Modelled from the spec: steps 1 and 2 of the Query Executor. Keep the
    documents that satisfy every predicate, in storage order; apply
    [offset], then [limit] (results beyond the limit are cut off). *)
Definition select {R} (get : string -> R -> option string) (q : Query)
    (docs : list R) : list R :=
  let matched := filter (fun r => forallb (satisfies get r) (predicates q)) docs in
  let skipped :=
    match q_offset q with
    | Some n => skipn (Z.to_nat n) matched
    | None => matched
    end in
  match q_limit q with
  | Some n => firstn (Z.to_nat n) skipped
  | None => skipped
  end.

(** Modelled from the spec: [execute()] on a collection; an unknown
    collection name is a [QueryError]. *)
Definition execute_follows (q : Query) : M World (QueryResult Follow.t) :=
  remote (fun w =>
            if str_eq (collection q) "follows"
            then (Ok (mkResult (Some (select follow_field q (follows w)))), w)
            else (Throw, w)).

Definition execute_likes (q : Query) : M World (QueryResult Like.t) :=
  remote (fun w =>
            if str_eq (collection q) "likes"
            then (Ok (mkResult (Some (select like_field q (likes w)))), w)
            else (Throw, w)).

(** Modelled from the spec: [store()] appends the documents to the
    collection; existing documents are never replaced or removed. *)
Definition store_follows {P} (request : StoreRequest.t Follow.t)
    (paymentCallback : option P) : M World unit :=
  fun w =>
    remote (fun w' =>
              if str_eq (StoreRequest.collection request) "follows"
              then (Ok tt,
                    with_follows (follows w' ++ StoreRequest.data request) w')
              else (Throw, w'))
           (with_store_calls (S (store_calls w)) w).

Definition store_likes {P} (request : StoreRequest.t Like.t)
    (paymentCallback : option P) : M World unit :=
  fun w =>
    remote (fun w' =>
              if str_eq (StoreRequest.collection request) "likes"
              then (Ok tt,
                    with_likes (likes w' ++ StoreRequest.data request) w')
              else (Throw, w'))
           (with_store_calls (S (store_calls w)) w).

Definition Date_now : M World Z :=
  fun w => (Ok (clock w (clock_reads w)), with_clock_reads (S (clock_reads w)) w).

Definition random_suffix : M World string :=
  fun w => (Ok (entropy w (draws w)), with_draws (S (draws w)) w).

(** The service connected to this store. *)
Definition isFollowing : string -> string -> M World bool :=
  isFollowing World execute_follows.

Definition followUser {P} : string -> string -> option P -> M World bool :=
  followUser World execute_follows P store_follows Date_now.

Definition unfollowUser {P} : string -> string -> option P -> M World bool :=
  unfollowUser World execute_follows P store_follows Date_now.

Definition likeTweet {P} : string -> string -> option P -> M World bool :=
  likeTweet World execute_likes P store_likes Date_now random_suffix.

End Store.

(* ================================================================== *)
(** ** Vocabulary of the properties *)

(** The effective timestamp of a follow version: [updated_at], falling back
    to [created_at]; [None] when the version carries neither. *)
Definition stamp (r : Follow.t) : option Z :=
  match Follow.updated_at r with
  | Some t => Some (getTime t)
  | None => option_map getTime (Follow.created_at r)
  end.

Definition has_stamp (r : Follow.t) : Prop := stamp r <> None.

(** [m] is the latest version in [l]: it is strictly more recent than every
    version before it and at least as recent as every version after it
    (among equally recent versions, the one that comes first). *)
Definition Latest (m : Follow.t) (l : list Follow.t) : Prop :=
  exists before after tm,
    l = before ++ m :: after /\
    stamp m = Some tm /\
    Forall (fun r => exists t, stamp r = Some t /\ t < tm) before /\
    Forall (fun r => exists t, stamp r = Some t /\ t <= tm) after.

(** The same choice as a function: scan for the maximum, the earlier
    version winning a tie. *)
Definition newer (a b : Follow.t) : bool :=
  match stamp a, stamp b with
  | Some ta, Some tb => tb <? ta
  | _, _ => false
  end.

Fixpoint latest_version (l : list Follow.t) : option Follow.t :=
  match l with
  | [] => None
  | r :: rest =>
      match latest_version rest with
      | Some m => if newer m r then Some m else Some r
      | None => Some r
      end
  end.

Definition is_active (r : Follow.t) : bool := str_eq (Follow.status r) "active".

(** All stored versions of the pair, in storage order, and the ones the
    [limit(10)] query of the follow methods hands back. *)
Definition versions (followerAddress followingAddress : string)
    (w : Store.World) : list Follow.t :=
  filter (fun r => str_eq (Follow.follower r) followerAddress
                   && str_eq (Follow.following r) followingAddress)
         (Store.follows w).

Definition fetched (followerAddress followingAddress : string)
    (w : Store.World) : list Follow.t :=
  firstn 10 (versions followerAddress followingAddress w).

(** The likes stored for a (user, tweet) pair. *)
Definition likes_of (userAddress tweetId : string) (w : Store.World)
    : list Like.t :=
  filter (fun r => str_eq (Like.user r) userAddress
                   && str_eq (Like.tweet_id r) tweetId)
         (Store.likes w).

(** A joined one-to-many alias read as a sequence: empty when absent. *)
Definition joined {A} (alias : option (list A)) : list A :=
  match alias with
  | Some l => l
  | None => []
  end.

(** A non-empty [content] field. *)
Definition has_content (c : option string) : Prop :=
  exists s, c = Some s /\ s <> "".

(** A view object with a non-empty [content]. *)
Definition contentful (v : TweetWithContext) : Prop :=
  has_content (View.content v).

(** The joined tweets that count for a profile, in the words of the claim:
    the entries that are there and have a non-empty [content], in the order
    of the join. *)
Fixpoint tweets_with_content (l : list (option Tweet.t)) : list Tweet.t :=
  match l with
  | [] => []
  | Some t :: rest =>
      match Tweet.content t with
      | Some c =>
          if String.eqb c "" then tweets_with_content rest
          else t :: tweets_with_content rest
      | None => tweets_with_content rest
      end
  | None :: rest => tweets_with_content rest
  end.

(** The limit in force: the argument, or 50 when none is passed. *)
Definition limit_in_force (limit : option Z) : Z :=
  match limit with
  | Some n => n
  | None => 50
  end.

(** [l] extends [l0] at the end. *)
Definition extends {A} (l0 l : list A) : Prop := exists added, l = l0 ++ added.

(** A computation that only ever appends to the two collections. *)
Definition append_only {A} (m : M Store.World A) : Prop :=
  forall w,
    extends (Store.follows w) (Store.follows (snd (m w))) /\
    extends (Store.likes w) (Store.likes (snd (m w))).

(** The world after a successful [store] of one follow version, [reads]
    readings of the clock later. *)
Definition stored_follow (r : Follow.t) (reads : nat) (w : Store.World)
    : Store.World :=
  Store.mkWorld (Store.follows w ++ [r]) (Store.likes w) (Store.clock w)
    (reads + Store.clock_reads w) (Store.entropy w) (Store.draws w)
    (Store.faults w) (S (Store.store_calls w)).

(** The [k]-th coming reading of the clock. *)
Definition reading (k : nat) (w : Store.World) : Z :=
  Store.clock w (k + Store.clock_reads w).

(** The version a first follow stores: a freshly generated id. *)
Definition first_follow (a b : string) (w : Store.World) : Follow.t :=
  Follow.mk ("follow_" ++ slice_last 8 a ++ "_" ++ slice_last 8 b ++ "_"
             ++ show (reading 0 w))%string
            a b "active"
            (Some (Instant (reading 1 w))) (Some (Instant (reading 2 w))).

(** The version that follows [m]: same id, same [created_at], the given
    status, [updated_at] the current time. *)
Definition next_version (m : Follow.t) (a b status : string) (w : Store.World)
    : Follow.t :=
  Follow.mk (Follow.id m) a b status (Follow.created_at m)
            (Some (Instant (reading 0 w))).

(** The next [k] remote calls complete: none of them is scheduled to
    fail. *)
Definition calls_complete (k : nat) (w : Store.World) : bool :=
  forallb negb (firstn k (Store.faults w)).

(** The like [likeTweet] stores, and the world after storing it. *)
Definition new_like (u t : string) (w : Store.World) : Like.t :=
  Like.mk ("like_" ++ show (reading 0 w) ++ "_"
           ++ Store.entropy w (Store.draws w))%string
          u t "like" (Instant (reading 1 w)).

Definition stored_like (r : Like.t) (w : Store.World) : Store.World :=
  Store.mkWorld (Store.follows w) (Store.likes w ++ [r]) (Store.clock w)
    (2 + Store.clock_reads w) (Store.entropy w) (S (Store.draws w))
    (Store.faults w) (S (Store.store_calls w)).

(** *** Sample data *)

(** A version of the follow [u1 -> u2], first created at instant 1. *)
Definition version (status : string) (t : Z) : Follow.t :=
  Follow.mk "f1" "u1" "u2" status (Some (Instant 1)) (Some (Instant t)).

(** A call without payment callback. *)
Definition no_callback : option unit := None.

(** A store holding the given documents, with no fault pending. *)
Definition world_of (fs : list Follow.t) (ls : list Like.t) : Store.World :=
  Store.mkWorld fs ls (fun n => 1000 + Z.of_nat n) 0 (fun _ => "k3j9x2m1q") 0
                [] 0.

(** A tweet document with the given joined aliases and nothing optional
    stored besides its content and counters. *)
Definition tweet_doc_quoted (id author : string) (content : option string)
    (stored_likes : option Z)
    (likes : option (list Reaction.t)) (replies : option (list Tweet.t))
    (quote_tweet : option Tweet.t) (quotes : option (list Tweet.t))
    : Tweet.t :=
  {| Tweet.id := id; Tweet.author := author; Tweet.content := content;
     Tweet.content_type := None; Tweet.hashtags := None;
     Tweet.mentions := None; Tweet.media_urls := None;
     Tweet.reply_to_id := None; Tweet.retweet_of_id := None;
     Tweet.quote_tweet_id := None;
     Tweet.like_count := stored_likes; Tweet.retweet_count := None;
     Tweet.reply_count := None; Tweet.quote_count := None;
     Tweet.timestamp := None; Tweet.created_at := None;
     Tweet.updated_at := None; Tweet.is_deleted := None;
     Tweet.visibility := None; Tweet.language := None;
     Tweet.location := None; Tweet.engagement_score := None;
     Tweet.author_info := None; Tweet.likes := likes;
     Tweet.retweets := None; Tweet.replies := replies;
     Tweet.quotes := quotes; Tweet.quote_tweet := quote_tweet |}.

Definition tweet_doc (id author : string) (content : option string)
    (stored_likes : option Z)
    (likes : option (list Reaction.t)) (replies : option (list Tweet.t))
    (quote_tweet : option Tweet.t) : Tweet.t :=
  tweet_doc_quoted id author content stored_likes likes replies quote_tweet
                   None.

(** Tweet [t1] with the likes of [u1] and [u2] joined, and a stored counter
    that has drifted. *)
Definition tweet_t1 : Tweet.t :=
  tweet_doc "t1" "a1" (Some "hello") (Some 7)
    (Some [Reaction.mk (Some "u1") None; Reaction.mk (Some "u2") None])
    None None.

(** Three joined reply documents: one with a content, one without the
    field, one whose content is the empty string. *)
Definition sample_replies : list Tweet.t :=
  [ tweet_doc "r1" "a2" (Some "first") None None None None;
    tweet_doc "r2" "a3" None None None None None;
    tweet_doc "r3" "a4" (Some "") None None None None ].

(** A quoted tweet as a join may return it: a partial document without
    content. *)
Definition partial_quote : Tweet.t :=
  tweet_doc "q1" "a9" None None None None None.

(** A tweet that the partial document quotes (the [quotes] alias). *)
Definition tweet_quoted_once : Tweet.t :=
  tweet_doc_quoted "t5" "a1" (Some "original") None None None None
                   (Some [partial_quote]).

(** A reply that has a content and quotes that tweet. *)
Definition reply_quoting : Tweet.t :=
  tweet_doc "r4" "a5" (Some "look") None None None (Some partial_quote).

(** Tweet [t1] with those replies joined. *)
Definition thread_t1 : Tweet.t :=
  tweet_doc "t1" "a1" (Some "hello") None None (Some sample_replies) None.

(** A user document with three tweets joined (one of them without content,
    and a [null] entry), one follower and nobody followed. *)
Definition user_a1 : UserDoc.t :=
  {| UserDoc.userData :=
       User.mk "a1" (Some "Ada") None None None (Some false)
               (Some 0) (Some 0) (Some 3) None None (Some 1) (Some "active");
     UserDoc.user_tweets :=
       Some [ Some (tweet_doc "t1" "a1" (Some "hello") None None None None);
              None;
              Some (tweet_doc "t2" "a1" None None None None None);
              Some (tweet_doc "t3" "a1" (Some "again") None None None None) ];
     UserDoc.followers :=
       Some [Follow.mk "f9" "u9" "a1" "active" (Some (Instant 5))
                       (Some (Instant 5))];
     UserDoc.following := None |}.

(** A user document as a query without joins returns it. *)
Definition user_plain : UserDoc.t :=
  {| UserDoc.userData := UserDoc.userData user_a1;
     UserDoc.user_tweets := None;
     UserDoc.followers := None;
     UserDoc.following := None |}.

(** A configuration with the given caller identity. *)
Definition config_of (caller : option string) : SocialServiceConfig :=
  mkConfig "https://db.example" "app" None caller.

(** Clients over a world without state: a query that hands back the given
    documents, and one that fails. *)
Definition answering {R} (docs : list R) : Query -> M unit (QueryResult R) :=
  fun _ w => (Ok (mkResult (Some docs)), w).

Definition failing {R} : Query -> M unit (QueryResult R) :=
  fun _ w => (Throw, w).

(** A like of tweet [t1] by [u1]. *)
Definition like_u1_t1 : Like.t :=
  Like.mk "like_900_a1b2c3d4e" "u1" "t1" "like" (Instant 900).

(** Five follow / unfollow rounds, as the service stores them. *)
Definition ten_toggles : list Follow.t :=
  [ version "active" 1; version "inactive" 2;
    version "active" 3; version "inactive" 4;
    version "active" 5; version "inactive" 6;
    version "active" 7; version "inactive" 8;
    version "active" 9; version "inactive" 10 ].

(** ... and the version the next [followUser] appends. *)
Definition eleven_versions : list Follow.t :=
  ten_toggles ++ [version "active" 11].

(** The store after the service itself has run a first follow and then
    five unfollow / follow rounds for the pair, starting from nothing. *)
Definition after_six_follows : Store.World :=
  fold_left (fun w (op : M Store.World bool) => snd (op w))
    [ Store.followUser "u1" "u2" no_callback;
      Store.unfollowUser "u1" "u2" no_callback;
      Store.followUser "u1" "u2" no_callback;
      Store.unfollowUser "u1" "u2" no_callback;
      Store.followUser "u1" "u2" no_callback;
      Store.unfollowUser "u1" "u2" no_callback;
      Store.followUser "u1" "u2" no_callback;
      Store.unfollowUser "u1" "u2" no_callback;
      Store.followUser "u1" "u2" no_callback;
      Store.unfollowUser "u1" "u2" no_callback;
      Store.followUser "u1" "u2" no_callback ]
    (world_of [] []).

(** The eleventh version in that store: the last one stored, and the most
    recent. *)
Definition eleventh_version : Follow.t :=
  Follow.mk "follow_u1_u2_1000" "u1" "u2" "active"
            (Some (Instant 1001)) (Some (Instant 1012)).

(* ================================================================== *)
(** ** Writing tweets and profiles *)

(** *** Hashtags: [content.match(/#[\w]+/g) || []] *)

(** [\w] without the unicode flag: [A-Za-z0-9_]. A character outside ASCII
    is no word character, in UTF-16 as in the bytes of a [string]; [#] and
    the word characters are ASCII, so the matches are the same. *)
Definition is_word_char (c : ascii) : bool :=
  let n := nat_of_ascii c in
  ((65 <=? n) && (n <=? 90))%nat       (* A-Z *)
  || ((97 <=? n) && (n <=? 122))%nat   (* a-z *)
  || ((48 <=? n) && (n <=? 57))%nat    (* 0-9 *)
  || (n =? 95)%nat.                    (* _ *)

Definition is_hash (c : ascii) : bool := Ascii.eqb c "#"%char.

(** A completed attempt: [#] followed by the word characters [w] is a match
    when [w] is not empty. *)
Definition emit (w : string) (found : list string) : list string :=
  if String.eqb w "" then found else String "#" w :: found.

(** The global match, left to right. [pending] is [Some w] while an attempt
    is open: a [#] has been read, followed by the word characters [w]. The
    attempt is greedy (it takes every further word character) and the search
    resumes where it ends, so matches do not overlap. *)
Fixpoint scan_hashtags (pending : option string) (s : string) : list string :=
  match s with
  | EmptyString =>
      match pending with
      | Some w => emit w []
      | None => []
      end
  | String c rest =>
      match pending with
      | Some w =>
          if is_word_char c
          then scan_hashtags (Some (w ++ String c EmptyString)%string) rest
          else emit w (scan_hashtags (if is_hash c then Some "" else None) rest)
      | None => scan_hashtags (if is_hash c then Some "" else None) rest
      end
  end.

(** [content.match(/#[\w]+/g) || []]: [match] gives [null] when nothing
    matches. *)
Definition extract_hashtags (content : string) : list string :=
  scan_hashtags None content.

(** [interface CreateTweetRequest] *)
Module CreateTweetRequest.
Record t := mk {
  content : string;
  media_urls : option (list string);
  reply_to_id : option string;
  quote_tweet_id : option string;
  visibility : option string;
  location : option Location
}.
End CreateTweetRequest.

(** [interface UpdateUserProfileRequest]. Every key is optional; a key is
    [None] when the object does not have it and [Some v] when it does, with
    [v = None] for a key that holds [undefined]. *)
Module UpdateUserProfileRequest.
Record t := mk {
  display_name : option (option string);
  bio : option (option string);
  avatar_url : option (option string);
  website_url : option (option string)
}.
End UpdateUserProfileRequest.

(** One key of [{...existing, ...update}]: the update's value when the
    update has the key (an own key holding [undefined] included). *)
Definition spread_key {A} (update : option (option A)) (existing : option A)
    : option A :=
  match update with
  | Some v => v
  | None => existing
  end.

(** [profileData?.key] *)
Definition optional_key {A} (profileData : option UpdateUserProfileRequest.t)
    (key : UpdateUserProfileRequest.t -> option (option A)) : option A :=
  match profileData with
  | Some p => match key p with Some v => v | None => None end
  | None => None
  end.

(** The [File] handed to [uploadImage], and what the blob calls of the
    client resolve to. *)
Record File := mkFile {
  file_name : string;
  file_size : Z
}.

Record BlobMetadata := mkBlobMetadata {
  user_address : string;
  metadata_tweet_id : string
}.

Record BlobRequest := mkBlobRequest {
  blob_collection : string;
  blob : File;
  metadata : BlobMetadata
}.

Record UploadResult := mkUploadResult {
  blob_id : string;
  ticket_id : string
}.

Record Task := mkTask {
  task_status : string
}.

(** [const newTweet = { ... }] of [createTweet] *)
Definition newTweet_of (request : CreateTweetRequest.t) (authorAddress : string)
    (hashtags : list string) (id created_at updated_at : string) : Tweet.t :=
  {| Tweet.id := id;
     Tweet.author := authorAddress;
     Tweet.content := Some (CreateTweetRequest.content request);
     Tweet.content_type := None;
     Tweet.hashtags := Some hashtags;
     Tweet.mentions := Some [];
     Tweet.media_urls := CreateTweetRequest.media_urls request;
     Tweet.reply_to_id := CreateTweetRequest.reply_to_id request;
     Tweet.retweet_of_id := None;
     Tweet.quote_tweet_id := None;
     Tweet.like_count := Some 0;
     Tweet.retweet_count := Some 0;
     Tweet.reply_count := Some 0;
     Tweet.quote_count := Some 0;
     Tweet.timestamp := None;
     Tweet.created_at := Some created_at;
     Tweet.updated_at := Some updated_at;
     Tweet.is_deleted := Some false;
     Tweet.visibility :=
       Some (or_default (CreateTweetRequest.visibility request) "public");
     Tweet.language := None;
     Tweet.location := CreateTweetRequest.location request;
     Tweet.engagement_score := Some 0;
     Tweet.author_info := None; Tweet.likes := None; Tweet.retweets := None;
     Tweet.replies := None; Tweet.quotes := None; Tweet.quote_tweet := None |}.

(** [const newTweet = { ... }] of [createQuoteTweet]: no [hashtags] and no
    [mentions], and the link to the quoted tweet. *)
Definition newQuoteTweet_of (request : CreateTweetRequest.t)
    (authorAddress quotedTweetId : string) (id created_at updated_at : string)
    : Tweet.t :=
  {| Tweet.id := id;
     Tweet.author := authorAddress;
     Tweet.content := Some (CreateTweetRequest.content request);
     Tweet.content_type := None;
     Tweet.hashtags := None;
     Tweet.mentions := None;
     Tweet.media_urls := CreateTweetRequest.media_urls request;
     Tweet.reply_to_id := CreateTweetRequest.reply_to_id request;
     Tweet.retweet_of_id := None;
     Tweet.quote_tweet_id := Some quotedTweetId;
     Tweet.like_count := Some 0;
     Tweet.retweet_count := Some 0;
     Tweet.reply_count := Some 0;
     Tweet.quote_count := Some 0;
     Tweet.timestamp := None;
     Tweet.created_at := Some created_at;
     Tweet.updated_at := Some updated_at;
     Tweet.is_deleted := Some false;
     Tweet.visibility :=
       Some (or_default (CreateTweetRequest.visibility request) "public");
     Tweet.language := None;
     Tweet.location := CreateTweetRequest.location request;
     Tweet.engagement_score := Some 0;
     Tweet.author_info := None; Tweet.likes := None; Tweet.retweets := None;
     Tweet.replies := None; Tweet.quotes := None; Tweet.quote_tweet := None |}.

(** [{...existingUser, ...profileData, updated_at}] *)
Definition updatedUser_of (existingUser : User.t)
    (profileData : UpdateUserProfileRequest.t) (updated_at : string) : User.t :=
  {| User.address := User.address existingUser;
     User.display_name :=
       spread_key (UpdateUserProfileRequest.display_name profileData)
                  (User.display_name existingUser);
     User.bio :=
       spread_key (UpdateUserProfileRequest.bio profileData)
                  (User.bio existingUser);
     User.avatar_url :=
       spread_key (UpdateUserProfileRequest.avatar_url profileData)
                  (User.avatar_url existingUser);
     User.website_url :=
       spread_key (UpdateUserProfileRequest.website_url profileData)
                  (User.website_url existingUser);
     User.verified := User.verified existingUser;
     User.follower_count := User.follower_count existingUser;
     User.following_count := User.following_count existingUser;
     User.tweet_count := User.tweet_count existingUser;
     User.created_at := User.created_at existingUser;
     User.updated_at := Some updated_at;
     User.version := User.version existingUser;
     User.status := User.status existingUser |}.

(** [const newUser: User = { ... }] *)
Definition newUser_of (address : string)
    (profileData : option UpdateUserProfileRequest.t)
    (created_at updated_at : string) : User.t :=
  {| User.address := address;
     User.display_name :=
       optional_key profileData UpdateUserProfileRequest.display_name;
     User.bio := optional_key profileData UpdateUserProfileRequest.bio;
     User.avatar_url :=
       optional_key profileData UpdateUserProfileRequest.avatar_url;
     User.website_url :=
       optional_key profileData UpdateUserProfileRequest.website_url;
     User.verified := Some false;
     User.follower_count := Some 0;
     User.following_count := Some 0;
     User.tweet_count := Some 0;
     User.created_at := Some created_at;
     User.updated_at := Some updated_at;
     User.version := Some 1;
     User.status := Some "active" |}.

Section Authoring.

Variable W : Type.
Variable PaymentCallback : Type.

Variable execute_tweets : Query -> M W (QueryResult Tweet.t).
Variable execute_users : Query -> M W (QueryResult UserDoc.t).

(** [this.client.store(storeRequest, paymentCallback)] on the two
    collections written here. *)
Variable store_tweets :
  StoreRequest.t Tweet.t -> option PaymentCallback -> M W unit.
Variable store_users :
  StoreRequest.t User.t -> option PaymentCallback -> M W unit.

(** [this.client.uploadBlob(request, paymentCallback)] and
    [this.client.waitForTaskCompletion(ticket_id)] *)
Variable uploadBlob : BlobRequest -> PaymentCallback -> M W UploadResult.
Variable waitForTaskCompletion : string -> M W Task.

Variable Date_now : M W Z.
Variable random_suffix : M W string.

(** [Date.prototype.toISOString], from milliseconds to the ISO-8601 text. *)
Variable toISOString : Z -> string.

(** [new Date().toISOString()] *)
Definition now_iso : M W string :=
  t <- Date_now ;; ret (toISOString t).

Definition createTweet (request : CreateTweetRequest.t) (authorAddress : string)
    (paymentCallback : option PaymentCallback)
    : M W (option TweetWithContext) :=
  try (let hashtags := extract_hashtags (CreateTweetRequest.content request) in
       now <- Date_now ;;
       suffix <- random_suffix ;;
       created_at <- now_iso ;;
       updated_at <- now_iso ;;
       let newTweet :=
         newTweet_of request authorAddress hashtags
                     ("tweet_" ++ show now ++ "_" ++ suffix)%string
                     created_at updated_at in
       let storeRequest := StoreRequest.mk "tweets" [newTweet] in
       _ <- store_tweets storeRequest paymentCallback ;;
       ret (Some (mapTweetData newTweet false false)))
  catch (ret None).

Definition createQuoteTweet (request : CreateTweetRequest.t)
    (authorAddress quotedTweetId : string)
    (paymentCallback : option PaymentCallback)
    : M W (option TweetWithContext) :=
  try (now <- Date_now ;;
       suffix <- random_suffix ;;
       created_at <- now_iso ;;
       updated_at <- now_iso ;;
       let newTweet :=
         newQuoteTweet_of request authorAddress quotedTweetId
                          ("tweet_" ++ show now ++ "_" ++ suffix)%string
                          created_at updated_at in
       let storeRequest := StoreRequest.mk "tweets" [newTweet] in
       _ <- store_tweets storeRequest paymentCallback ;;
       ret (Some (mapTweetData newTweet false false)))
  catch (ret None).

(** [getQuotedTweet]: no [try] of its own; [getTweet] has one. *)
Definition getQuotedTweet (quoteTweetId : string)
    : M W (option TweetWithContext) :=
  if negb (truthy quoteTweetId)
  then ret None
  else getTweet W execute_tweets quoteTweetId.

Definition uploadImage (file : File) (userAddress : string)
    (paymentCallback : PaymentCallback) (tweetId : option string)
    : M W (option string) :=
  try (uploadResult <-
         uploadBlob {| blob_collection := "tweet_images";
                       blob := file;
                       metadata :=
                         {| user_address := userAddress;
                            metadata_tweet_id := or_default tweetId "" |} |}
                    paymentCallback ;;
       task <- waitForTaskCompletion (ticket_id uploadResult) ;;
       if str_eq (task_status task) "Completed"
       then ret (Some (blob_id uploadResult))
       else ret None)
  catch (ret None).

Definition upsertUser (address : string)
    (profileData : option UpdateUserProfileRequest.t)
    (paymentCallback : option PaymentCallback) : M W (option User.t) :=
  try (existingUser <- getUser W execute_users address ;;
       match existingUser with
       | Some existingUser =>
           match profileData with
           | Some profileData =>
               updated_at <- now_iso ;;
               let updatedUser :=
                 updatedUser_of existingUser profileData updated_at in
               let storeRequest := StoreRequest.mk "users" [updatedUser] in
               _ <- store_users storeRequest paymentCallback ;;
               ret (Some updatedUser)
           | None => ret (Some existingUser)
           end
       | None =>
           created_at <- now_iso ;;
           updated_at <- now_iso ;;
           let newUser := newUser_of address profileData created_at updated_at in
           let storeRequest := StoreRequest.mk "users" [newUser] in
           _ <- store_users storeRequest paymentCallback ;;
           ret (Some newUser)
       end)
  catch (ret None).

Definition updateUserProfile (address : string)
    (updates : UpdateUserProfileRequest.t)
    (paymentCallback : option PaymentCallback) : M W (option User.t) :=
  upsertUser address (Some updates) paymentCallback.

End Authoring.

(* ================================================================== *)
(** ** The payment callback (TempoPaymentCallback) *)

(** A payment option of an [X402Quote], with the fields the callback
    reads; [extra] and each of its fields may be absent. *)
Module Extra.
Record t := mk {
  paymentMethod : option string;
  tokenSymbol : option string;
  tokenDecimals : option Z;
  chainType : option string
}.
End Extra.

Module PaymentOption.
Record t := mk {
  network : string;
  asset : string;
  payTo : string;
  maxAmountRequired : string;
  extra : option Extra.t
}.
End PaymentOption.

Record X402Quote := mkQuote {
  allOptions : list PaymentOption.t
}.

(** [interface TempoPaymentCallbackOptions]; the [provider] is the
    [provider_request] of the section below. *)
Record TempoPaymentCallbackOptions := mkOptions {
  userAddress : string;
  preferredNetwork : option string;
  preferredToken : option string
}.

(** [opt.extra?.field] *)
Definition extra_field {A} (opt : PaymentOption.t) (field : Extra.t -> option A)
    : option A :=
  match PaymentOption.extra opt with
  | Some e => field e
  | None => None
  end.

(** [interface NetworkConfig] *)
Record NetworkConfig := mkNetworkConfig {
  chainId : Z;
  usdcAddress : string;
  usdcName : string;
  usdcVersion : string
}.

(** What [NETWORK_CONFIGS[name]] evaluates to when it is not [undefined]:
    one of the four configurations, or a member that the object literal
    inherits from [Object.prototype] (a function, or the prototype itself
    for [__proto__]); such a member is truthy and has none of the four
    configuration fields. *)
Inductive ConfigValue :=
| Configured (config : NetworkConfig)
| InheritedMember.

Definition object_prototype_members : list string :=
  [ "constructor"; "hasOwnProperty"; "isPrototypeOf"; "propertyIsEnumerable";
    "toLocaleString"; "toString"; "valueOf"; "__proto__";
    "__defineGetter__"; "__defineSetter__";
    "__lookupGetter__"; "__lookupSetter__" ].

(** [NETWORK_CONFIGS[name]]; [None] is [undefined]. *)
Definition NETWORK_CONFIGS (name : string) : option ConfigValue :=
  if str_eq name "base-sepolia"
  then Some (Configured
               (mkNetworkConfig 84532
                  "0x036CbD53842c5426634e7929541eC2318f3dCF7e" "USD Coin" "2"))
  else if str_eq name "base"
  then Some (Configured
               (mkNetworkConfig 8453
                  "0x833589fCD6eDb6E08f4c7C32D4f71b54bdA02913" "USD Coin" "2"))
  else if str_eq name "polygon"
  then Some (Configured
               (mkNetworkConfig 137
                  "0x3c499c542cEF5E3811e1192ce70d8cC03d5c3359" "USD Coin" "2"))
  else if str_eq name "polygon-amoy"
  then Some (Configured
               (mkNetworkConfig 80002
                  "0x41E94Eb019C0762f9Bfcf9Fb1E58725BfB0e7582" "USD Coin" "2"))
  else if existsb (str_eq name) object_prototype_members
  then Some InheritedMember
  else None.

(** [config.field] on such a value *)
Definition config_field {A} (config : ConfigValue) (field : NetworkConfig -> A)
    : option A :=
  match config with
  | Configured c => Some (field c)
  | InheritedMember => None
  end.

(** One hexadecimal digit, lower case. *)
Definition hex_digit (d : N) : ascii :=
  nth (N.to_nat d)
      [ "0"; "1"; "2"; "3"; "4"; "5"; "6"; "7";
        "8"; "9"; "a"; "b"; "c"; "d"; "e"; "f" ]%char "0"%char.

(** [b.toString(16)] for a byte [b]: one or two digits. *)
Definition toString16 (b : Byte.byte) : string :=
  let n := Byte.to_N b in
  if (n <? 16)%N
  then String (hex_digit n) ""
  else String (hex_digit (n / 16)) (String (hex_digit (n mod 16)) "").

(** [s.padStart(targetLength, c)] for a one-character pad *)
Definition padStart (targetLength : nat) (c : ascii) (s : string) : string :=
  (string_of_list_ascii (repeat c (targetLength - String.length s)) ++ s)%string.

(** ['0x' + Array.from(bytes).map(b => b.toString(16).padStart(2, '0'))
           .join('')] *)
Definition hex_of_bytes (bytes : list Byte.byte) : string :=
  ("0x" ++ String.concat "" (map (fun b => padStart 2 "0" (toString16 b)) bytes))%string.

(** The [authorization] object, the typed data built from it, and the
    result of the callback. *)
Module Authorization.
Record t := mk {
  from : string;
  to : string;
  value : string;
  validAfter : Z;
  validBefore : Z;
  nonce : string
}.
End Authorization.

Module Domain.
Record t := mk {
  name : option string;
  version : option string;
  chainId : option Z;
  verifyingContract : option string
}.
End Domain.

Module Message.
Record t := mk {
  from : string;
  to : string;
  value : string;
  validAfter : string;
  validBefore : string;
  nonce : string
}.
End Message.

Module TypedData.
Record t := mk {
  types : list (string * list (string * string));
  primaryType : string;
  domain : Domain.t;
  message : Message.t
}.
End TypedData.

Module EvmAuthorization.
Record t := mk {
  signature : string;
  authorization : Authorization.t
}.
End EvmAuthorization.

Module X402PaymentResult.
Record t := mk {
  network : string;
  chainType : string;
  paymentMethod : string;
  evmAuthorization : EvmAuthorization.t
}.
End X402PaymentResult.

Definition createTransferAuthorizationTypedData (config : ConfigValue)
    (authorization : Authorization.t) : TypedData.t :=
  {| TypedData.types :=
       [ ("EIP712Domain",
          [ ("name", "string"); ("version", "string");
            ("chainId", "uint256"); ("verifyingContract", "address") ]);
         ("TransferWithAuthorization",
          [ ("from", "address"); ("to", "address"); ("value", "uint256");
            ("validAfter", "uint256"); ("validBefore", "uint256");
            ("nonce", "bytes32") ]) ];
     TypedData.primaryType := "TransferWithAuthorization";
     TypedData.domain :=
       {| Domain.name := config_field config usdcName;
          Domain.version := config_field config usdcVersion;
          Domain.chainId := config_field config chainId;
          Domain.verifyingContract := config_field config usdcAddress |};
     TypedData.message :=
       {| Message.from := Authorization.from authorization;
          Message.to := Authorization.to authorization;
          Message.value := Authorization.value authorization;
          Message.validAfter := show (Authorization.validAfter authorization);
          Message.validBefore := show (Authorization.validBefore authorization);
          Message.nonce := Authorization.nonce authorization |} |}.

(** The predicate of the first [find]. *)
Definition matches_preference (preferredNetwork preferredToken : string)
    (opt : PaymentOption.t) : bool :=
  let matchesNetwork := str_eq (PaymentOption.network opt) preferredNetwork in
  let matchesToken :=
    (str_eq preferredToken "native" && str_eq (PaymentOption.asset opt) "native")
    || (str_eq preferredToken "USDC"
        && opt_str_eq (extra_field opt Extra.tokenSymbol) "USDC")
    || (str_eq preferredToken "TIA" && str_eq (PaymentOption.asset opt) "utia") in
  matchesNetwork && matchesToken.

(** The three steps that choose [selectedOption]; [None] is [undefined]. *)
Definition select_option (options : TempoPaymentCallbackOptions)
    (quote : X402Quote) : option PaymentOption.t :=
  let preferredNetwork := or_default (preferredNetwork options) "base-sepolia" in
  let preferredToken := or_default (preferredToken options) "native" in
  let selectedOption :=
    find (matches_preference preferredNetwork preferredToken)
         (allOptions quote) in
  let selectedOption :=
    match selectedOption with
    | Some opt => Some opt
    | None =>
        find (fun opt => str_eq (PaymentOption.network opt) preferredNetwork)
             (allOptions quote)
    end in
  match selectedOption with
  | Some opt => Some opt
  | None => hd_error (allOptions quote)
  end.

Section TempoPaymentCallback.

Variable W : Type.

(** [Date.now()]: an integer number of milliseconds. For a time value the
    floating-point quotient by 1000 has the integer part of the exact
    quotient, so [Math.floor(Date.now() / 1000)] is [now / 1000]. *)
Variable Date_now : M W Z.

(** One byte of [crypto.getRandomValues]. *)
Variable random_byte : M W Byte.byte.

(** [options.provider.request({ method, params: [address, JSON.stringify(
    typedData)] })]; the JSON text is represented by the object it renders.
    The wallet may refuse. *)
Variable provider_request : string -> string -> TypedData.t -> M W string.

(** [crypto.getRandomValues(bytes)] on an array of [n] bytes *)
Fixpoint getRandomValues (n : nat) : M W (list Byte.byte) :=
  match n with
  | O => ret []
  | S n' =>
      b <- random_byte ;;
      rest <- getRandomValues n' ;;
      ret (b :: rest)
  end.

Definition generateNonce : M W string :=
  bytes <- getRandomValues 32 ;;
  ret (hex_of_bytes bytes).

(** The callback that [createTempoPaymentCallback(options)] returns. The
    values [tokenDisplay] and [amountDisplay] are computed without effect
    and never used. *)
Definition createTempoPaymentCallback (options : TempoPaymentCallbackOptions)
    (quote : X402Quote) : M W X402PaymentResult.t :=
  match select_option options quote with
  | None => throw
  | Some selectedOption =>
      if opt_str_eq (extra_field selectedOption Extra.paymentMethod)
                    "x402-facilitator"
      then
        match NETWORK_CONFIGS (PaymentOption.network selectedOption) with
        | None => throw
        | Some networkConfig =>
            now <- Date_now ;;
            let validAfter := now / 1000 - 60 in
            now' <- Date_now ;;
            let validBefore := now' / 1000 + 300 in
            nonce <- generateNonce ;;
            let authorization :=
              {| Authorization.from := userAddress options;
                 Authorization.to := PaymentOption.payTo selectedOption;
                 Authorization.value :=
                   PaymentOption.maxAmountRequired selectedOption;
                 Authorization.validAfter := validAfter;
                 Authorization.validBefore := validBefore;
                 Authorization.nonce := nonce |} in
            let typedData :=
              createTransferAuthorizationTypedData networkConfig
                                                   authorization in
            signature <- provider_request "eth_signTypedData_v4"
                                          (userAddress options) typedData ;;
            ret {| X402PaymentResult.network :=
                     PaymentOption.network selectedOption;
                   X402PaymentResult.chainType :=
                     or_default (extra_field selectedOption Extra.chainType)
                                "evm";
                   X402PaymentResult.paymentMethod := "x402-facilitator";
                   X402PaymentResult.evmAuthorization :=
                     {| EvmAuthorization.signature := signature;
                        EvmAuthorization.authorization :=
                          {| Authorization.from :=
                               Authorization.from authorization;
                             Authorization.to := Authorization.to authorization;
                             Authorization.value :=
                               Authorization.value authorization;
                             Authorization.validAfter :=
                               Authorization.validAfter authorization;
                             Authorization.validBefore :=
                               Authorization.validBefore authorization;
                             Authorization.nonce :=
                               Authorization.nonce authorization |} |} |}
        end
      else throw
  end.

End TempoPaymentCallback.

(* ================================================================== *)
(** ** Vocabulary and sample data of the further properties *)

(** *** Vocabulary for the hashtag properties *)

(** Every character of [w] is a word character. *)
Fixpoint word (w : string) : bool :=
  match w with
  | EmptyString => true
  | String c rest => is_word_char c && word rest
  end.

Definition starts_with_word (s : string) : bool :=
  match s with
  | EmptyString => false
  | String c _ => is_word_char c
  end.

(** The number of places where a [#] is directly followed by a word
    character. *)
Fixpoint count_hash_starts (s : string) : nat :=
  match s with
  | EmptyString => 0%nat
  | String c rest =>
      ((if is_hash c && starts_with_word rest then 1 else 0)
       + count_hash_starts rest)%nat
  end.

(** *** Vocabulary for the profile properties *)

(** What an object spread does to one key: [new] is the update's value when
    the update has the key, and [old] otherwise. *)
Definition overridden {A} (update : option (option A)) (old new : option A)
    : Prop :=
  match update with
  | Some v => new = v
  | None => new = old
  end.

(** The lookup of [getUser] finds nobody: the query fails, or it answers
    without a record. *)
Definition finds_nobody {W} (lookup : M W (QueryResult UserDoc.t)) (w : W)
    : Prop :=
  match fst (lookup w) with
  | Ok result => has_records result = false
  | Throw => True
  end.

(** *** Sample clients for the write paths *)

(** Over a world without state: a [store] that accepts everything and one
    that always fails, a clock that stands still, a fixed random suffix. *)
Definition accepting {R P} : StoreRequest.t R -> option P -> M unit unit :=
  fun _ _ w => (Ok tt, w).

Definition rejecting {R P} : StoreRequest.t R -> option P -> M unit unit :=
  fun _ _ w => (Throw, w).

Definition fixed_clock (t : Z) : M unit Z := fun w => (Ok t, w).

Definition fixed_suffix (s : string) : M unit string := fun w => (Ok s, w).

(** A tweet request with the given content and nothing optional. *)
Definition request_of (content : string) : CreateTweetRequest.t :=
  CreateTweetRequest.mk content None None None None None.

(** A profile form that only carries a [display_name]. *)
Definition rename_to (name : option string) : UpdateUserProfileRequest.t :=
  UpdateUserProfileRequest.mk (Some name) None None None.

(** An upload that is accepted with the given identifiers, and a task that
    ends with the given status. *)
Definition uploading {P} (r : UploadResult) : BlobRequest -> P -> M unit UploadResult :=
  fun _ _ w => (Ok r, w).

Definition ending (status : string) : string -> M unit Task :=
  fun _ w => (Ok (mkTask status), w).

Definition photo : File := mkFile "cat.png" 2048.

(** *** Vocabulary for the read properties *)

(** The joined replies that [push_replies] keeps. *)
Definition with_content (rs : list Tweet.t) : list Tweet.t :=
  filter (fun r => truthy_opt (Tweet.content r)) rs.

(** A thread whose second reply has no content; the stored reply counter
    of the tweet has drifted. *)
Definition thread_t7 : Tweet.t :=
  {| Tweet.id := "t7"; Tweet.author := "a1"; Tweet.content := Some "hello";
     Tweet.content_type := None; Tweet.hashtags := None;
     Tweet.mentions := None; Tweet.media_urls := None;
     Tweet.reply_to_id := None; Tweet.retweet_of_id := None;
     Tweet.quote_tweet_id := None;
     Tweet.like_count := Some 4; Tweet.retweet_count := None;
     Tweet.reply_count := Some 9; Tweet.quote_count := None;
     Tweet.timestamp := None; Tweet.created_at := None;
     Tweet.updated_at := None; Tweet.is_deleted := None;
     Tweet.visibility := None; Tweet.language := None;
     Tweet.location := None; Tweet.engagement_score := None;
     Tweet.author_info := None; Tweet.likes := None;
     Tweet.retweets := None; Tweet.replies := Some sample_replies;
     Tweet.quotes := None; Tweet.quote_tweet := None |}.

(** Two reply documents without content (the field absent, the field
    empty) and one with a content. *)
Definition replies_without_content : list Tweet.t :=
  [ tweet_doc "r2" "a3" None None None None None;
    tweet_doc "r3" "a4" (Some "") None None None None ].

Definition reply_first : Tweet.t :=
  tweet_doc "r1" "a2" (Some "first") None None None None.

(** A client whose like lookups always succeed without a record. *)
Definition no_likes : Query -> M unit (QueryResult Like.t) :=
  fun _ w => (Ok (mkResult (Some [])), w).

(** *** Vocabulary for the store invariants *)

(** All versions in [l] carry one id and one [created_at]. *)
Definition one_id (l : list Follow.t) : Prop :=
  forall r r', In r l -> In r' l ->
    Follow.id r = Follow.id r' /\ Follow.created_at r = Follow.created_at r'.

(** Every version in [l] is older than [t]. *)
Definition older_than (t : Z) (l : list Follow.t) : Prop :=
  Forall (fun r => exists t', stamp r = Some t' /\ t' < t) l.

(** A call of one of the four methods that work on follows and likes. *)
Inductive call :=
| FollowUser (followerAddress followingAddress : string)
| UnfollowUser (followerAddress followingAddress : string)
| IsFollowing (followerAddress followingAddress : string)
| LikeTweet (userAddress tweetId : string).

Definition perform (c : call) : M Store.World bool :=
  match c with
  | FollowUser a b => Store.followUser a b no_callback
  | UnfollowUser a b => Store.unfollowUser a b no_callback
  | IsFollowing a b => Store.isFollowing a b
  | LikeTweet u t => Store.likeTweet u t no_callback
  end.

(** The store after a sequence of calls, one after the other. *)
Definition after (calls : list call) (w : Store.World) : Store.World :=
  fold_left (fun w c => snd (perform c w)) calls w.

(** A store with the given documents in which the second remote call
    fails. *)
Definition world_failing_second (fs : list Follow.t) (ls : list Like.t)
    : Store.World :=
  Store.mkWorld fs ls (fun n => 1000 + Z.of_nat n) 0 (fun _ => "k3j9x2m1q") 0
                [false; true] 0.

(** A follow [u1 -> u2] that was withdrawn, in a store without faults. *)
Definition world_unfollowed : Store.World :=
  world_of [version "active" 1; version "inactive" 2] [].

(** A store that holds a follow of another pair, [u1 -> u3]. *)
Definition world_other_pair : Store.World :=
  world_of [Follow.mk "f2" "u1" "u3" "active" (Some (Instant 1))
                      (Some (Instant 1))] [].

(** A follow [u1 -> u2] that is in force. *)
Definition world_followed : Store.World :=
  world_of [version "active" 1] [].

(** *** Vocabulary and sample data for the payment callback *)

(** The preferences in force: the given ones, or the defaults. *)
Definition network_in_force (options : TempoPaymentCallbackOptions) : string :=
  or_default (preferredNetwork options) "base-sepolia".

Definition token_in_force (options : TempoPaymentCallbackOptions) : string :=
  or_default (preferredToken options) "native".

(** An option that the callback can pay: a facilitator option on a network
    for which [NETWORK_CONFIGS] has a value. *)
Definition payable (opt : PaymentOption.t) : Prop :=
  extra_field opt Extra.paymentMethod = Some "x402-facilitator" /\
  NETWORK_CONFIGS (PaymentOption.network opt) <> None.

Definition is_hex_digit (c : ascii) : bool :=
  existsb (Ascii.eqb c)
          [ "0"; "1"; "2"; "3"; "4"; "5"; "6"; "7";
            "8"; "9"; "a"; "b"; "c"; "d"; "e"; "f" ]%char.

(** The value of a hexadecimal digit, and the byte that two digits spell. *)
Definition hex_value (c : ascii) : N :=
  let n := N_of_ascii c in
  if (n <? 58)%N then (n - 48)%N else (n - 87)%N.

Definition byte_of_hex (s : string) : option Byte.byte :=
  match s with
  | String hi (String lo EmptyString) =>
      Byte.of_N (16 * hex_value hi + hex_value lo)
  | _ => None
  end.

(** Three options of a quote: a native one on [base], a USDC facilitator
    option and a native one on [base-sepolia]. *)
Definition option_native_base : PaymentOption.t :=
  PaymentOption.mk "base" "native" "0xpay" "100" None.

Definition option_usdc_sepolia : PaymentOption.t :=
  PaymentOption.mk "base-sepolia" "0xusdc" "0xpay" "2000"
    (Some (Extra.mk (Some "x402-facilitator") (Some "USDC") (Some 6) None)).

Definition option_native_sepolia : PaymentOption.t :=
  PaymentOption.mk "base-sepolia" "native" "0xpay" "5" None.

Definition sample_quote : X402Quote :=
  mkQuote [option_native_base; option_usdc_sepolia; option_native_sepolia].

(** A user who prefers USDC, and one without preferences. *)
Definition prefers_usdc : TempoPaymentCallbackOptions :=
  mkOptions "0xme" None (Some "USDC").

Definition no_preference : TempoPaymentCallbackOptions :=
  mkOptions "0xme" None None.

(** Over a world without state: a random source that always gives the same
    byte, a wallet that signs everything and one that refuses. *)
Definition fixed_byte (b : Byte.byte) : M unit Byte.byte := fun w => (Ok b, w).

Definition signing (signature : string)
    : string -> string -> TypedData.t -> M unit string :=
  fun _ _ _ w => (Ok signature, w).

Definition refusing : string -> string -> TypedData.t -> M unit string :=
  fun _ _ _ w => (Throw, w).

(* ================================================================== *)
(** * Properties *)

(** ** The primitives on small inputs *)

Example sort_descending_stable :
  map Follow.status
      (sort by_latest [version "a" 2; version "b" 5; version "c" 2;
                       version "d" 5])
  = ["b"; "d"; "a"; "c"].
Proof. reflexivity. Qed.

Example sort_falls_back_to_created_at :
  map Follow.id
      (sort by_latest
         [ Follow.mk "old" "u1" "u2" "active" (Some (Instant 3)) None;
           Follow.mk "new" "u1" "u2" "inactive" (Some (Instant 1))
                     (Some (Instant 4)) ])
  = ["new"; "old"].
Proof. reflexivity. Qed.

Example slice0_takes_a_prefix : slice0 2 [10; 20; 30] = [10; 20].
Proof. reflexivity. Qed.

Example slice0_past_the_end : slice0 7 [10; 20; 30] = [10; 20; 30].
Proof. reflexivity. Qed.

Example slice_last_of_address :
  slice_last 8 "0x1234567890abcdef" = "90abcdef" /\ slice_last 8 "u1" = "u1".
Proof. split; reflexivity. Qed.

Example first_follow_id :
  Follow.id (first_follow "0x1234567890abcdef" "u2" (world_of [] []))
  = "follow_90abcdef_u2_1000".
Proof. reflexivity. Qed.

Example select_applies_limit :
  length (Store.select Store.follow_field (follow_query "u1" "u2")
            eleven_versions) = 10%nat.
Proof. reflexivity. Qed.

Example valid_tweets_of_user_a1 :
  map Tweet.id (valid_tweets (joined (UserDoc.user_tweets user_a1)))
  = ["t1"; "t3"].
Proof. reflexivity. Qed.

(** Eleven versions of one pair arise from the service's own calls: a
    first follow and five unfollow / follow rounds each store a version,
    the last of them active; the [limit(10)] query then no longer reaches
    it. *)
Example six_follows_store_eleven_versions :
  map Follow.status (Store.follows after_six_follows)
  = [ "active"; "inactive"; "active"; "inactive"; "active"; "inactive";
      "active"; "inactive"; "active"; "inactive"; "active" ] /\
  Store.store_calls after_six_follows = 11%nat /\
  map Follow.id (Store.follows after_six_follows)
  = repeat "follow_u1_u2_1000" 11 /\
  fst (Store.isFollowing "u1" "u2" after_six_follows) = Ok false.
Proof. repeat split; reflexivity. Qed.

(** ** The sort and the latest version *)

Section SortFacts.

Context {A : Type} (cmp : A -> A -> number).

Lemma insert_permutation (x : A) (l : list A) :
  Permutation (x :: l) (insert cmp x l).
Proof.
  induction l as [|y l IH]; simpl.
  - apply Permutation_refl.
  - destruct (positive (cmp x y)).
    + eapply perm_trans; [apply perm_swap|]. now apply perm_skip.
    + apply Permutation_refl.
Qed.

Lemma sort_permutation (l : list A) : Permutation l (sort cmp l).
Proof.
  induction l as [|x l IH]; simpl.
  - apply perm_nil.
  - eapply perm_trans; [apply perm_skip, IH|]. apply insert_permutation.
Qed.

Lemma sort_length (l : list A) : length (sort cmp l) = length l.
Proof. symmetry. apply Permutation_length, sort_permutation. Qed.

Lemma hd_insert (x : A) (l : list A) :
  hd_error (insert cmp x l) =
  match hd_error l with
  | Some y => if positive (cmp x y) then Some y else Some x
  | None => Some x
  end.
Proof.
  destruct l as [|y l]; simpl; [reflexivity|].
  now destruct (positive (cmp x y)).
Qed.

End SortFacts.

Lemma ltb_minus (a b : Z) : (0 <? a - b) = (b <? a).
Proof.
  destruct (Z.ltb_spec 0 (a - b)), (Z.ltb_spec b a); try reflexivity; lia.
Qed.

Lemma sort_key_stamp (r : Follow.t) :
  Date_getTime (or_else (Follow.updated_at r) (Follow.created_at r)) = stamp r.
Proof.
  unfold stamp, or_else, truthy_opt.
  now destruct (Follow.updated_at r).
Qed.

Lemma by_latest_newer (a b : Follow.t) : positive (by_latest a b) = newer b a.
Proof.
  unfold by_latest, newer. rewrite !sort_key_stamp.
  destruct (stamp b), (stamp a); simpl; try reflexivity.
  apply ltb_minus.
Qed.

(** The head of the sorted array is the function [latest_version]. *)
Lemma hd_sort_by_latest (l : list Follow.t) :
  hd_error (sort by_latest l) = latest_version l.
Proof.
  induction l as [|r rest IH]; simpl; [reflexivity|].
  rewrite hd_insert, IH.
  destruct (latest_version rest) as [m|]; [|reflexivity].
  now rewrite by_latest_newer.
Qed.

Lemma first_record_sorted (W : Type) (l : list Follow.t) (w : W) :
  first_record W (sort by_latest l) w =
  match latest_version l with
  | Some m => (Ok m, w)
  | None => (Throw, w)
  end.
Proof.
  rewrite <- hd_sort_by_latest.
  now destruct (sort by_latest l).
Qed.

Lemma latest_version_none (l : list Follow.t) :
  latest_version l = None -> l = [].
Proof.
  destruct l as [|r rest]; [reflexivity|]. simpl.
  destruct (latest_version rest) as [m|]; [|discriminate].
  destruct (newer m r); discriminate.
Qed.

Lemma latest_version_some (l : list Follow.t) :
  l <> [] -> exists m, latest_version l = Some m.
Proof.
  intros Hne. destruct (latest_version l) as [m|] eqn:E; [now exists m|].
  now apply latest_version_none in E.
Qed.

Lemma has_stamp_some (r : Follow.t) : has_stamp r -> exists t, stamp r = Some t.
Proof.
  unfold has_stamp. destruct (stamp r) as [t|]; [now exists t | congruence].
Qed.

(** [latest_version] returns the latest version in the sense of [Latest]. *)
Lemma latest_version_Latest (l : list Follow.t) (m : Follow.t) :
  Forall has_stamp l -> latest_version l = Some m -> Latest m l.
Proof.
  revert m. induction l as [|r rest IH]; intros m Hst Hm; [discriminate|].
  inversion Hst as [|? ? Hr Hrest]; subst.
  destruct (has_stamp_some r Hr) as [tr Etr].
  simpl in Hm. destruct (latest_version rest) as [m0|] eqn:E0.
  - destruct (IH m0 Hrest eq_refl) as (b & a & t0 & -> & Et0 & Hb & Ha).
    unfold newer in Hm. rewrite Et0, Etr in Hm.
    destruct (Z.ltb_spec tr t0) as [Hlt|Hge]; inversion Hm; subst.
    + exists (r :: b), a, t0. repeat split; auto.
      constructor; auto. now exists tr.
    + exists [], (b ++ m0 :: a), tr. repeat split; auto.
      apply Forall_app; split; [|constructor].
      * eapply Forall_impl; [|exact Hb].
        intros x (t & Ex & Hx). exists t. split; [assumption|lia].
      * exists t0. split; [assumption|lia].
      * eapply Forall_impl; [|exact Ha].
        intros x (t & Ex & Hx). exists t. split; [assumption|lia].
  - inversion Hm; subst. apply latest_version_none in E0. subst rest.
    exists [], [], tr. repeat split; auto.
Qed.

Lemma Latest_unique (l : list Follow.t) (m m' : Follow.t) :
  Latest m l -> Latest m' l -> m = m'.
Proof.
  intros (b & a & t & -> & Et & Hb & Ha) (b' & a' & t' & E & Et' & Hb' & Ha').
  revert b' E Hb'. induction b as [|x b IH]; intros [|x' b'] E Hb'; simpl in E.
  - now inversion E.
  - inversion E; subst x' a.
    inversion Hb' as [|? ? (t1 & E1 & H1) _]; subst.
    apply Forall_app in Ha as [_ Ha]. inversion Ha as [|? ? (t2 & E2 & H2) _].
    subst. rewrite Et in E1. rewrite Et' in E2.
    inversion E1; inversion E2; subst. lia.
  - inversion E; subst x a'.
    inversion Hb as [|? ? (t1 & E1 & H1) _]; subst.
    apply Forall_app in Ha' as [_ Ha']. inversion Ha' as [|? ? (t2 & E2 & H2) _].
    subst. rewrite Et' in E1. rewrite Et in E2.
    inversion E1; inversion E2; subst. lia.
  - inversion E; subst x'.
    inversion Hb; inversion Hb'; subst. eapply IH; eauto.
Qed.

Lemma Latest_latest_version (l : list Follow.t) (m : Follow.t) :
  Forall has_stamp l -> Latest m l -> latest_version l = Some m.
Proof.
  intros Hst HL.
  destruct (latest_version_some l) as [m' E].
  - destruct HL as (b & a & _ & -> & _). now destruct b.
  - rewrite E. f_equal. eapply Latest_unique; [|exact HL].
    now apply latest_version_Latest.
Qed.

(** ** Running the follow methods against the store *)

Lemma select_follow_query (a b : string) (docs : list Follow.t) :
  Store.select Store.follow_field (follow_query a b) docs =
  firstn 10 (filter (fun r => str_eq (Follow.follower r) a
                              && str_eq (Follow.following r) b) docs).
Proof.
  unfold Store.select, follow_query. cbn [predicates q_offset q_limit].
  change (Z.to_nat 10) with 10%nat. f_equal.
  apply filter_ext. intros r. cbn. now rewrite andb_true_r.
Qed.

Lemma execute_follows_ok (w : Store.World) (a b : string) :
  Store.faults w = [] ->
  Store.execute_follows (follow_query a b) w
  = (Ok (mkResult (Some (fetched a b w))), w).
Proof.
  intros Hf. unfold Store.execute_follows, Store.remote. rewrite Hf. simpl.
  now rewrite select_follow_query.
Qed.

(** [isFollowing] over any client: what it answers once the query has
    handed back the candidates [l]. *)
Lemma isFollowing_run (W : Type)
    (execute_follows : Query -> M W (QueryResult Follow.t))
    (a b : string) (l : list Follow.t) (w w' : W) :
  execute_follows (follow_query a b) w = (Ok (mkResult (Some l)), w') ->
  isFollowing W execute_follows a b w
  = (Ok (match latest_version l with
         | Some m => is_active m
         | None => false
         end), w').
Proof.
  intros Hq. unfold isFollowing, try_catch, bind. rewrite Hq. simpl.
  destruct l as [|r rest]; [reflexivity|].
  rewrite first_record_sorted.
  destruct (latest_version_some (r :: rest)) as [m ->]; [discriminate|].
  reflexivity.
Qed.

Lemma is_active_iff (r : Follow.t) :
  is_active r = true <-> Follow.status r = "active".
Proof. unfold is_active, str_eq. apply String.eqb_eq. Qed.

(** What [isFollowing] computes from the versions its query hands back,
    when the call completes and every version carries a timestamp: the
    status of the latest of them. For the two versions of Scenario C
    (active at [T1], inactive at [T2 > T1]) the answer is false. *)
Lemma isFollowing_latest_fetched :
  (forall (w : Store.World) (a b : string),
      Store.faults w = [] ->
      Forall has_stamp (fetched a b w) ->
      exists r,
        Store.isFollowing a b w = (Ok r, w) /\
        (r = true <->
         exists m, Latest m (fetched a b w) /\ Follow.status m = "active") /\
        (versions a b w = [] -> r = false)) /\
  (forall (w : Store.World) (T1 T2 : Z) (c1 c2 : option instant),
      Store.faults w = [] ->
      Store.follows w =
        [ Follow.mk "f1" "u1" "u2" "active" c1 (Some (Instant T1));
          Follow.mk "f1" "u1" "u2" "inactive" c2 (Some (Instant T2)) ] ->
      T1 < T2 ->
      Store.isFollowing "u1" "u2" w = (Ok false, w)).
Proof.
  split.
  - intros w a b Hf Hst.
    unfold Store.isFollowing.
    rewrite (isFollowing_run _ _ a b _ w w (execute_follows_ok w a b Hf)).
    eexists. split; [reflexivity|]. split.
    + split.
      * destruct (latest_version (fetched a b w)) as [m|] eqn:E; [|discriminate].
        intros Hact. exists m. split.
        -- now apply latest_version_Latest.
        -- now apply is_active_iff.
      * intros (m & HL & Hact).
        rewrite (Latest_latest_version _ _ Hst HL). now apply is_active_iff.
    + unfold fetched. intros ->. reflexivity.
  - intros w T1 T2 c1 c2 Hf Hfo Hlt.
    unfold Store.isFollowing.
    rewrite (isFollowing_run _ _ "u1" "u2" _ w w (execute_follows_ok w _ _ Hf)).
    unfold fetched, versions. rewrite Hfo. simpl.
    unfold newer, stamp. simpl.
    destruct (Z.ltb_spec T1 T2); [reflexivity | lia].
Qed.

Lemma eleventh_version_is_latest :
  Latest eleventh_version (versions "u1" "u2" after_six_follows) /\
  Follow.status eleventh_version = "active".
Proof.
  split; [|reflexivity].
  apply latest_version_Latest; [|reflexivity].
  let l := eval vm_compute in (versions "u1" "u2" after_six_follows) in
  change (versions "u1" "u2" after_six_follows) with l.
  repeat (apply Forall_cons; [discriminate|]). apply Forall_nil.
Qed.

(** C1 does not hold of the code. After a first follow and five unfollow /
    follow rounds, all made through the service, the store holds eleven
    versions of the pair. The one with the most recent [updated_at] is the
    eleventh and it is active, so the claim asks for true; [isFollowing]
    answers false, because its query carries [limit(10)] and hands back the
    first ten versions only, whose latest is the inactive tenth. *)
Lemma isFollowing_misses_eleventh_version :
  (exists m,
      Latest m (versions "u1" "u2" after_six_follows) /\
      Follow.status m = "active") /\
  length (versions "u1" "u2" after_six_follows) = 11%nat /\
  Store.isFollowing "u1" "u2" after_six_follows
  = (Ok false, after_six_follows).
Proof.
  split; [|split; reflexivity].
  exists eleventh_version. apply eleventh_version_is_latest.
Qed.

(** What [followUser] and [unfollowUser] do on a store whose calls
    complete, in terms of the latest fetched version. *)
Lemma followUser_run (w : Store.World) (a b : string) {P} (cb : option P) :
  Store.faults w = [] ->
  str_eq a b = false ->
  Store.followUser a b cb w =
  match latest_version (fetched a b w) with
  | None => (Ok true, stored_follow (first_follow a b w) 3 w)
  | Some m =>
      if is_active m
      then (Ok false, w)
      else (Ok true, stored_follow (next_version m a b "active" w) 1 w)
  end.
Proof.
  intros Hf Hab.
  unfold Store.followUser, followUser, try_catch, bind.
  rewrite Hab, (execute_follows_ok w a b Hf). cbn [records].
  destruct (fetched a b w) as [|r rest] eqn:E.
  - unfold new_Date, bind, ret, Store.Date_now, Store.store_follows,
      Store.remote. cbn. rewrite Hf. reflexivity.
  - rewrite first_record_sorted.
    destruct (latest_version_some (r :: rest)) as [m Em]; [discriminate|].
    rewrite Em. fold (is_active m). destruct (is_active m); [reflexivity|].
    rewrite first_record_sorted, Em.
    unfold new_Date, bind, ret, Store.Date_now, Store.store_follows,
      Store.remote. cbn. rewrite Hf. reflexivity.
Qed.

Lemma unfollowUser_run (w : Store.World) (a b : string) {P} (cb : option P) :
  Store.faults w = [] ->
  Store.unfollowUser a b cb w =
  match latest_version (fetched a b w) with
  | None => (Ok false, w)
  | Some m =>
      if is_active m
      then (Ok true, stored_follow (next_version m a b "inactive" w) 1 w)
      else (Ok false, w)
  end.
Proof.
  intros Hf.
  unfold Store.unfollowUser, unfollowUser, try_catch, bind.
  rewrite (execute_follows_ok w a b Hf). cbn [records].
  destruct (fetched a b w) as [|r rest] eqn:E; [reflexivity|].
  rewrite first_record_sorted.
  destruct (latest_version_some (r :: rest)) as [m Em]; [discriminate|].
  rewrite Em. fold (is_active m). destruct (is_active m); [|reflexivity].
  unfold new_Date, bind, ret, Store.Date_now, Store.store_follows,
    Store.remote. cbn. rewrite Hf. reflexivity.
Qed.

(** ** Nothing is ever removed *)

Lemma extends_refl {A} (l : list A) : extends l l.
Proof. exists []. now rewrite app_nil_r. Qed.

Lemma extends_trans {A} (l1 l2 l3 : list A) :
  extends l1 l2 -> extends l2 l3 -> extends l1 l3.
Proof.
  intros [x ->] [y ->]. exists (x ++ y). now rewrite app_assoc.
Qed.

Lemma append_only_ret {A} (a : A) : append_only (ret a).
Proof. intros w. split; apply extends_refl. Qed.

Lemma append_only_throw {A} : append_only (@throw Store.World A).
Proof. intros w. split; apply extends_refl. Qed.

Lemma append_only_bind {A B} (m : M Store.World A) (k : A -> M Store.World B) :
  append_only m -> (forall a, append_only (k a)) -> append_only (bind m k).
Proof.
  intros Hm Hk w. unfold bind. specialize (Hm w).
  destruct (m w) as [[a|] w1]; simpl in *; [|exact Hm].
  destruct (Hk a w1), Hm. split; eapply extends_trans; eauto.
Qed.

Lemma append_only_try {A} (m h : M Store.World A) :
  append_only m -> append_only h -> append_only (try_catch m h).
Proof.
  intros Hm Hh w. unfold try_catch. specialize (Hm w).
  destruct (m w) as [[a|] w1]; simpl in *; [exact Hm|].
  destruct (Hh w1), Hm. split; eapply extends_trans; eauto.
Qed.

Lemma append_only_remote {A} (call : M Store.World A) :
  append_only call -> append_only (Store.remote call).
Proof.
  intros Hc w. unfold Store.remote.
  destruct (Store.faults w) as [|[|] rest].
  - apply Hc.
  - split; apply extends_refl.
  - apply (Hc (Store.with_faults rest w)).
Qed.

Lemma append_only_execute_follows (q : Query) :
  append_only (Store.execute_follows q).
Proof.
  apply append_only_remote. intros w.
  destruct (str_eq (collection q) "follows"); split; apply extends_refl.
Qed.

Lemma append_only_execute_likes (q : Query) :
  append_only (Store.execute_likes q).
Proof.
  apply append_only_remote. intros w.
  destruct (str_eq (collection q) "likes"); split; apply extends_refl.
Qed.

Lemma append_only_store_follows {P} (request : StoreRequest.t Follow.t)
    (cb : option P) :
  append_only (Store.store_follows request cb).
Proof.
  intros w. unfold Store.store_follows.
  refine (append_only_remote _ _ (Store.with_store_calls _ w)).
  intros w'. destruct (str_eq (StoreRequest.collection request) "follows");
    split; try apply extends_refl.
  now exists (StoreRequest.data request).
Qed.

Lemma append_only_store_likes {P} (request : StoreRequest.t Like.t)
    (cb : option P) :
  append_only (Store.store_likes request cb).
Proof.
  intros w. unfold Store.store_likes.
  refine (append_only_remote _ _ (Store.with_store_calls _ w)).
  intros w'. destruct (str_eq (StoreRequest.collection request) "likes");
    split; try apply extends_refl.
  now exists (StoreRequest.data request).
Qed.

Lemma append_only_Date_now : append_only Store.Date_now.
Proof. intros w. split; apply extends_refl. Qed.

Lemma append_only_random_suffix : append_only Store.random_suffix.
Proof. intros w. split; apply extends_refl. Qed.

Create HintDb append_only.
#[local] Hint Resolve append_only_ret append_only_throw
  append_only_execute_follows append_only_execute_likes
  append_only_store_follows append_only_store_likes
  append_only_Date_now append_only_random_suffix : append_only.

(** Walks a method body: the combinators preserve [append_only], the
    primitives have it. *)
Ltac append_only_walk :=
  repeat first
    [ solve [auto with append_only]
    | apply append_only_try
    | apply append_only_bind
    | progress cbv beta zeta
    | match goal with
      | |- forall _, _ => intro
      | |- append_only (match ?x with _ => _ end) => destruct x
      end ].

Lemma append_only_followUser {P} (a b : string) (cb : option P) :
  append_only (Store.followUser a b cb).
Proof.
  unfold Store.followUser, followUser, new_Date, first_record.
  append_only_walk.
Qed.

Lemma append_only_unfollowUser {P} (a b : string) (cb : option P) :
  append_only (Store.unfollowUser a b cb).
Proof.
  unfold Store.unfollowUser, unfollowUser, new_Date, first_record.
  append_only_walk.
Qed.

Lemma append_only_isFollowing (a b : string) :
  append_only (Store.isFollowing a b).
Proof.
  unfold Store.isFollowing, isFollowing, first_record.
  append_only_walk.
Qed.

Lemma append_only_likeTweet {P} (u t : string) (cb : option P) :
  append_only (Store.likeTweet u t cb).
Proof.
  unfold Store.likeTweet, likeTweet, new_Date.
  append_only_walk.
Qed.

Lemma is_active_false (r : Follow.t) :
  is_active r = false <-> Follow.status r <> "active".
Proof.
  rewrite <- is_active_iff. destruct (is_active r); split; congruence.
Qed.

Lemma str_eq_false (a b : string) : a <> b -> str_eq a b = false.
Proof. intros H. now apply String.eqb_neq. Qed.

Lemma fetched_nil (w : Store.World) (a b : string) :
  versions a b w = [] -> latest_version (fetched a b w) = None.
Proof. unfold fetched. now intros ->. Qed.

(** What the follow methods store, in terms of the versions their query
    hands back, when the calls complete and every version carries a
    timestamp; and, whatever the outcome of the calls, no method removes a
    record: the collections after a call extend the collections before
    it. *)
Lemma follow_versions_appended :
  (forall (w : Store.World) (a b : string) (m : Follow.t)
          (P : Type) (cb : option P),
      Store.faults w = [] ->
      Forall has_stamp (fetched a b w) ->
      Latest m (fetched a b w) ->
      Follow.status m = "active" ->
      exists w',
        Store.unfollowUser a b cb w = (Ok true, w') /\
        Store.follows w' =
          Store.follows w ++
          [Follow.mk (Follow.id m) a b "inactive" (Follow.created_at m)
                     (Some (Instant (reading 0 w)))]) /\
  (forall (w : Store.World) (a b : string) (m : Follow.t)
          (P : Type) (cb : option P),
      Store.faults w = [] ->
      a <> b ->
      Forall has_stamp (fetched a b w) ->
      Latest m (fetched a b w) ->
      Follow.status m <> "active" ->
      exists w',
        Store.followUser a b cb w = (Ok true, w') /\
        Store.follows w' =
          Store.follows w ++
          [Follow.mk (Follow.id m) a b "active" (Follow.created_at m)
                     (Some (Instant (reading 0 w)))]) /\
  (forall (w : Store.World) (a b : string) (P : Type) (cb : option P),
      Store.faults w = [] ->
      a <> b ->
      versions a b w = [] ->
      exists w',
        Store.followUser a b cb w = (Ok true, w') /\
        Store.follows w' =
          Store.follows w ++
          [Follow.mk ("follow_" ++ slice_last 8 a ++ "_" ++ slice_last 8 b
                      ++ "_" ++ show (reading 0 w))%string
                     a b "active"
                     (Some (Instant (reading 1 w)))
                     (Some (Instant (reading 2 w)))]) /\
  (forall (w : Store.World) (a b : string) (P : Type) (cb : option P),
      extends (Store.follows w)
              (Store.follows (snd (Store.followUser a b cb w))) /\
      extends (Store.follows w)
              (Store.follows (snd (Store.unfollowUser a b cb w))) /\
      extends (Store.follows w)
              (Store.follows (snd (Store.isFollowing a b w))) /\
      extends (Store.follows w)
              (Store.follows (snd (Store.likeTweet a b cb w)))).
Proof.
  repeat split.
  - intros w a b m P cb Hf Hst HL Hact.
    rewrite (unfollowUser_run w a b cb Hf), (Latest_latest_version _ _ Hst HL).
    apply is_active_iff in Hact. rewrite Hact.
    eexists. split; reflexivity.
  - intros w a b m P cb Hf Hab Hst HL Hact.
    rewrite (followUser_run w a b cb Hf (str_eq_false a b Hab)),
      (Latest_latest_version _ _ Hst HL).
    apply is_active_false in Hact. rewrite Hact.
    eexists. split; reflexivity.
  - intros w a b P cb Hf Hab Hnil.
    rewrite (followUser_run w a b cb Hf (str_eq_false a b Hab)),
      (fetched_nil w a b Hnil).
    eexists. split; reflexivity.
  - apply append_only_followUser.
  - apply append_only_unfollowUser.
  - apply append_only_isFollowing.
  - apply append_only_likeTweet.
Qed.

(** C2 does not hold of the code. In the store that a first follow and five
    unfollow / follow rounds leave, the latest version of the pair is
    active, so the claim has [unfollowUser] store a new inactive version
    with that version's id; [unfollowUser] returns false and stores nothing,
    because its query carries [limit(10)] and the latest of the first ten
    versions is inactive. *)
Lemma unfollowUser_misses_eleventh_version :
  (exists m,
      Latest m (versions "u1" "u2" after_six_follows) /\
      Follow.status m = "active") /\
  Store.unfollowUser "u1" "u2" no_callback after_six_follows
  = (Ok false, after_six_follows) /\
  Store.store_calls
    (snd (Store.unfollowUser "u1" "u2" no_callback after_six_follows))
  = Store.store_calls after_six_follows.
Proof.
  split; [|split; reflexivity].
  exists eleventh_version. apply eleventh_version_is_latest.
Qed.

Lemma followUser_self (w : Store.World) (a : string) {P} (cb : option P) :
  Store.followUser a a cb w = (Ok false, w).
Proof.
  unfold Store.followUser, followUser, try_catch, str_eq.
  now rewrite String.eqb_refl.
Qed.

(** The guards of the follow methods, in terms of the versions their query
    hands back: [followUser(a, a)] returns false and leaves the world as it
    is; when the calls complete, [followUser] does so when the latest
    returned version is active, and [unfollowUser] when the pair has no
    version or the latest returned version is not active. The world records
    the collections and the number of [store] calls. *)
Lemma follow_guards_store_nothing :
  (forall (w : Store.World) (a : string) (P : Type) (cb : option P),
      Store.followUser a a cb w = (Ok false, w)) /\
  (forall (w : Store.World) (a b : string) (m : Follow.t)
          (P : Type) (cb : option P),
      Store.faults w = [] ->
      Forall has_stamp (fetched a b w) ->
      Latest m (fetched a b w) ->
      Follow.status m = "active" ->
      Store.followUser a b cb w = (Ok false, w)) /\
  (forall (w : Store.World) (a b : string) (P : Type) (cb : option P),
      Store.faults w = [] ->
      versions a b w = [] ->
      Store.unfollowUser a b cb w = (Ok false, w)) /\
  (forall (w : Store.World) (a b : string) (m : Follow.t)
          (P : Type) (cb : option P),
      Store.faults w = [] ->
      Forall has_stamp (fetched a b w) ->
      Latest m (fetched a b w) ->
      Follow.status m <> "active" ->
      Store.unfollowUser a b cb w = (Ok false, w)).
Proof.
  repeat split.
  - intros. apply followUser_self.
  - intros w a b m P cb Hf Hst HL Hact.
    destruct (str_eq a b) eqn:Hab.
    + apply String.eqb_eq in Hab. subst b. apply followUser_self.
    + rewrite (followUser_run w a b cb Hf Hab),
        (Latest_latest_version _ _ Hst HL).
      apply is_active_iff in Hact. now rewrite Hact.
  - intros w a b P cb Hf Hnil.
    now rewrite (unfollowUser_run w a b cb Hf), (fetched_nil w a b Hnil).
  - intros w a b m P cb Hf Hst HL Hact.
    rewrite (unfollowUser_run w a b cb Hf), (Latest_latest_version _ _ Hst HL).
    apply is_active_false in Hact. now rewrite Hact.
Qed.

(** C9 does not hold of the code. In the store that a first follow and five
    unfollow / follow rounds leave, the latest version of the pair is
    active, so the claim has [followUser] return false without storing;
    [followUser] returns true and stores a twelfth version, again active,
    because its query carries [limit(10)] and the latest of the first ten
    versions is inactive. *)
Lemma followUser_stores_again_when_active :
  (exists m,
      Latest m (versions "u1" "u2" after_six_follows) /\
      Follow.status m = "active") /\
  fst (Store.followUser "u1" "u2" no_callback after_six_follows) = Ok true /\
  Store.store_calls
    (snd (Store.followUser "u1" "u2" no_callback after_six_follows))
  = S (Store.store_calls after_six_follows) /\
  map Follow.status
      (Store.follows
         (snd (Store.followUser "u1" "u2" no_callback after_six_follows)))
  = map Follow.status (Store.follows after_six_follows) ++ ["active"].
Proof.
  split; [exists eleventh_version; apply eleventh_version_is_latest|].
  split; [|split]; vm_compute; reflexivity.
Qed.

(** ** Likes *)

Lemma select_like_query (u t : string) (docs : list Like.t) :
  Store.select Store.like_field (like_query u t) docs =
  firstn 1 (filter (fun r => str_eq (Like.user r) u
                             && str_eq (Like.tweet_id r) t) docs).
Proof.
  unfold Store.select, like_query. cbn [predicates q_offset q_limit].
  change (Z.to_nat 1) with 1%nat. f_equal.
  apply filter_ext. intros r. cbn. now rewrite andb_true_r.
Qed.

Lemma has_records_first {R} (l : list R) :
  has_records (mkResult (Some (firstn 1 l))) =
  match l with [] => false | _ :: _ => true end.
Proof. now destruct l. Qed.

Lemma likes_of_exists (w : Store.World) (u t : string) :
  (exists r, In r (Store.likes w) /\ Like.user r = u /\ Like.tweet_id r = t)
  <-> likes_of u t w <> [].
Proof.
  unfold likes_of. split.
  - intros (r & Hin & Hu & Ht) Hnil.
    assert (Hr : In r (filter (fun r => str_eq (Like.user r) u
                                        && str_eq (Like.tweet_id r) t)
                              (Store.likes w))).
    { apply filter_In. split; [assumption|].
      unfold str_eq. rewrite Hu, Ht, !String.eqb_refl. reflexivity. }
    rewrite Hnil in Hr. destruct Hr.
  - intros Hne.
    destruct (filter _ (Store.likes w)) as [|r rest] eqn:E; [congruence|].
    assert (Hr : In r (r :: rest)) by now left.
    rewrite <- E in Hr. apply filter_In in Hr as [Hin Hb].
    apply andb_true_iff in Hb as [Hu Ht].
    exists r. repeat split; [assumption | |]; now apply String.eqb_eq.
Qed.

Lemma likeTweet_run (w : Store.World) (u t : string) {P} (cb : option P) :
  Store.faults w = [] ->
  Store.likeTweet u t cb w =
  match likes_of u t w with
  | [] => (Ok true, stored_like (new_like u t w) w)
  | _ :: _ => (Ok false, w)
  end.
Proof.
  intros Hf.
  unfold Store.likeTweet, likeTweet, try_catch, bind.
  unfold Store.execute_likes at 1. unfold Store.remote at 1.
  rewrite Hf. cbn [collection like_query str_eq String.eqb Ascii.eqb Bool.eqb].
  rewrite select_like_query, has_records_first. fold (likes_of u t w).
  destruct (likes_of u t w) as [|r rest]; [|reflexivity].
  unfold new_Date, bind, ret, Store.Date_now, Store.random_suffix,
    Store.store_likes, Store.remote. cbn. rewrite Hf. reflexivity.
Qed.

Lemma likeTweet_keeps_existing (w : Store.World) (u t : string) {P}
    (cb : option P) :
  likes_of u t w <> [] ->
  Store.likes (snd (Store.likeTweet u t cb w)) = Store.likes w.
Proof.
  intros Hne.
  unfold Store.likeTweet, likeTweet, try_catch, bind.
  unfold Store.execute_likes at 1. unfold Store.remote at 1.
  destruct (Store.faults w) as [|[|] rest];
    cbn [collection like_query str_eq String.eqb Ascii.eqb Bool.eqb];
    try reflexivity;
    rewrite select_like_query, has_records_first;
    cbn [Store.likes Store.with_faults];
    fold (likes_of u t w); destruct (likes_of u t w); congruence || reflexivity.
Qed.

(** The two remote calls of [likeTweet], for every schedule of faults. *)
Lemma execute_likes_run (w : Store.World) (u t : string) :
  Store.execute_likes (like_query u t) w =
  match Store.faults w with
  | true :: rest => (Throw, Store.with_faults rest w)
  | false :: rest =>
      (Ok (mkResult (Some (firstn 1 (likes_of u t w)))),
       Store.with_faults rest w)
  | [] => (Ok (mkResult (Some (firstn 1 (likes_of u t w)))), w)
  end.
Proof.
  unfold Store.execute_likes, Store.remote.
  destruct (Store.faults w) as [|[|] rest];
    cbn [collection like_query str_eq String.eqb Ascii.eqb Bool.eqb];
    try rewrite select_like_query; reflexivity.
Qed.

Lemma store_likes_run {P} (r : Like.t) (cb : option P) (w : Store.World) :
  Store.store_likes (StoreRequest.mk "likes" [r]) cb w =
  let w1 := Store.with_store_calls (S (Store.store_calls w)) w in
  match Store.faults w with
  | true :: rest => (Throw, Store.with_faults rest w1)
  | false :: rest =>
      (Ok tt, Store.with_likes (Store.likes w ++ [r]) (Store.with_faults rest w1))
  | [] => (Ok tt, Store.with_likes (Store.likes w ++ [r]) w1)
  end.
Proof.
  unfold Store.store_likes, Store.remote.
  cbn [Store.faults Store.with_store_calls].
  destruct (Store.faults w) as [|[|] rest]; reflexivity.
Qed.

(** What one [likeTweet] call does, for every schedule of faults. *)
Lemma likeTweet_outcome (w : Store.World) (u t : string) {P} (cb : option P) :
  let w' := snd (Store.likeTweet u t cb w) in
  Store.follows w' = Store.follows w /\
  match likes_of u t w with
  | _ :: _ =>
      fst (Store.likeTweet u t cb w) = Ok false /\
      Store.likes w' = Store.likes w /\
      Store.store_calls w' = Store.store_calls w
  | [] =>
      if calls_complete 2 w
      then fst (Store.likeTweet u t cb w) = Ok true /\
           Store.likes w' = Store.likes w ++ [new_like u t w] /\
           Store.store_calls w' = S (Store.store_calls w)
      else fst (Store.likeTweet u t cb w) = Ok false /\
           Store.likes w' = Store.likes w
  end.
Proof.
  cbv zeta. unfold calls_complete.
  unfold Store.likeTweet, likeTweet, new_Date, try_catch, bind, ret.
  rewrite execute_likes_run.
  destruct (Store.faults w) as [|[|] rest] eqn:Ef.
  - rewrite has_records_first.
    destruct (likes_of u t w) as [|r0 rs]; [|now repeat split].
    unfold Store.Date_now, Store.random_suffix. rewrite store_likes_run.
    cbn [Store.faults Store.with_clock_reads Store.with_draws]. rewrite Ef.
    repeat split.
  - destruct (likes_of u t w) as [|r0 rs]; now repeat split.
  - rewrite has_records_first.
    destruct (likes_of u t w) as [|r0 rs]; [|now repeat split].
    unfold Store.Date_now, Store.random_suffix. rewrite store_likes_run.
    cbn [Store.faults Store.with_clock_reads Store.with_draws
         Store.with_faults].
    destruct rest as [|[|] rest']; now repeat split.
Qed.

(** C10 (as amended). [likeTweet] keeps likes unique per (user, tweet)
    pair. If a like of the pair is stored, it returns false, makes no call
    to [store] and leaves the collections as they are, whatever the outcome
    of its lookup. Otherwise, when its lookup and its [store] call complete,
    it makes one [store] call that appends exactly one like with that user,
    that tweet and reaction_type "like", and returns true; and when one of
    the two fails it returns false and no like is stored. *)
Theorem likeTweet_unique_per_pair :
  (forall (w : Store.World) (u t : string) (P : Type) (cb : option P),
      (exists r, In r (Store.likes w) /\ Like.user r = u /\ Like.tweet_id r = t) ->
      fst (Store.likeTweet u t cb w) = Ok false /\
      Store.likes (snd (Store.likeTweet u t cb w)) = Store.likes w /\
      Store.store_calls (snd (Store.likeTweet u t cb w)) = Store.store_calls w /\
      Store.follows (snd (Store.likeTweet u t cb w)) = Store.follows w) /\
  (forall (w : Store.World) (u t : string) (P : Type) (cb : option P),
      ~ (exists r, In r (Store.likes w) /\ Like.user r = u /\ Like.tweet_id r = t) ->
      calls_complete 2 w = true ->
      exists r,
        fst (Store.likeTweet u t cb w) = Ok true /\
        Store.likes (snd (Store.likeTweet u t cb w)) = Store.likes w ++ [r] /\
        Like.user r = u /\ Like.tweet_id r = t /\
        Like.reaction_type r = "like" /\
        Store.store_calls (snd (Store.likeTweet u t cb w))
        = S (Store.store_calls w) /\
        Store.follows (snd (Store.likeTweet u t cb w)) = Store.follows w) /\
  (forall (w : Store.World) (u t : string) (P : Type) (cb : option P),
      ~ (exists r, In r (Store.likes w) /\ Like.user r = u /\ Like.tweet_id r = t) ->
      calls_complete 2 w = false ->
      fst (Store.likeTweet u t cb w) = Ok false /\
      Store.likes (snd (Store.likeTweet u t cb w)) = Store.likes w /\
      Store.follows (snd (Store.likeTweet u t cb w)) = Store.follows w).
Proof.
  split; [|split].
  - intros w u t P cb Hex. apply likes_of_exists in Hex.
    destruct (likeTweet_outcome w u t cb) as (Hf & H).
    destruct (likes_of u t w); [congruence|].
    destruct H as (Hr & Hl & Hs). auto.
  - intros w u t P cb Hno Hc. rewrite likes_of_exists in Hno.
    destruct (likeTweet_outcome w u t cb) as (Hf & H).
    destruct (likes_of u t w) as [|r0 rs];
      [|exfalso; apply Hno; discriminate].
    rewrite Hc in H. destruct H as (Hr & Hl & Hs).
    exists (new_like u t w). repeat split; auto.
  - intros w u t P cb Hno Hc. rewrite likes_of_exists in Hno.
    destruct (likeTweet_outcome w u t cb) as (Hf & H).
    destruct (likes_of u t w) as [|r0 rs];
      [|exfalso; apply Hno; discriminate].
    rewrite Hc in H. destruct H as (Hr & Hl). auto.
Qed.

Lemma likeTweet_unique_per_pair_witness :
  (fst (Store.likeTweet "u1" "t1" no_callback (world_of [] [like_u1_t1]))
   = Ok false /\
   Store.likes
     (snd (Store.likeTweet "u1" "t1" no_callback (world_of [] [like_u1_t1])))
   = [like_u1_t1]) /\
  (exists r,
      fst (Store.likeTweet "u1" "t1" no_callback (world_of [] [])) = Ok true /\
      Store.likes (snd (Store.likeTweet "u1" "t1" no_callback (world_of [] [])))
      = [r]) /\
  fst (Store.likeTweet "u1" "t1" no_callback (world_failing_second [] []))
  = Ok false.
Proof.
  destruct likeTweet_unique_per_pair as (Hdup & Hnew & Hfail).
  split; [|split].
  - destruct (Hdup (world_of [] [like_u1_t1]) "u1" "t1" unit no_callback)
      as (Hr & Hl & _).
    + exists like_u1_t1. split; [now left | split; reflexivity].
    + split; [exact Hr | exact Hl].
  - destruct (Hnew (world_of [] []) "u1" "t1" unit no_callback)
      as (r & Hr & Hl & _).
    + intros (r & [] & _).
    + reflexivity.
    + exists r. split; [exact Hr | exact Hl].
  - destruct (Hfail (world_failing_second [] []) "u1" "t1" unit no_callback)
      as (Hr & _).
    + intros (r & [] & _).
    + reflexivity.
    + exact Hr.
Defined.

(** C10 (as stated) fails: no like of the pair is stored and the lookup
    completes, but the [store] call fails; [likeTweet] returns false and no
    like is stored, where the claim has it store one and return true. *)
Lemma likeTweet_returns_false_when_store_fails :
  Store.likes (world_failing_second [] []) = [] /\
  fst (Store.likeTweet "u1" "t1" no_callback (world_failing_second [] []))
  = Ok false /\
  Store.likes
    (snd (Store.likeTweet "u1" "t1" no_callback (world_failing_second [] [])))
  = [] /\
  Store.store_calls
    (snd (Store.likeTweet "u1" "t1" no_callback (world_failing_second [] [])))
  = 1%nat.
Proof. split; [|split; [|split]]; reflexivity. Qed.

(** ** Shaping the timeline *)

Section Timeline.

Variable W : Type.
Variable config : SocialServiceConfig.
Variable execute_tweets : Query -> M W (QueryResult Tweet.t).

Lemma getPublicTimeline_run (limit offset : option Z)
    (recs : list Tweet.t) (w w' : W) :
  execute_tweets (timeline_query (param limit 20) (param offset 0)) w
  = (Ok (mkResult (Some recs)), w') ->
  getPublicTimeline W config execute_tweets limit offset w
  = (Ok (map (shape_timeline_record config) recs), w').
Proof.
  intros Hq. unfold getPublicTimeline, try_catch, bind. cbv zeta.
  rewrite Hq. reflexivity.
Qed.

Lemma or_default_joined {A} (alias : option (list A)) :
  or_default alias [] = joined alias.
Proof. now destruct alias. Qed.

Lemma attach_counts (v : View.t) (a : option User.t) (q : option Tweet.t) :
  let v' := attach set_quote_tweet q (attach set_author_info a v) in
  View.like_count v' = View.like_count v /\
  View.retweet_count v' = View.retweet_count v /\
  View.reply_count v' = View.reply_count v /\
  View.quote_count v' = View.quote_count v /\
  View.user_liked v' = View.user_liked v /\
  View.content v' = View.content v.
Proof. destruct a, q; repeat split. Qed.

Lemma shape_counts (record : Tweet.t) :
  let view := shape_timeline_record config record in
  View.like_count view = len (joined (Tweet.likes record)) /\
  View.retweet_count view = len (joined (Tweet.retweets record)) /\
  View.reply_count view = len (joined (Tweet.replies record)) /\
  View.quote_count view = len (joined (Tweet.quotes record)).
Proof.
  unfold shape_timeline_record. cbv zeta.
  destruct (attach_counts
              (set_counts (len (or_default (Tweet.likes record) []))
                          (len (or_default (Tweet.retweets record) []))
                          (len (or_default (Tweet.replies record) []))
                          (len (or_default (Tweet.quotes record) []))
                          (mapTweetData record
                             match caller config with
                             | Some address =>
                                 some_liked_by address
                                   (or_default (Tweet.likes record) [])
                             | None => false
                             end false))
              (Tweet.author_info record) (Tweet.quote_tweet record))
    as (-> & -> & -> & -> & _).
  rewrite !or_default_joined. repeat split.
Qed.

Lemma caller_configured (address : string) :
  caller config = Some address <->
  currentUserAddress config = Some address /\ address <> "".
Proof.
  unfold caller, truthy, truthy_string.
  destruct (currentUserAddress config) as [a|].
  - destruct (String.eqb_spec a ""); simpl; split.
    + discriminate.
    + intros [E Hne]. inversion E; subst. contradiction.
    + intros E. inversion E; subst. now split.
    + intros [E _]. exact E.
  - split; [discriminate | intros [E _]; discriminate].
Qed.

Lemma some_liked_by_iff (address : string) (likes : list Reaction.t) :
  some_liked_by address likes = true <->
  exists like, In like likes /\ Reaction.user like = Some address.
Proof.
  unfold some_liked_by. rewrite existsb_exists.
  split; intros (like & Hin & Hu); exists like; split; try assumption.
  - unfold opt_str_eq in Hu. destruct (Reaction.user like) as [a|];
      [|discriminate].
    apply String.eqb_eq in Hu. now subst.
  - rewrite Hu. apply String.eqb_refl.
Qed.

Lemma shape_user_liked (record : Tweet.t) :
  View.user_liked (shape_timeline_record config record) =
  match caller config with
  | Some address => some_liked_by address (joined (Tweet.likes record))
  | None => false
  end.
Proof.
  unfold shape_timeline_record. cbv zeta.
  match goal with
  | |- View.user_liked (attach _ ?q (attach _ ?a ?v)) = _ =>
      destruct (attach_counts v a q) as (_ & _ & _ & _ & -> & _)
  end.
  now rewrite or_default_joined.
Qed.

End Timeline.

(** C3. For the documents the timeline query returns, [getPublicTimeline]
    returns one view object per document, in order, whose [like_count],
    [retweet_count], [reply_count] and [quote_count] are the lengths of the
    joined [likes], [retweets], [replies] and [quotes] sequences (empty when
    the alias is absent), whatever counter the document stores. *)
Theorem getPublicTimeline_counts_from_joins
    (W : Type) (config : SocialServiceConfig)
    (execute_tweets : Query -> M W (QueryResult Tweet.t))
    (limit offset : option Z) (recs : list Tweet.t) (w w' : W) :
  execute_tweets (timeline_query (param limit 20) (param offset 0)) w
  = (Ok (mkResult (Some recs)), w') ->
  exists views,
    getPublicTimeline W config execute_tweets limit offset w = (Ok views, w') /\
    Forall2 (fun record view =>
               View.like_count view = len (joined (Tweet.likes record)) /\
               View.retweet_count view = len (joined (Tweet.retweets record)) /\
               View.reply_count view = len (joined (Tweet.replies record)) /\
               View.quote_count view = len (joined (Tweet.quotes record)))
            recs views.
Proof.
  intros Hq. eexists. split.
  - exact (getPublicTimeline_run W config execute_tweets limit offset
             recs w w' Hq).
  - clear Hq. induction recs as [|record rest IH]; simpl; constructor.
    + apply shape_counts.
    + exact IH.
Qed.

Lemma getPublicTimeline_counts_from_joins_witness :
  exists views,
    getPublicTimeline unit (config_of (Some "u1")) (answering [tweet_t1])
                      None None tt = (Ok views, tt) /\
    Forall2 (fun record view =>
               View.like_count view = len (joined (Tweet.likes record)) /\
               View.retweet_count view = len (joined (Tweet.retweets record)) /\
               View.reply_count view = len (joined (Tweet.replies record)) /\
               View.quote_count view = len (joined (Tweet.quotes record)))
            [tweet_t1] views.
Proof.
  apply (getPublicTimeline_counts_from_joins unit (config_of (Some "u1"))
           (answering [tweet_t1]) None None [tweet_t1] tt tt).
  reflexivity.
Defined.

(** C4. For the documents the timeline query returns, the [user_liked] flag
    of each view object is true exactly when a caller identity is configured
    (present and not empty) and the joined [likes] sequence has an entry
    whose [user] is that identity; with no caller identity the flag is
    false. With likes of "u1" and "u2" joined, the flag is true for caller
    "u1" and false for caller "u3". *)
Theorem getPublicTimeline_user_liked
    (W : Type) (config : SocialServiceConfig)
    (execute_tweets : Query -> M W (QueryResult Tweet.t))
    (limit offset : option Z) (recs : list Tweet.t) (w w' : W) :
  execute_tweets (timeline_query (param limit 20) (param offset 0)) w
  = (Ok (mkResult (Some recs)), w') ->
  (exists views,
      getPublicTimeline W config execute_tweets limit offset w
      = (Ok views, w') /\
      Forall2 (fun record view =>
                 (View.user_liked view = true <->
                  exists address,
                    currentUserAddress config = Some address /\
                    address <> "" /\
                    exists like,
                      In like (joined (Tweet.likes record)) /\
                      Reaction.user like = Some address) /\
                 (currentUserAddress config = None ->
                  View.user_liked view = false))
              recs views) /\
  (forall (record : Tweet.t) (c1 c2 : option string),
      Tweet.likes record
      = Some [Reaction.mk (Some "u1") c1; Reaction.mk (Some "u2") c2] ->
      View.user_liked (shape_timeline_record (config_of (Some "u1")) record)
      = true /\
      View.user_liked (shape_timeline_record (config_of (Some "u3")) record)
      = false).
Proof.
  intros Hq. split.
  - eexists. split.
    + exact (getPublicTimeline_run W config execute_tweets limit offset
               recs w w' Hq).
    + clear Hq. induction recs as [|record rest IH]; simpl; constructor;
        [|exact IH].
      rewrite shape_user_liked. split.
      * split.
        -- destruct (caller config) as [address|] eqn:E; [|discriminate].
           intros Hl. exists address.
           apply caller_configured in E as [E Hne].
           repeat split; try assumption. now apply some_liked_by_iff.
        -- intros (address & E & Hne & Hl).
           assert (Hc : caller config = Some address)
             by (apply caller_configured; now split).
           rewrite Hc. now apply some_liked_by_iff.
      * intros Hnone. unfold caller. now rewrite Hnone.
  - intros record c1 c2 Hl. rewrite !shape_user_liked, Hl. split; reflexivity.
Qed.

Lemma getPublicTimeline_user_liked_witness :
  (exists views,
      getPublicTimeline unit (config_of (Some "u1")) (answering [tweet_t1])
                        None None tt = (Ok views, tt) /\
      Forall2 (fun record view =>
                 (View.user_liked view = true <->
                  exists address,
                    currentUserAddress (config_of (Some "u1")) = Some address /\
                    address <> "" /\
                    exists like,
                      In like (joined (Tweet.likes record)) /\
                      Reaction.user like = Some address) /\
                 (currentUserAddress (config_of (Some "u1")) = None ->
                  View.user_liked view = false))
              [tweet_t1] views) /\
  (forall (record : Tweet.t) (c1 c2 : option string),
      Tweet.likes record
      = Some [Reaction.mk (Some "u1") c1; Reaction.mk (Some "u2") c2] ->
      View.user_liked (shape_timeline_record (config_of (Some "u1")) record)
      = true /\
      View.user_liked (shape_timeline_record (config_of (Some "u3")) record)
      = false).
Proof.
  apply (getPublicTimeline_user_liked unit (config_of (Some "u1"))
           (answering [tweet_t1]) None None [tweet_t1] tt tt).
  reflexivity.
Defined.

(** ** Latest version and the order of the candidates *)

Lemma NoDup_map_In_eq {A B} (f : A -> B) (l : list A) (x y : A) :
  NoDup (map f l) -> In x l -> In y l -> f x = f y -> x = y.
Proof.
  induction l as [|z l IH]; simpl; intros Hnd Hx Hy Hf; [contradiction|].
  inversion Hnd as [|? ? Hnot Hnd']; subst.
  destruct Hx as [->|Hx], Hy as [->|Hy]; auto.
  - exfalso. apply Hnot. rewrite Hf. now apply in_map.
  - exfalso. apply Hnot. rewrite <- Hf. now apply in_map.
Qed.

(** The latest version is at least as recent as every candidate. *)
Lemma Latest_maximal (l : list Follow.t) (m r : Follow.t) :
  Latest m l -> In r l ->
  exists tr tm, stamp r = Some tr /\ stamp m = Some tm /\ tr <= tm.
Proof.
  intros (b & a & tm & -> & Em & Hb & Ha) Hin.
  rewrite Forall_forall in Hb, Ha.
  apply in_app_or in Hin as [Hin|[<-|Hin]].
  - destruct (Hb r Hin) as (t & Et & Hlt). exists t, tm. repeat split; auto. lia.
  - exists tm, tm. repeat split; auto. lia.
  - destruct (Ha r Hin) as (t & Et & Hle). exists t, tm. repeat split; auto.
Qed.

Lemma Latest_In (l : list Follow.t) (m : Follow.t) : Latest m l -> In m l.
Proof.
  intros (b & a & _ & -> & _). apply in_or_app. right. now left.
Qed.

Lemma updated_at_stamp (r : Follow.t) :
  Follow.updated_at r <> None -> has_stamp r.
Proof.
  unfold has_stamp, stamp. destruct (Follow.updated_at r); congruence.
Qed.

Lemma stamp_updated_at (r r' : Follow.t) :
  Follow.updated_at r <> None -> Follow.updated_at r' <> None ->
  stamp r = stamp r' -> Follow.updated_at r = Follow.updated_at r'.
Proof.
  unfold stamp.
  destruct (Follow.updated_at r) as [[t]|], (Follow.updated_at r') as [[t']|];
    simpl; congruence.
Qed.

Lemma latest_version_permutation (l l' : list Follow.t) :
  Forall (fun r => Follow.updated_at r <> None) l ->
  NoDup (map Follow.updated_at l) ->
  Permutation l l' ->
  latest_version l = latest_version l'.
Proof.
  intros Hup Hnd Hperm.
  assert (Hup' : Forall (fun r => Follow.updated_at r <> None) l')
    by (eapply Permutation_Forall; eauto).
  assert (Hst : Forall has_stamp l)
    by (eapply Forall_impl; [apply updated_at_stamp | exact Hup]).
  assert (Hst' : Forall has_stamp l')
    by (eapply Forall_impl; [apply updated_at_stamp | exact Hup']).
  destruct l as [|r0 rest].
  - apply Permutation_nil in Hperm. now subst.
  - destruct (latest_version_some (r0 :: rest)) as [m Em]; [discriminate|].
    destruct (latest_version_some l') as [m' Em'].
    { intros ->. apply Permutation_sym, Permutation_nil in Hperm.
      discriminate. }
    rewrite Em, Em'. f_equal.
    pose proof (latest_version_Latest _ _ Hst Em) as HL.
    pose proof (latest_version_Latest _ _ Hst' Em') as HL'.
    pose proof (Latest_In _ _ HL) as Hin.
    pose proof (Latest_In _ _ HL') as Hin'.
    assert (Hin2 : In m' (r0 :: rest))
      by (eapply Permutation_in; [apply Permutation_sym; exact Hperm | exact Hin']).
    assert (Hin3 : In m l') by (eapply Permutation_in; eauto).
    destruct (Latest_maximal _ _ _ HL Hin2) as (t1 & t2 & E1 & E2 & Hle).
    destruct (Latest_maximal _ _ _ HL' Hin3) as (t3 & t4 & E3 & E4 & Hle').
    rewrite E2 in E3. rewrite E1 in E4. inversion E3; inversion E4; subst.
    rewrite Forall_forall in Hup.
    apply (NoDup_map_In_eq Follow.updated_at (r0 :: rest)); auto.
    apply stamp_updated_at; auto. rewrite E1, E2. f_equal. lia.
Qed.

(** C5. For a non-empty list of candidates that all carry an [updated_at],
    pairwise distinct, the version selected as latest (sort descending,
    take the first) is the same for every permutation of the list; hence
    the answer of [isFollowing] does not depend on the order in which the
    store returns the candidates. *)
Theorem latest_selection_permutation_stable
    (l l' : list Follow.t) :
  l <> [] ->
  Forall (fun r => Follow.updated_at r <> None) l ->
  NoDup (map Follow.updated_at l) ->
  Permutation l l' ->
  (exists m,
      hd_error (sort by_latest l) = Some m /\
      hd_error (sort by_latest l') = Some m) /\
  (forall (W : Type)
          (execute execute' : Query -> M W (QueryResult Follow.t))
          (a b : string) (w w1 w' w1' : W),
      execute (follow_query a b) w = (Ok (mkResult (Some l)), w1) ->
      execute' (follow_query a b) w' = (Ok (mkResult (Some l')), w1') ->
      fst (isFollowing W execute a b w) = fst (isFollowing W execute' a b w')).
Proof.
  intros Hne Hup Hnd Hperm.
  pose proof (latest_version_permutation l l' Hup Hnd Hperm) as Heq.
  split.
  - destruct (latest_version_some l Hne) as [m Em].
    exists m. rewrite !hd_sort_by_latest, <- Heq. now split.
  - intros W execute execute' a b w w1 w' w1' Hq Hq'.
    rewrite (isFollowing_run W execute a b l w w1 Hq).
    rewrite (isFollowing_run W execute' a b l' w' w1' Hq').
    simpl. now rewrite Heq.
Qed.

Lemma latest_selection_permutation_stable_witness :
  (exists m,
      hd_error (sort by_latest [version "active" 1; version "inactive" 2])
      = Some m /\
      hd_error (sort by_latest [version "inactive" 2; version "active" 1])
      = Some m) /\
  (forall (W : Type)
          (execute execute' : Query -> M W (QueryResult Follow.t))
          (a b : string) (w w1 w' w1' : W),
      execute (follow_query a b) w
      = (Ok (mkResult (Some [version "active" 1; version "inactive" 2])), w1) ->
      execute' (follow_query a b) w'
      = (Ok (mkResult (Some [version "inactive" 2; version "active" 1])), w1') ->
      fst (isFollowing W execute a b w) = fst (isFollowing W execute' a b w')).
Proof.
  apply (latest_selection_permutation_stable
           [version "active" 1; version "inactive" 2]
           [version "inactive" 2; version "active" 1]).
  - discriminate.
  - repeat (apply Forall_cons; [discriminate|]). apply Forall_nil.
  - repeat (apply NoDup_cons; [simpl; intuition discriminate|]). apply NoDup_nil.
  - apply perm_swap.
Defined.

(** ** Records without content *)

Lemma truthy_has_content (c : option string) :
  truthy_opt c = true -> has_content c.
Proof.
  destruct c as [s|]; simpl; [|discriminate].
  unfold truthy, truthy_string. intros H. exists s. split; [reflexivity|].
  intros ->. discriminate.
Qed.

Lemma with_context_fields (record : Tweet.t) (liked : bool) :
  View.id (with_context record liked) = Tweet.id record /\
  View.content (with_context record liked) = Tweet.content record.
Proof.
  unfold with_context. cbv zeta.
  destruct (Tweet.author_info record), (Tweet.quote_tweet record); now split.
Qed.

Lemma shape_one_to_one (config : SocialServiceConfig) (record : Tweet.t) :
  View.author_info (shape_timeline_record config record)
  = Tweet.author_info record /\
  View.quote_tweet (shape_timeline_record config record)
  = Tweet.quote_tweet record.
Proof.
  unfold shape_timeline_record. cbv zeta.
  destruct (Tweet.author_info record), (Tweet.quote_tweet record); now split.
Qed.

Lemma with_context_one_to_one (record : Tweet.t) (liked : bool) :
  View.author_info (with_context record liked) = Tweet.author_info record /\
  View.quote_tweet (with_context record liked) = Tweet.quote_tweet record.
Proof.
  unfold with_context. cbv zeta.
  destruct (Tweet.author_info record), (Tweet.quote_tweet record); now split.
Qed.

Section Replies.

Variable W : Type.
Variable config : SocialServiceConfig.
Variable execute_likes : Query -> M W (QueryResult Like.t).

Lemma push_replies_content (rs : list Tweet.t) :
  forall (acc : list TweetWithContext) (w : W) r w',
    Forall contentful acc ->
    push_replies W config execute_likes rs acc w = (Ok r, w') ->
    Forall contentful r.
Proof.
  induction rs as [|record rest IH]; intros acc w r w' Hacc Hrun; simpl in Hrun.
  - inversion Hrun; now subst.
  - destruct (truthy_opt (Tweet.content record)) eqn:Hc; simpl in Hrun.
    + unfold bind in Hrun.
      destruct (liked_by_caller W config execute_likes (Tweet.id record) w)
        as [[liked|] w1]; [|discriminate].
      eapply IH; [|exact Hrun].
      apply Forall_app. split; [assumption|]. constructor; [|constructor].
      unfold contentful.
      rewrite (proj2 (with_context_fields record liked)).
      now apply truthy_has_content.
    + eapply IH; eauto.
Qed.

Hypothesis likes_complete :
  forall q w, exists res w', execute_likes q w = (Ok res, w').

Lemma liked_by_caller_complete (tweetId : string) (w : W) :
  exists liked w',
    liked_by_caller W config execute_likes tweetId w = (Ok liked, w').
Proof.
  unfold liked_by_caller. destruct (caller config) as [address|].
  - unfold bind.
    destruct (likes_complete (like_query address tweetId) w) as (res & w' & ->).
    now eexists _, _.
  - now eexists _, _.
Qed.

Lemma push_replies_complete (rs : list Tweet.t) :
  forall (acc : list TweetWithContext) (w : W),
  exists views w',
    push_replies W config execute_likes rs acc w = (Ok (acc ++ views), w') /\
    Forall2 (fun record view =>
               View.id view = Tweet.id record /\
               View.content view = Tweet.content record)
            (filter (fun r => truthy_opt (Tweet.content r)) rs) views.
Proof.
  induction rs as [|record rest IH]; intros acc w; simpl.
  - exists [], w. rewrite app_nil_r. split; [reflexivity | constructor].
  - destruct (truthy_opt (Tweet.content record)) eqn:Hc; simpl.
    + unfold bind.
      destruct (liked_by_caller_complete (Tweet.id record) w)
        as (liked & w1 & ->).
      destruct (IH (acc ++ [with_context record liked]) w1)
        as (views & w' & -> & Hviews).
      exists (with_context record liked :: views), w'.
      rewrite <- app_assoc. split; [reflexivity|].
      constructor; [apply with_context_fields | exact Hviews].
    + apply IH.
Qed.

End Replies.

Lemma valid_tweets_content (arr : list (option Tweet.t)) (t : Tweet.t) :
  In t (valid_tweets arr) -> truthy_opt (Tweet.content t) = true.
Proof.
  unfold valid_tweets. rewrite in_flat_map. intros ([x|] & _ & Hin).
  - destruct (truthy_opt (Tweet.content x)) eqn:E; [|destruct Hin].
    destruct Hin as [<-|[]]. exact E.
  - destruct Hin.
Qed.

Lemma firstn_incl {A} (n : nat) (l : list A) (x : A) :
  In x (firstn n l) -> In x l.
Proof.
  intros H. rewrite <- (firstn_skipn n l). apply in_or_app. now left.
Qed.

Lemma slice0_incl {A} (n : Z) (l : list A) (x : A) :
  In x (slice0 n l) -> In x l.
Proof.
  unfold slice0. destruct (n <? 0); apply firstn_incl.
Qed.

Lemma slice0_firstn {A} (n : Z) (l : list A) :
  0 <= n -> slice0 n l = firstn (Z.to_nat n) l.
Proof.
  intros Hn. unfold slice0. destruct (Z.ltb_spec n 0); [lia | reflexivity].
Qed.

Section Content.

Variable W : Type.
Variable config : SocialServiceConfig.
Variable execute_tweets : Query -> M W (QueryResult Tweet.t).
Variable execute_likes : Query -> M W (QueryResult Like.t).
Variable execute_users : Query -> M W (QueryResult UserDoc.t).

Lemma getTweetWithReplies_content (tweetId : string) (w : W) :
  exists r w',
    getTweetWithReplies W config execute_tweets execute_likes tweetId w
    = (Ok r, w') /\
    Forall contentful (replies r).
Proof.
  unfold getTweetWithReplies, try_catch, bind.
  destruct (execute_tweets (thread_query tweetId) w) as [[result|] w1];
    [|eexists _, _; split; [reflexivity | constructor]].
  destruct (records result) as [[|t rest]|];
    try (eexists _, _; split; [reflexivity | constructor]).
  destruct (liked_by_caller W config execute_likes tweetId w1)
    as [[liked|] w2];
    [|eexists _, _; split; [reflexivity | constructor]].
  destruct (push_replies W config execute_likes
              (or_default (Tweet.replies t) []) [] w2) as [[rs|] w3] eqn:E;
    [|eexists _, _; split; [reflexivity | constructor]].
  eexists _, _. split; [reflexivity|]. simpl.
  eapply push_replies_content; [|exact E]. constructor.
Qed.

Lemma getReplies_content (tweetId : string) (limit : option Z) (w : W) :
  exists r w',
    getReplies W config execute_tweets execute_likes tweetId limit w
    = (Ok r, w') /\
    Forall contentful r.
Proof.
  unfold getReplies, try_catch, bind. cbv zeta.
  destruct (execute_tweets (replies_query tweetId (param limit 50)) w)
    as [[result|] w1];
    [|eexists _, _; split; [reflexivity | constructor]].
  destruct (records result) as [recs|];
    [|eexists _, _; split; [reflexivity | constructor]].
  destruct (push_replies W config execute_likes recs [] w1)
    as [[rs|] w2] eqn:E;
    [|eexists _, _; split; [reflexivity | constructor]].
  eexists _, _. split; [reflexivity|].
  eapply push_replies_content; [|exact E]. constructor.
Qed.

Lemma getUserWithTweets_content (address : string) (limit : option Z) (w : W) :
  exists r w',
    getUserWithTweets W execute_users address limit w = (Ok r, w') /\
    Forall contentful (tweets r).
Proof.
  unfold getUserWithTweets, try_catch, bind. cbv zeta.
  destruct (execute_users (profile_query address) w) as [[result|] w1];
    [|eexists _, _; split; [reflexivity | constructor]].
  destruct (records result) as [[|userRecord rest]|];
    try (eexists _, _; split; [reflexivity | constructor]).
  eexists _, _. split; [reflexivity|]. simpl.
  apply Forall_forall. intros v Hv.
  apply in_map_iff in Hv as (t & <- & Ht).
  apply slice0_incl, valid_tweets_content in Ht.
  now apply truthy_has_content.
Qed.

End Content.

(** C6 (as amended). Joined reply and tweet records without content are
    discarded: every element of the [replies] array that
    [getTweetWithReplies] and [getReplies] return, and every element of the
    [tweets] array that [getUserWithTweets] returns, has a non-empty
    [content], for every client and every world. A joined record without one
    is skipped rather than raising an error: when the like look-ups
    complete, the replies returned are, in order, the views of exactly the
    joined records that have a content. Joined quote records are not
    filtered: the [quote_tweet] of a record is attached to its view as it
    is, and the timeline counts every joined [quotes] entry. *)
Theorem replies_and_tweets_have_content
    (W : Type) (config : SocialServiceConfig)
    (execute_tweets : Query -> M W (QueryResult Tweet.t))
    (execute_likes : Query -> M W (QueryResult Like.t))
    (execute_users : Query -> M W (QueryResult UserDoc.t)) :
  (forall (tweetId : string) (w : W),
      exists r w',
        getTweetWithReplies W config execute_tweets execute_likes tweetId w
        = (Ok r, w') /\
        Forall (fun v => has_content (View.content v)) (replies r)) /\
  (forall (tweetId : string) (limit : option Z) (w : W),
      exists r w',
        getReplies W config execute_tweets execute_likes tweetId limit w
        = (Ok r, w') /\
        Forall (fun v => has_content (View.content v)) r) /\
  (forall (address : string) (limit : option Z) (w : W),
      exists r w',
        getUserWithTweets W execute_users address limit w = (Ok r, w') /\
        Forall (fun v => has_content (View.content v)) (tweets r)) /\
  ((forall q w, exists res w', execute_likes q w = (Ok res, w')) ->
   (forall (tweetId : string) (limit : option Z) (recs : list Tweet.t)
           (w w1 : W),
       execute_tweets (replies_query tweetId (param limit 50)) w
       = (Ok (mkResult (Some recs)), w1) ->
       exists views w',
         getReplies W config execute_tweets execute_likes tweetId limit w
         = (Ok views, w') /\
         Forall2 (fun record view =>
                    View.id view = Tweet.id record /\
                    View.content view = Tweet.content record)
                 (filter (fun r => truthy_opt (Tweet.content r)) recs)
                 views) /\
   (forall (tweetId : string) (t : Tweet.t) (rest : list Tweet.t) (w w1 : W),
       execute_tweets (thread_query tweetId) w
       = (Ok (mkResult (Some (t :: rest))), w1) ->
       exists r w',
         getTweetWithReplies W config execute_tweets execute_likes tweetId w
         = (Ok r, w') /\
         Forall2 (fun record view =>
                    View.id view = Tweet.id record /\
                    View.content view = Tweet.content record)
                 (filter (fun r => truthy_opt (Tweet.content r))
                         (joined (Tweet.replies t)))
                 (replies r))) /\
  (forall (record : Tweet.t) (liked : bool),
      View.quote_tweet (with_context record liked) = Tweet.quote_tweet record /\
      View.quote_tweet (shape_timeline_record config record)
      = Tweet.quote_tweet record /\
      View.quote_count (shape_timeline_record config record)
      = len (joined (Tweet.quotes record))).
Proof.
  split; [|split; [|split; [|split]]].
  - intros. apply getTweetWithReplies_content.
  - intros. apply getReplies_content.
  - intros. apply getUserWithTweets_content.
  - intros Hlikes. split.
    + intros tweetId limit recs w w1 Hq.
      unfold getReplies, try_catch, bind. cbv zeta. rewrite Hq. simpl.
      destruct (push_replies_complete W config execute_likes Hlikes recs [] w1)
        as (views & w' & -> & Hviews).
      now exists views, w'.
    + intros tweetId t rest w w1 Hq.
      unfold getTweetWithReplies, try_catch, bind. rewrite Hq. simpl.
      destruct (liked_by_caller_complete W config execute_likes Hlikes
                  tweetId w1) as (liked & w2 & ->).
      rewrite or_default_joined.
      destruct (push_replies_complete W config execute_likes Hlikes
                  (joined (Tweet.replies t)) [] w2)
        as (views & w' & -> & Hviews).
      now eexists _, _.
  - intros record liked. split; [|split].
    + apply with_context_one_to_one.
    + apply shape_one_to_one.
    + apply shape_counts.
Qed.

Lemma replies_and_tweets_have_content_witness :
  (exists views w',
      getReplies unit (config_of (Some "u1")) (answering sample_replies)
                 (answering []) "t1" None tt = (Ok views, w') /\
      Forall2 (fun record view =>
                 View.id view = Tweet.id record /\
                 View.content view = Tweet.content record)
              (filter (fun r => truthy_opt (Tweet.content r)) sample_replies)
              views) /\
  (exists r w',
      getTweetWithReplies unit (config_of (Some "u1")) (answering [thread_t1])
                          (answering []) "t1" tt = (Ok r, w') /\
      Forall2 (fun record view =>
                 View.id view = Tweet.id record /\
                 View.content view = Tweet.content record)
              (filter (fun r => truthy_opt (Tweet.content r))
                      (joined (Tweet.replies thread_t1)))
              (replies r)).
Proof.
  split.
  - destruct (replies_and_tweets_have_content unit (config_of (Some "u1"))
                (answering sample_replies) (answering []) (answering []))
      as (_ & _ & _ & Hskip & _).
    destruct Hskip as [Hreplies _].
    + intros q w. now exists (mkResult (Some [])), w.
    + apply (Hreplies "t1" None sample_replies tt tt). reflexivity.
  - destruct (replies_and_tweets_have_content unit (config_of (Some "u1"))
                (answering [thread_t1]) (answering []) (answering []))
      as (_ & _ & _ & Hskip & _).
    destruct Hskip as [_ Hthread].
    + intros q w. now exists (mkResult (Some [])), w.
    + apply (Hthread "t1" thread_t1 [] tt tt). reflexivity.
Defined.

(** C6 (as stated) fails for quote records: a reply that quotes a tweet whose
    joined document has no content is returned with that document attached,
    and the timeline counts a joined quote without content. *)
Lemma quote_without_content_is_kept :
  (exists r,
      getReplies unit (config_of None) (answering [reply_quoting])
                 (answering []) "t1" None tt = (Ok [r], tt) /\
      View.quote_tweet r = Some partial_quote /\
      Tweet.content partial_quote = None) /\
  Tweet.quotes tweet_quoted_once = Some [partial_quote] /\
  View.quote_count (shape_timeline_record (config_of None) tweet_quoted_once)
  = 1.
Proof.
  split; [|split; reflexivity].
  eexists. repeat split.
Qed.

(** ** Client-side truncation *)

Lemma valid_tweets_with_content (l : list (option Tweet.t)) :
  valid_tweets l = tweets_with_content l.
Proof.
  unfold valid_tweets.
  induction l as [|[t|] l IH]; simpl; [reflexivity | | exact IH].
  rewrite IH. unfold truthy_opt, truthy, truthy_string.
  destruct (Tweet.content t) as [c|]; [|reflexivity].
  now destruct (String.eqb c "").
Qed.

Lemma slice0_negative {A} (n : Z) (l : list A) :
  n < 0 -> slice0 n l = firstn (length l - Z.to_nat (- n)) l.
Proof.
  intros Hn. unfold slice0.
  destruct (Z.ltb_spec n 0) as [_|H]; [|lia].
  f_equal. lia.
Qed.

(** C7 (as amended). The joins of the profile query carry no limit;
    [getUserWithTweets] truncates on its side. With [n] the limit passed (50
    when none is): for [n >= 0] the tweets returned are the views of the
    first [n] of the joined [user_tweets] that have a content, hence at most
    [n]; for [n < 0] they are the views of those tweets without the last
    [-n]; the joined [followers] and [following] sequences are returned
    whole. *)
Theorem getUserWithTweets_truncates
    (W : Type) (execute_users : Query -> M W (QueryResult UserDoc.t))
    (address : string) (limit : option Z)
    (userRecord : UserDoc.t) (rest : list UserDoc.t) (w w' : W) :
  execute_users (profile_query address) w
  = (Ok (mkResult (Some (userRecord :: rest))), w') ->
  exists r,
    getUserWithTweets W execute_users address limit w = (Ok r, w') /\
    (0 <= limit_in_force limit ->
     tweets r =
       map (fun t => mapTweetData t false false)
           (firstn (Z.to_nat (limit_in_force limit))
                   (tweets_with_content
                      (joined (UserDoc.user_tweets userRecord)))) /\
     len (tweets r) <= limit_in_force limit) /\
    (limit_in_force limit < 0 ->
     tweets r =
       map (fun t => mapTweetData t false false)
           (firstn (length (tweets_with_content
                              (joined (UserDoc.user_tweets userRecord)))
                    - Z.to_nat (- limit_in_force limit))
                   (tweets_with_content
                      (joined (UserDoc.user_tweets userRecord))))) /\
    followers r = joined (UserDoc.followers userRecord) /\
    following r = joined (UserDoc.following userRecord).
Proof.
  intros Hq.
  unfold getUserWithTweets, try_catch, bind. cbv zeta. rewrite Hq.
  cbn [records]. eexists. split; [reflexivity|].
  cbn [tweets followers following].
  rewrite !or_default_joined, valid_tweets_with_content.
  assert (Hparam : param limit 50 = limit_in_force limit)
    by now destruct limit.
  rewrite Hparam. split; [|split; [|split; reflexivity]].
  - intros Hn. rewrite (slice0_firstn _ _ Hn). split; [reflexivity|].
    unfold len. rewrite length_map.
    pose proof (firstn_le_length
                  (Z.to_nat (limit_in_force limit))
                  (tweets_with_content
                     (joined (UserDoc.user_tweets userRecord)))).
    lia.
  - intros Hn. now rewrite (slice0_negative _ _ Hn).
Qed.

Lemma getUserWithTweets_truncates_witness :
  (exists r,
      getUserWithTweets unit (answering [user_a1]) "a1" (Some 1) tt
      = (Ok r, tt) /\
      map View.id (tweets r) = ["t1"] /\
      len (tweets r) <= 1) /\
  (exists r,
      getUserWithTweets unit (answering [user_a1]) "a1" None tt = (Ok r, tt) /\
      map View.id (tweets r) = ["t1"; "t3"]).
Proof.
  split.
  - destruct (getUserWithTweets_truncates unit (answering [user_a1]) "a1"
                (Some 1) user_a1 [] tt tt eq_refl)
      as (r & Hr & Hpos & _).
    exists r. split; [exact Hr|].
    destruct Hpos as [Ht Hlen]; [simpl; lia|].
    split; [rewrite Ht; reflexivity | exact Hlen].
  - destruct (getUserWithTweets_truncates unit (answering [user_a1]) "a1"
                None user_a1 [] tt tt eq_refl)
      as (r & Hr & Hpos & _).
    exists r. split; [exact Hr|].
    destruct Hpos as [Ht _]; [simpl; lia|].
    rewrite Ht. reflexivity.
Defined.

(** C7 (as stated) fails for a negative limit: with the limit -1 the
    profile of a user with two tweets that have a content comes with one
    tweet, which is more than -1. *)
Lemma getUserWithTweets_negative_limit :
  exists r,
    getUserWithTweets unit (answering [user_a1]) "a1" (Some (-1)) tt
    = (Ok r, tt) /\
    map View.id (tweets r) = ["t1"] /\
    ~ len (tweets r) <= -1.
Proof.
  eexists. split; [reflexivity|]. split; [reflexivity|].
  simpl. unfold len. simpl. lia.
Qed.

(** ** Errors are swallowed *)

Lemma try_catch_total {W A} (m : M W A) (d : A) (w : W) :
  exists v w', try_catch m (ret d) w = (Ok v, w').
Proof.
  unfold try_catch, ret. destruct (m w) as [[a|] w1]; now eexists _, _.
Qed.

Lemma try_catch_default {W A B} (q : M W B) (k : B -> M W A) (d : A)
    (w w' : W) :
  q w = (Throw, w') -> try_catch (bind q k) (ret d) w = (Ok d, w').
Proof.
  intros Hq. unfold try_catch, bind. now rewrite Hq.
Qed.

Lemma shape_without_alias (config : SocialServiceConfig) (record : Tweet.t) :
  (Tweet.likes record = None ->
   View.like_count (shape_timeline_record config record) = 0 /\
   View.user_liked (shape_timeline_record config record) = false) /\
  (Tweet.retweets record = None ->
   View.retweet_count (shape_timeline_record config record) = 0) /\
  (Tweet.replies record = None ->
   View.reply_count (shape_timeline_record config record) = 0) /\
  (Tweet.quotes record = None ->
   View.quote_count (shape_timeline_record config record) = 0) /\
  (Tweet.author_info record = None ->
   View.author_info (shape_timeline_record config record) = None) /\
  (Tweet.quote_tweet record = None ->
   View.quote_tweet (shape_timeline_record config record) = None).
Proof.
  destruct (shape_counts config record) as (Hl & Hrt & Hrp & Hq).
  destruct (shape_one_to_one config record) as (Ha & Hqt).
  rewrite Hl, Hrt, Hrp, Hq, Ha, Hqt, shape_user_liked.
  split.
  { intros ->. split; [reflexivity | now destruct (caller config)]. }
  repeat (split; [intros ->; reflexivity|]).
  intros ->. reflexivity.
Qed.

(** C8. The read methods never raise. For every client and every world
    each of them returns a value; when the query it runs throws, that value
    is its empty default (empty array, null, false, or the empty result
    object). A joined alias that is missing is read as the empty sequence
    or as null: the timeline view of a document without aliases has zero
    counts, [user_liked] false and no [author_info] / [quote_tweet]; a user
    document without aliases yields no tweets, followers or following. *)
Theorem reads_never_raise
    (W : Type) (config : SocialServiceConfig)
    (execute_tweets : Query -> M W (QueryResult Tweet.t))
    (execute_likes : Query -> M W (QueryResult Like.t))
    (execute_follows : Query -> M W (QueryResult Follow.t))
    (execute_users : Query -> M W (QueryResult UserDoc.t)) :
  (* every read returns *)
  ((forall limit offset w, exists v w',
       getPublicTimeline W config execute_tweets limit offset w = (Ok v, w')) /\
   (forall author limit w, exists v w',
       getTweetsByAuthor W execute_tweets author limit w = (Ok v, w')) /\
   (forall tweetId w, exists v w',
       getTweetWithReplies W config execute_tweets execute_likes tweetId w
       = (Ok v, w')) /\
   (forall tweetId w, exists v w',
       getTweet W execute_tweets tweetId w = (Ok v, w')) /\
   (forall tweetId limit w, exists v w',
       getReplies W config execute_tweets execute_likes tweetId limit w
       = (Ok v, w')) /\
   (forall address w, exists v w',
       getUser W execute_users address w = (Ok v, w')) /\
   (forall address limit w, exists v w',
       getUserWithTweets W execute_users address limit w = (Ok v, w')) /\
   (forall a b w, exists v w',
       isFollowing W execute_follows a b w = (Ok v, w'))) /\
  (* a throwing query gives the empty default *)
  ((forall limit offset w w',
       execute_tweets (timeline_query (param limit 20) (param offset 0)) w
       = (Throw, w') ->
       getPublicTimeline W config execute_tweets limit offset w = (Ok [], w')) /\
   (forall author limit w w',
       execute_tweets (author_query author (param limit 20)) w = (Throw, w') ->
       getTweetsByAuthor W execute_tweets author limit w = (Ok [], w')) /\
   (forall tweetId w w',
       execute_tweets (thread_query tweetId) w = (Throw, w') ->
       getTweetWithReplies W config execute_tweets execute_likes tweetId w
       = (Ok {| tweet := None; replies := []; total_replies := 0 |}, w')) /\
   (forall tweetId w w',
       execute_tweets (tweet_query tweetId) w = (Throw, w') ->
       getTweet W execute_tweets tweetId w = (Ok None, w')) /\
   (forall tweetId limit w w',
       execute_tweets (replies_query tweetId (param limit 50)) w
       = (Throw, w') ->
       getReplies W config execute_tweets execute_likes tweetId limit w
       = (Ok [], w')) /\
   (forall address w w',
       execute_users (user_query address) w = (Throw, w') ->
       getUser W execute_users address w = (Ok None, w')) /\
   (forall address limit w w',
       execute_users (profile_query address) w = (Throw, w') ->
       getUserWithTweets W execute_users address limit w
       = (Ok {| user := None; tweets := []; followers := [];
                following := [] |}, w')) /\
   (forall a b w w',
       execute_follows (follow_query a b) w = (Throw, w') ->
       isFollowing W execute_follows a b w = (Ok false, w'))) /\
  (* a missing alias is the empty sequence, or null *)
  ((forall record,
       (Tweet.likes record = None ->
        View.like_count (shape_timeline_record config record) = 0 /\
        View.user_liked (shape_timeline_record config record) = false) /\
       (Tweet.retweets record = None ->
        View.retweet_count (shape_timeline_record config record) = 0) /\
       (Tweet.replies record = None ->
        View.reply_count (shape_timeline_record config record) = 0) /\
       (Tweet.quotes record = None ->
        View.quote_count (shape_timeline_record config record) = 0) /\
       (Tweet.author_info record = None ->
        View.author_info (shape_timeline_record config record) = None) /\
       (Tweet.quote_tweet record = None ->
        View.quote_tweet (shape_timeline_record config record) = None)) /\
   (forall record liked,
       (Tweet.author_info record = None ->
        View.author_info (with_context record liked) = None) /\
       (Tweet.quote_tweet record = None ->
        View.quote_tweet (with_context record liked) = None)) /\
   (forall address limit userRecord rest w w',
       execute_users (profile_query address) w
       = (Ok (mkResult (Some (userRecord :: rest))), w') ->
       exists r,
         getUserWithTweets W execute_users address limit w = (Ok r, w') /\
         (UserDoc.user_tweets userRecord = None -> tweets r = []) /\
         (UserDoc.followers userRecord = None -> followers r = []) /\
         (UserDoc.following userRecord = None -> following r = []))).
Proof.
  split; [|split].
  - repeat split; intros; apply try_catch_total.
  - repeat split; intros;
      match goal with
      | H : _ = (Throw, _) |- _ => exact (try_catch_default _ _ _ _ _ H)
      end.
  - split; [|split].
    + apply shape_without_alias.
    + intros record liked.
      destruct (with_context_one_to_one record liked) as (-> & ->).
      now split.
    + intros address limit userRecord rest w w' Hq.
      unfold getUserWithTweets, try_catch, bind. cbv zeta.
      rewrite Hq. simpl. eexists. split; [reflexivity|]. simpl.
      split; [|split]; intros ->; try reflexivity.
      simpl. unfold slice0.
      destruct (param limit 50 <? 0); now rewrite firstn_nil.
Qed.

Lemma reads_never_raise_witness :
  (getPublicTimeline unit (config_of (Some "u1")) failing None None tt
   = (Ok [], tt) /\
   getTweetsByAuthor unit failing "a1" None tt = (Ok [], tt) /\
   getTweetWithReplies unit (config_of (Some "u1")) failing failing "t1" tt
   = (Ok {| tweet := None; replies := []; total_replies := 0 |}, tt) /\
   getTweet unit failing "t1" tt = (Ok None, tt) /\
   getReplies unit (config_of (Some "u1")) failing failing "t1" None tt
   = (Ok [], tt) /\
   getUser unit failing "a1" tt = (Ok None, tt) /\
   getUserWithTweets unit failing "a1" None tt
   = (Ok {| user := None; tweets := []; followers := []; following := [] |},
      tt) /\
   isFollowing unit failing "u1" "u2" tt = (Ok false, tt)) /\
  (View.like_count
     (shape_timeline_record (config_of (Some "u1"))
        (tweet_doc "t9" "a1" (Some "x") (Some 4) None None None)) = 0 /\
   View.user_liked
     (shape_timeline_record (config_of (Some "u1"))
        (tweet_doc "t9" "a1" (Some "x") (Some 4) None None None)) = false) /\
  (exists r,
      getUserWithTweets unit (answering [user_plain]) "a1" None tt
      = (Ok r, tt) /\
      (UserDoc.user_tweets user_plain = None -> tweets r = []) /\
      (UserDoc.followers user_plain = None -> followers r = []) /\
      (UserDoc.following user_plain = None -> following r = [])).
Proof.
  split; [|split].
  - destruct (reads_never_raise unit (config_of (Some "u1"))
                failing failing failing failing)
      as (_ & (H1 & H2 & H3 & H4 & H5 & H6 & H7 & H8) & _).
    split; [apply H1; reflexivity|].
    split; [apply H2; reflexivity|].
    split; [apply H3; reflexivity|].
    split; [apply H4; reflexivity|].
    split; [apply H5; reflexivity|].
    split; [apply H6; reflexivity|].
    split; [apply H7; reflexivity|].
    apply H8; reflexivity.
  - destruct (reads_never_raise unit (config_of (Some "u1"))
                failing failing failing failing) as (_ & _ & Halias & _).
    apply (Halias (tweet_doc "t9" "a1" (Some "x") (Some 4) None None None)).
    reflexivity.
  - destruct (reads_never_raise unit (config_of (Some "u1"))
                failing failing failing (answering [user_plain]))
      as (_ & _ & _ & _ & Hdoc).
    apply (Hdoc "a1" None user_plain [] tt tt); reflexivity.
Defined.

(* ================================================================== *)
(** * More properties of the service *)

(** ** Hashtags *)

Example hashtags_of_a_sentence :
  extract_hashtags "gm #rocq and ##proofs, #a_b1! # #Z9#q"
  = ["#rocq"; "#proofs"; "#a_b1"; "#Z9"; "#q"].
Proof. reflexivity. Qed.

Lemma emit_app (w : string) (found : list string) :
  emit w found = emit w [] ++ found.
Proof. unfold emit. now destruct (String.eqb w ""). Qed.

Lemma emit_In (w : string) (found : list string) (tag : string) :
  In tag (emit w found) -> (tag = String "#" w /\ w <> "") \/ In tag found.
Proof.
  unfold emit. destruct (String.eqb_spec w ""); [now right|].
  intros [<-|H]; [now left | now right].
Qed.

Lemma word_app (a b : string) :
  word (a ++ b)%string = word a && word b.
Proof.
  induction a as [|c a IH]; simpl; [reflexivity|].
  now rewrite IH, andb_assoc.
Qed.

Lemma string_app_assoc (a b c : string) :
  ((a ++ b) ++ c = a ++ (b ++ c))%string.
Proof. induction a as [|x a IH]; simpl; [reflexivity | now rewrite IH]. Qed.

Lemma string_app_nil_r (a : string) : (a ++ "")%string = a.
Proof. induction a as [|x a IH]; simpl; [reflexivity | now rewrite IH]. Qed.

Lemma is_hash_eq (c : ascii) : is_hash c = true -> c = "#"%char.
Proof. unfold is_hash. apply Ascii.eqb_eq. Qed.

Lemma hash_is_no_word_char (c : ascii) :
  is_word_char c = true -> is_hash c = false.
Proof.
  intros Hw. destruct (is_hash c) eqn:E; [|reflexivity].
  apply is_hash_eq in E. subst c. discriminate.
Qed.

(** Where a match comes from: the open attempt, closed by the end of the run
    of word characters that [s] starts with, or a later [#] of [s]. *)
Lemma scan_hashtags_origin (s : string) :
  forall (pending : option string) (tag : string),
    (forall w0, pending = Some w0 -> word w0 = true) ->
    In tag (scan_hashtags pending s) ->
    (exists w0 run after,
        pending = Some w0 /\ s = (run ++ after)%string /\
        tag = String "#" (w0 ++ run) /\ (w0 ++ run)%string <> "" /\
        word (w0 ++ run) = true /\ starts_with_word after = false) \/
    (exists before w after,
        s = (before ++ String "#" (w ++ after))%string /\
        tag = String "#" w /\ w <> "" /\
        word w = true /\ starts_with_word after = false).
Proof.
  induction s as [|c rest IH]; intros pending tag Hp Hin; simpl in Hin.
  - destruct pending as [w0|]; [|destruct Hin].
    apply emit_In in Hin as [[-> Hne]|[]].
    left. exists w0, ""%string, ""%string.
    rewrite (string_app_nil_r w0). repeat split; auto.
  - assert (Hlater :
      forall p',
        p' = (if is_hash c then Some ""%string else None) ->
        In tag (scan_hashtags p' rest) ->
        exists before w after,
          String c rest = (before ++ String "#" (w ++ after))%string /\
          tag = String "#" w /\ w <> "" /\
          word w = true /\ starts_with_word after = false).
    { intros p' -> Hin'.
      assert (Hp' : forall w0,
                 (if is_hash c then Some ""%string else None) = Some w0 ->
                 word w0 = true)
        by (intros w0 E; destruct (is_hash c); inversion E; reflexivity).
      destruct (IH _ tag Hp' Hin')
        as [(w0 & run & after & E & -> & -> & Hne & Hw & Ha)
           |(before & w & after & -> & -> & Hne & Hw & Ha)].
      - destruct (is_hash c) eqn:Eh; [|discriminate]. inversion E; subst w0.
        apply is_hash_eq in Eh. subst c.
        exists ""%string, run, after. repeat split; auto.
      - exists (String c before), w, after. repeat split; auto. }
    destruct pending as [w0|].
    + destruct (is_word_char c) eqn:Ec.
      * assert (Hp' : forall w1,
                   Some (w0 ++ String c "")%string = Some w1 ->
                   word w1 = true).
        { intros w1 E. inversion E; subst w1.
          rewrite word_app, (Hp w0 eq_refl). simpl. now rewrite Ec. }
        destruct (IH _ tag Hp' Hin)
          as [(w1 & run & after & E & -> & -> & Hne & Hw & Ha)
             |(before & w & after & -> & -> & Hne & Hw & Ha)].
        -- inversion E; subst w1. left.
           exists w0, (String c run), after.
           rewrite string_app_assoc in Hne, Hw |- *. simpl in Hne, Hw |- *.
           repeat split; auto.
        -- right. exists (String c before), w, after. repeat split; auto.
      * apply emit_In in Hin as [[-> Hne]|Hin].
        -- left. exists w0, ""%string, (String c rest).
           rewrite (string_app_nil_r w0). repeat split; auto.
        -- right. now apply (Hlater _ eq_refl).
    + right. now apply (Hlater _ eq_refl).
Qed.

(** X1. Every hashtag that [createTweet] extracts is a [#] followed by a
    non-empty run of word characters, taken from the content at a place
    where the run ends (a non-word character or the end follows). *)
Theorem extract_hashtags_are_tags (content tag : string) :
  In tag (extract_hashtags content) ->
  exists before w after,
    content = (before ++ String "#" (w ++ after))%string /\
    tag = String "#" w /\ w <> "" /\
    word w = true /\ starts_with_word after = false.
Proof.
  intros Hin.
  destruct (scan_hashtags_origin content None tag) as [H|H]; auto.
  - discriminate.
  - destruct H as (w0 & _ & _ & E & _). discriminate.
Qed.

Lemma extract_hashtags_are_tags_witness :
  exists before w after,
    "gm #rocq!" = (before ++ String "#" (w ++ after))%string /\
    "#rocq" = String "#" w /\ w <> "" /\
    word w = true /\ starts_with_word after = false.
Proof.
  apply (extract_hashtags_are_tags "gm #rocq!" "#rocq"). now left.
Defined.

Lemma scan_hashtags_separator (a b : string) (sep : ascii) :
  is_word_char sep = false -> is_hash sep = false ->
  forall pending,
    scan_hashtags pending (a ++ String sep b)
    = scan_hashtags pending a ++ scan_hashtags None b.
Proof.
  intros Hw Hh. induction a as [|c a IH]; intros pending; simpl.
  - rewrite Hw, Hh. destruct pending as [w|]; [apply emit_app | reflexivity].
  - destruct pending as [w|].
    + destruct (is_word_char c); [apply IH|].
      rewrite emit_app, IH, app_assoc. now rewrite <- emit_app.
    + apply IH.
Qed.

(** X2. A character that is neither a word character nor [#] separates the
    search: the hashtags of [a sep b] are those of [a] followed by those of
    [b]. *)
Theorem extract_hashtags_separator (a b : string) (sep : ascii) :
  is_word_char sep = false -> is_hash sep = false ->
  extract_hashtags (a ++ String sep b)
  = extract_hashtags a ++ extract_hashtags b.
Proof.
  intros Hw Hh. now apply scan_hashtags_separator.
Qed.

Lemma extract_hashtags_separator_witness :
  extract_hashtags ("#a #b" ++ String " " "c#d")
  = extract_hashtags "#a #b" ++ extract_hashtags "c#d".
Proof.
  apply (extract_hashtags_separator "#a #b" "c#d" " "); reflexivity.
Defined.

Lemma scan_hashtags_length (s : string) :
  forall pending,
    length (scan_hashtags pending s) =
    ((match pending with
      | Some w =>
          if String.eqb w ""
          then (if starts_with_word s then 1 else 0)
          else 1
      | None => 0
      end) + count_hash_starts s)%nat.
Proof.
  induction s as [|c rest IH]; intros pending.
  - simpl. destruct pending as [w|]; [|reflexivity].
    unfold emit. now destruct (String.eqb w "").
  - cbn [scan_hashtags count_hash_starts starts_with_word].
    destruct pending as [w|].
    + destruct (is_word_char c) eqn:Ec.
      * rewrite IH, (hash_is_no_word_char c Ec). simpl.
        assert (E : String.eqb (w ++ String c "") "" = false)
          by (apply String.eqb_neq; destruct w; discriminate).
        rewrite E. now destruct (String.eqb w "").
      * rewrite emit_app, length_app, IH. unfold emit.
        destruct (String.eqb w ""), (is_hash c); simpl;
          destruct (starts_with_word rest); simpl; lia.
    + rewrite IH. destruct (is_hash c); simpl;
        destruct (starts_with_word rest); simpl; lia.
Qed.

(** X3. [createTweet] extracts exactly one hashtag per [#] of the content
    that is directly followed by a word character; a content without such a
    place has none. *)
Theorem extract_hashtags_count (content : string) :
  length (extract_hashtags content) = count_hash_starts content.
Proof.
  unfold extract_hashtags. now rewrite scan_hashtags_length.
Qed.

(** ** Writing tweets *)

(** Runs a method body call by call. *)
Ltac run_calls :=
  repeat match goal with
         | |- context [match ?m ?w with pair _ _ => _ end] =>
             destruct (m w) as [[?|] ?] eqn:?
         end.

(** X4. [createTweet] never raises. A tweet it returns has the requested
    author, content and reply target, the hashtags found in the content, no
    mentions, all four counters at zero, and is neither liked nor retweeted
    by the caller; a [quote_tweet_id] of the request is not taken over. *)
Theorem createTweet_result (W P : Type)
    (store_tweets : StoreRequest.t Tweet.t -> option P -> M W unit)
    (Date_now : M W Z) (random_suffix : M W string) (toISOString : Z -> string)
    (request : CreateTweetRequest.t) (author : string) (cb : option P) (w : W) :
  match fst (createTweet W P store_tweets Date_now random_suffix toISOString
                         request author cb w) with
  | Ok (Some v) =>
      View.author v = author /\
      View.content v = Some (CreateTweetRequest.content request) /\
      View.hashtags v = extract_hashtags (CreateTweetRequest.content request) /\
      View.mentions v = [] /\
      View.reply_to_id v = CreateTweetRequest.reply_to_id request /\
      View.media_urls v = CreateTweetRequest.media_urls request /\
      View.quote_tweet_id v = None /\
      View.retweet_of_id v = None /\
      View.like_count v = 0 /\ View.retweet_count v = 0 /\
      View.reply_count v = 0 /\ View.quote_count v = 0 /\
      View.is_deleted v = false /\
      View.user_liked v = false /\ View.user_retweeted v = false
  | Ok None => True
  | Throw => False
  end.
Proof.
  unfold createTweet, try_catch, bind, now_iso, ret. run_calls; simpl; auto.
  repeat split.
Qed.

Example createTweet_stored :
  exists v,
    fst (createTweet unit unit accepting (fixed_clock 1700) (fixed_suffix "k3j9x2m1q")
                     show (request_of "gm #rocq") "a1" None tt) = Ok (Some v) /\
    View.id v = "tweet_1700_k3j9x2m1q" /\
    View.hashtags v = ["#rocq"] /\
    View.visibility v = "public".
Proof. eexists. repeat split. Qed.

Example createTweet_store_fails :
  fst (createTweet unit unit rejecting (fixed_clock 1700) (fixed_suffix "k3j9x2m1q")
                   show (request_of "gm #rocq") "a1" None tt) = Ok None.
Proof. reflexivity. Qed.

(** X5. [createQuoteTweet] never raises. A tweet it returns links to the
    quoted tweet given as argument (not to a [quote_tweet_id] of the
    request) and has no hashtags, whatever its content. *)
Theorem createQuoteTweet_result (W P : Type)
    (store_tweets : StoreRequest.t Tweet.t -> option P -> M W unit)
    (Date_now : M W Z) (random_suffix : M W string) (toISOString : Z -> string)
    (request : CreateTweetRequest.t) (author quoted : string)
    (cb : option P) (w : W) :
  match fst (createQuoteTweet W P store_tweets Date_now random_suffix
                              toISOString request author quoted cb w) with
  | Ok (Some v) =>
      View.quote_tweet_id v = Some quoted /\
      View.hashtags v = [] /\
      View.mentions v = [] /\
      View.author v = author /\
      View.content v = Some (CreateTweetRequest.content request) /\
      View.reply_to_id v = CreateTweetRequest.reply_to_id request /\
      View.like_count v = 0 /\ View.retweet_count v = 0 /\
      View.reply_count v = 0 /\ View.quote_count v = 0 /\
      View.user_liked v = false /\ View.user_retweeted v = false
  | Ok None => True
  | Throw => False
  end.
Proof.
  unfold createQuoteTweet, try_catch, bind, now_iso, ret.
  run_calls; simpl; auto. repeat split.
Qed.

Example createQuoteTweet_stored :
  exists v,
    fst (createQuoteTweet unit unit accepting (fixed_clock 1700)
                          (fixed_suffix "k3j9x2m1q") show
                          (request_of "look #rocq") "a1" "t1" None tt)
    = Ok (Some v) /\
    View.quote_tweet_id v = Some "t1" /\ View.hashtags v = [].
Proof. eexists. repeat split. Qed.

(** ** Profiles *)

(** X6. When the user exists and no profile data is given, [upsertUser]
    returns the stored user as it is; it neither reads the clock nor calls
    [store] (the result does not depend on them). *)
Theorem upsertUser_existing_unchanged (W P : Type)
    (execute_users : Query -> M W (QueryResult UserDoc.t))
    (store_users : StoreRequest.t User.t -> option P -> M W unit)
    (Date_now : M W Z) (toISOString : Z -> string)
    (address : string) (doc : UserDoc.t) (rest : list UserDoc.t)
    (cb : option P) (w w1 : W) :
  execute_users (user_query address) w
  = (Ok (mkResult (Some (doc :: rest))), w1) ->
  upsertUser W P execute_users store_users Date_now toISOString
             address None cb w
  = (Ok (Some (UserDoc.userData doc)), w1).
Proof.
  intros Hq. unfold upsertUser, getUser, try_catch, bind, ret.
  rewrite Hq. reflexivity.
Qed.

Lemma upsertUser_existing_unchanged_witness :
  upsertUser unit unit (answering [user_plain]) rejecting (fixed_clock 1700)
             show "a1" None None tt
  = (Ok (Some (UserDoc.userData user_plain)), tt).
Proof.
  apply (upsertUser_existing_unchanged unit unit (answering [user_plain])
           rejecting (fixed_clock 1700) show "a1" user_plain [] None tt tt).
  reflexivity.
Defined.

(** X7. When the user exists, [updateUserProfile] (which is [upsertUser]
    with profile data) never raises, and a user it returns is the stored
    one with the keys of the profile data laid over it: address, verification, the three counters,
    [created_at], [version] and [status] are the stored ones; each of the
    four profile keys is the one of the profile data when it has the key
    (also when the key holds the empty string or [undefined]) and the stored
    one otherwise; [updated_at] is set. *)
Theorem updateUserProfile_overrides (W P : Type)
    (execute_users : Query -> M W (QueryResult UserDoc.t))
    (store_users : StoreRequest.t User.t -> option P -> M W unit)
    (Date_now : M W Z) (toISOString : Z -> string)
    (address : string) (doc : UserDoc.t) (rest : list UserDoc.t)
    (p : UpdateUserProfileRequest.t) (cb : option P) (w w1 : W) :
  execute_users (user_query address) w
  = (Ok (mkResult (Some (doc :: rest))), w1) ->
  match fst (updateUserProfile W P execute_users store_users Date_now
                               toISOString address p cb w) with
  | Ok (Some u') =>
      let u := UserDoc.userData doc in
      User.address u' = User.address u /\
      User.verified u' = User.verified u /\
      User.follower_count u' = User.follower_count u /\
      User.following_count u' = User.following_count u /\
      User.tweet_count u' = User.tweet_count u /\
      User.created_at u' = User.created_at u /\
      User.version u' = User.version u /\
      User.status u' = User.status u /\
      overridden (UpdateUserProfileRequest.display_name p)
                 (User.display_name u) (User.display_name u') /\
      overridden (UpdateUserProfileRequest.bio p) (User.bio u) (User.bio u') /\
      overridden (UpdateUserProfileRequest.avatar_url p)
                 (User.avatar_url u) (User.avatar_url u') /\
      overridden (UpdateUserProfileRequest.website_url p)
                 (User.website_url u) (User.website_url u') /\
      User.updated_at u' <> None
  | Ok None => True
  | Throw => False
  end.
Proof.
  intros Hq.
  unfold updateUserProfile, upsertUser, getUser, try_catch, bind, now_iso, ret.
  rewrite Hq. cbn [records]. run_calls; simpl; auto.
  destruct p as [[?|] [?|] [?|] [?|]]; repeat split; discriminate.
Qed.

Lemma updateUserProfile_overrides_witness :
  match fst (updateUserProfile unit unit (answering [user_plain]) accepting
                               (fixed_clock 1700) show "a1"
                               (rename_to (Some "")) None tt) with
  | Ok (Some u') =>
      let u := UserDoc.userData user_plain in
      User.address u' = User.address u /\
      User.verified u' = User.verified u /\
      User.follower_count u' = User.follower_count u /\
      User.following_count u' = User.following_count u /\
      User.tweet_count u' = User.tweet_count u /\
      User.created_at u' = User.created_at u /\
      User.version u' = User.version u /\
      User.status u' = User.status u /\
      overridden (UpdateUserProfileRequest.display_name (rename_to (Some "")))
                 (User.display_name u) (User.display_name u') /\
      overridden (UpdateUserProfileRequest.bio (rename_to (Some "")))
                 (User.bio u) (User.bio u') /\
      overridden (UpdateUserProfileRequest.avatar_url (rename_to (Some "")))
                 (User.avatar_url u) (User.avatar_url u') /\
      overridden (UpdateUserProfileRequest.website_url (rename_to (Some "")))
                 (User.website_url u) (User.website_url u') /\
      User.updated_at u' <> None
  | Ok None => True
  | Throw => False
  end.
Proof.
  apply (updateUserProfile_overrides unit unit (answering [user_plain])
           accepting (fixed_clock 1700) show "a1" user_plain []
           (rename_to (Some "")) None tt tt).
  reflexivity.
Defined.

Example updateUserProfile_erases_with_empty_string :
  exists u',
    fst (updateUserProfile unit unit (answering [user_plain]) accepting
                           (fixed_clock 1700) show "a1"
                           (rename_to (Some "")) None tt) = Ok (Some u') /\
    User.display_name (UserDoc.userData user_plain) = Some "Ada" /\
    User.display_name u' = Some "" /\
    User.tweet_count u' = Some 3.
Proof. eexists. repeat split. Qed.

(** X8. When the lookup finds nobody, which includes a lookup that failed,
    [upsertUser] takes the creation path: it never raises, and a user it
    returns is a fresh profile for the address, unverified, with the three
    counters at zero, version 1 and status [active], carrying the keys of
    the profile data. *)
Theorem upsertUser_creates_when_lookup_misses (W P : Type)
    (execute_users : Query -> M W (QueryResult UserDoc.t))
    (store_users : StoreRequest.t User.t -> option P -> M W unit)
    (Date_now : M W Z) (toISOString : Z -> string)
    (address : string) (profileData : option UpdateUserProfileRequest.t)
    (cb : option P) (w : W) :
  finds_nobody (execute_users (user_query address)) w ->
  match fst (upsertUser W P execute_users store_users Date_now toISOString
                        address profileData cb w) with
  | Ok (Some u') =>
      User.address u' = address /\
      User.verified u' = Some false /\
      User.follower_count u' = Some 0 /\
      User.following_count u' = Some 0 /\
      User.tweet_count u' = Some 0 /\
      User.version u' = Some 1 /\
      User.status u' = Some "active" /\
      User.created_at u' <> None /\ User.updated_at u' <> None /\
      match profileData with
      | Some p =>
          overridden (UpdateUserProfileRequest.display_name p) None
                     (User.display_name u') /\
          overridden (UpdateUserProfileRequest.bio p) None (User.bio u') /\
          overridden (UpdateUserProfileRequest.avatar_url p) None
                     (User.avatar_url u') /\
          overridden (UpdateUserProfileRequest.website_url p) None
                     (User.website_url u')
      | None =>
          User.display_name u' = None /\ User.bio u' = None /\
          User.avatar_url u' = None /\ User.website_url u' = None
      end
  | Ok None => True
  | Throw => False
  end.
Proof.
  unfold finds_nobody, has_records.
  unfold upsertUser, getUser, try_catch, bind, now_iso, ret.
  destruct (execute_users (user_query address) w) as [[result|] w1];
    cbn [fst]; intros Hq.
  - destruct (records result) as [[|? ?]|]; try discriminate;
      run_calls; simpl; auto;
      (destruct profileData as [[[?|] [?|] [?|] [?|]]|];
       repeat split; discriminate).
  - run_calls; simpl; auto;
      (destruct profileData as [[[?|] [?|] [?|] [?|]]|];
       repeat split; discriminate).
Qed.

Lemma upsertUser_creates_when_lookup_misses_witness :
  match fst (upsertUser unit unit failing accepting (fixed_clock 1700) show
                        "a1" None None tt) with
  | Ok (Some u') =>
      User.address u' = "a1" /\
      User.verified u' = Some false /\
      User.follower_count u' = Some 0 /\
      User.following_count u' = Some 0 /\
      User.tweet_count u' = Some 0 /\
      User.version u' = Some 1 /\
      User.status u' = Some "active" /\
      User.created_at u' <> None /\ User.updated_at u' <> None /\
      User.display_name u' = None /\ User.bio u' = None /\
      User.avatar_url u' = None /\ User.website_url u' = None
  | Ok None => True
  | Throw => False
  end.
Proof.
  apply (upsertUser_creates_when_lookup_misses unit unit failing accepting
           (fixed_clock 1700) show "a1" None None tt).
  exact I.
Defined.

Example upsertUser_after_failed_lookup :
  exists u',
    fst (upsertUser unit unit failing accepting (fixed_clock 1700) show
                    "a1" None None tt) = Ok (Some u') /\
    User.tweet_count u' = Some 0 /\ User.version u' = Some 1.
Proof. eexists. repeat split. Qed.

(** ** Images *)

(** X9. [uploadImage] never raises, and it returns a blob id exactly when
    the upload was accepted with that id and the task behind its ticket
    ended with the status [Completed]. *)
Theorem uploadImage_blob_id_iff (W P : Type)
    (uploadBlob : BlobRequest -> P -> M W UploadResult)
    (waitForTaskCompletion : string -> M W Task)
    (file : File) (address : string) (cb : P) (tweetId : option string)
    (w : W) (b : string) :
  fst (uploadImage W P uploadBlob waitForTaskCompletion file address cb
                   tweetId w) <> Throw /\
  (fst (uploadImage W P uploadBlob waitForTaskCompletion file address cb
                    tweetId w) = Ok (Some b)
   <->
   exists r w1 task w2,
     uploadBlob (mkBlobRequest "tweet_images" file
                   (mkBlobMetadata address (or_default tweetId ""))) cb w
     = (Ok r, w1) /\
     waitForTaskCompletion (ticket_id r) w1 = (Ok task, w2) /\
     task_status task = "Completed" /\
     blob_id r = b).
Proof.
  unfold uploadImage, try_catch, bind, ret.
  destruct (uploadBlob _ cb w) as [[r|] w1] eqn:Eu.
  - destruct (waitForTaskCompletion (ticket_id r) w1) as [[task|] w2] eqn:Et.
    + destruct (str_eq (task_status task) "Completed") eqn:Es; cbn [fst].
      * split; [discriminate|]. apply String.eqb_eq in Es. split.
        -- intros H. inversion H; subst b. exists r, w1, task, w2.
           repeat split; auto.
        -- intros (r' & w1' & task' & w2' & H1 & H2 & _ & <-).
           inversion H1; subst. reflexivity.
      * split; [discriminate|]. apply String.eqb_neq in Es. split.
        -- discriminate.
        -- intros (r' & w1' & task' & w2' & H1 & H2 & H3 & _).
           inversion H1; subst. rewrite Et in H2. inversion H2; subst.
           contradiction.
    + cbn [fst]. split; [discriminate|]. split; [discriminate|].
      intros (r' & w1' & task' & w2' & H1 & H2 & _).
      inversion H1; subst. rewrite Et in H2. discriminate.
  - cbn [fst]. split; [discriminate|]. split; [discriminate|].
    intros (r' & w1' & task' & w2' & H1 & _). discriminate.
Qed.

Lemma uploadImage_blob_id_iff_witness :
  fst (uploadImage unit unit (uploading (mkUploadResult "blob7" "ticket7"))
                   (ending "Completed") photo "a1" tt None tt)
  = Ok (Some "blob7").
Proof.
  apply (proj2 (uploadImage_blob_id_iff unit unit
                  (uploading (mkUploadResult "blob7" "ticket7"))
                  (ending "Completed") photo "a1" tt None tt "blob7")).
  exists (mkUploadResult "blob7" "ticket7"), tt, (mkTask "Completed"), tt.
  repeat split.
Defined.

Example uploadImage_pending_task :
  fst (uploadImage unit unit (uploading (mkUploadResult "blob7" "ticket7"))
                   (ending "Pending") photo "a1" tt None tt)
  = Ok None.
Proof. reflexivity. Qed.

(** ** Reading tweets *)

Lemma fold_left_push {A B} (f : A -> B) (l : list A) :
  forall acc, fold_left (fun out x => out ++ [f x]) l acc = acc ++ map f l.
Proof.
  induction l as [|x l IH]; intros acc; simpl.
  - now rewrite app_nil_r.
  - now rewrite IH, <- app_assoc.
Qed.

Lemma attach_flags (v : View.t) (a : option User.t) (q : option Tweet.t) :
  let v' := attach set_quote_tweet q (attach set_author_info a v) in
  View.user_retweeted v' = View.user_retweeted v /\
  View.user_liked v' = View.user_liked v /\
  View.id v' = View.id v /\
  View.reply_count v' = View.reply_count v /\
  View.like_count v' = View.like_count v.
Proof. destruct a, q; repeat split. Qed.

Lemma with_context_flags (record : Tweet.t) (liked : bool) :
  View.user_liked (with_context record liked) = liked /\
  View.user_retweeted (with_context record liked) = false.
Proof.
  unfold with_context. cbv zeta.
  destruct (Tweet.author_info record), (Tweet.quote_tweet record); now split.
Qed.

Lemma with_context_counters (record : Tweet.t) (liked : bool) :
  View.like_count (with_context record liked)
  = or_default (Tweet.like_count record) 0 /\
  View.retweet_count (with_context record liked)
  = or_default (Tweet.retweet_count record) 0 /\
  View.reply_count (with_context record liked)
  = or_default (Tweet.reply_count record) 0 /\
  View.quote_count (with_context record liked)
  = or_default (Tweet.quote_count record) 0.
Proof.
  unfold with_context. cbv zeta.
  destruct (Tweet.author_info record), (Tweet.quote_tweet record);
    repeat split.
Qed.

Lemma shape_never_retweeted (config : SocialServiceConfig) (record : Tweet.t) :
  View.user_retweeted (shape_timeline_record config record) = false.
Proof.
  unfold shape_timeline_record. cbv zeta.
  destruct (Tweet.author_info record), (Tweet.quote_tweet record); reflexivity.
Qed.

Lemma push_replies_never_retweeted (W : Type) (config : SocialServiceConfig)
    (execute_likes : Query -> M W (QueryResult Like.t)) (rs : list Tweet.t) :
  forall (acc : list TweetWithContext) (w : W),
    Forall (fun v => View.user_retweeted v = false) acc ->
    Forall (fun v => View.user_retweeted v = false)
           (value [] (fst (push_replies W config execute_likes rs acc w))).
Proof.
  induction rs as [|record rest IH]; intros acc w Hacc; simpl.
  - exact Hacc.
  - destruct (truthy_opt (Tweet.content record)); simpl; [|now apply IH].
    unfold bind.
    destruct (liked_by_caller W config execute_likes (Tweet.id record) w)
      as [[liked|] w1]; [|constructor].
    apply IH. apply Forall_app. split; [assumption|].
    constructor; [apply with_context_flags | constructor].
Qed.

(** X10. No read ever marks a tweet as retweeted by the caller:
    [user_retweeted] is false in every view that [getPublicTimeline],
    [getTweetsByAuthor], [getTweetWithReplies], [getTweet], [getReplies],
    [getQuotedTweet] and [getUserWithTweets] return, whatever the store
    answers. *)
Theorem reads_never_mark_retweeted
    (W : Type) (config : SocialServiceConfig)
    (execute_tweets : Query -> M W (QueryResult Tweet.t))
    (execute_likes : Query -> M W (QueryResult Like.t))
    (execute_users : Query -> M W (QueryResult UserDoc.t))
    (id : string) (limit offset : option Z) (w : W) :
  let never := Forall (fun v => View.user_retweeted v = false) in
  let never_one (o : option TweetWithContext) :=
    match o with Some v => View.user_retweeted v = false | None => True end in
  never (value [] (fst (getPublicTimeline W config execute_tweets
                                          limit offset w))) /\
  never (value [] (fst (getTweetsByAuthor W execute_tweets id limit w))) /\
  never_one (tweet (value no_tweet
               (fst (getTweetWithReplies W config execute_tweets
                                         execute_likes id w)))) /\
  never (replies (value no_tweet
            (fst (getTweetWithReplies W config execute_tweets
                                      execute_likes id w)))) /\
  never_one (value None (fst (getTweet W execute_tweets id w))) /\
  never (value [] (fst (getReplies W config execute_tweets execute_likes
                                   id limit w))) /\
  never_one (value None (fst (getQuotedTweet W execute_tweets id w))) /\
  never (tweets (value no_user
           (fst (getUserWithTweets W execute_users id limit w)))).
Proof.
  cbv zeta.
  assert (Hget : forall x w0,
             match value None (fst (getTweet W execute_tweets x w0)) with
             | Some v => View.user_retweeted v = false
             | None => True
             end).
  { intros x w0. unfold getTweet, try_catch, bind, ret.
    destruct (execute_tweets (tweet_query x) w0) as [[result|] w1];
      [|exact I].
    now destruct (records result) as [[|t rest]|]. }
  repeat split.
  - unfold getPublicTimeline, try_catch, bind, ret. cbv zeta.
    destruct (execute_tweets _ w) as [[result|] w1]; [|constructor].
    destruct (records result) as [recs|]; [|constructor]. simpl.
    apply Forall_forall. intros v Hin. apply in_map_iff in Hin as (r & <- & _).
    apply shape_never_retweeted.
  - unfold getTweetsByAuthor, try_catch, bind, ret. cbv zeta.
    destruct (execute_tweets _ w) as [[result|] w1]; [|constructor].
    destruct (records result) as [recs|]; [|constructor]. simpl.
    rewrite fold_left_push. simpl.
    apply Forall_forall. intros v Hin. apply in_map_iff in Hin as (r & <- & _).
    apply with_context_flags.
  - unfold getTweetWithReplies, try_catch, bind, ret.
    destruct (execute_tweets _ w) as [[result|] w1]; [|exact I].
    destruct (records result) as [[|t rest]|]; try exact I.
    destruct (liked_by_caller W config execute_likes id w1) as [[liked|] w2];
      [|exact I].
    destruct (push_replies _ _ _ _ _ w2) as [[rs|] w3]; [|exact I].
    simpl. apply with_context_flags.
  - unfold getTweetWithReplies, try_catch, bind, ret.
    destruct (execute_tweets _ w) as [[result|] w1]; [|constructor].
    destruct (records result) as [[|t rest]|]; try constructor.
    destruct (liked_by_caller W config execute_likes id w1) as [[liked|] w2];
      [|constructor].
    pose proof (push_replies_never_retweeted W config execute_likes
                  (or_default (Tweet.replies t) []) [] w2 (Forall_nil _)) as H.
    destruct (push_replies _ _ _ _ _ w2) as [[rs|] w3]; [|constructor].
    exact H.
  - apply Hget.
  - unfold getReplies, try_catch, bind, ret. cbv zeta.
    destruct (execute_tweets _ w) as [[result|] w1]; [|constructor].
    destruct (records result) as [recs|]; [|constructor].
    pose proof (push_replies_never_retweeted W config execute_likes
                  recs [] w1 (Forall_nil _)) as H.
    destruct (push_replies _ _ _ _ _ w1) as [[rs|] w3]; [|constructor].
    exact H.
  - unfold getQuotedTweet. destruct (negb (truthy id)); [exact I|].
    apply Hget.
  - unfold getUserWithTweets, try_catch, bind, ret. cbv zeta.
    destruct (execute_users _ w) as [[result|] w1]; [|constructor].
    destruct (records result) as [[|u rest]|]; try constructor. simpl.
    apply Forall_forall. intros v Hin. apply in_map_iff in Hin as (r & <- & _).
    reflexivity.
Qed.

(** X11. In the thread that [getTweetWithReplies] returns for a tweet that
    was found (the like lookups completing), the counters of the main tweet
    are the stored ones, zero when absent, and not the lengths of the joined
    aliases; [total_replies] is the number of replies returned, which is
    the number of joined replies that have a content. *)
Theorem getTweetWithReplies_counts
    (W : Type) (config : SocialServiceConfig)
    (execute_tweets : Query -> M W (QueryResult Tweet.t))
    (execute_likes : Query -> M W (QueryResult Like.t))
    (tweetId : string) (t : Tweet.t) (rest : list Tweet.t) (w w1 : W) :
  (forall q w, exists res w', execute_likes q w = (Ok res, w')) ->
  execute_tweets (thread_query tweetId) w
  = (Ok (mkResult (Some (t :: rest))), w1) ->
  exists r w' v,
    getTweetWithReplies W config execute_tweets execute_likes tweetId w
    = (Ok r, w') /\
    tweet r = Some v /\
    View.id v = Tweet.id t /\
    View.like_count v = or_default (Tweet.like_count t) 0 /\
    View.retweet_count v = or_default (Tweet.retweet_count t) 0 /\
    View.reply_count v = or_default (Tweet.reply_count t) 0 /\
    View.quote_count v = or_default (Tweet.quote_count t) 0 /\
    total_replies r = len (replies r) /\
    total_replies r = len (with_content (joined (Tweet.replies t))).
Proof.
  intros Hlikes Hq.
  unfold getTweetWithReplies, try_catch, bind. rewrite Hq. cbn [records].
  destruct (liked_by_caller_complete W config execute_likes Hlikes tweetId w1)
    as (liked & w2 & ->).
  destruct (push_replies_complete W config execute_likes Hlikes
              (or_default (Tweet.replies t) []) [] w2)
    as (views & w3 & -> & Hviews).
  exists (mkTweetWithReplies (Some (with_context t liked)) views (len views)),
    w3, (with_context t liked).
  destruct (with_context_counters t liked) as (Hl & Hrt & Hrp & Hqt).
  repeat split; auto.
  - apply with_context_fields.
  - cbn [total_replies]. unfold len, with_content.
    rewrite or_default_joined in Hviews.
    now rewrite (Forall2_length Hviews).
Qed.

Lemma getTweetWithReplies_counts_witness :
  exists r w' v,
    getTweetWithReplies unit (config_of None) (answering [thread_t7])
                        no_likes "t7" tt
    = (Ok r, w') /\
    tweet r = Some v /\
    View.id v = Tweet.id thread_t7 /\
    View.like_count v = or_default (Tweet.like_count thread_t7) 0 /\
    View.retweet_count v = or_default (Tweet.retweet_count thread_t7) 0 /\
    View.reply_count v = or_default (Tweet.reply_count thread_t7) 0 /\
    View.quote_count v = or_default (Tweet.quote_count thread_t7) 0 /\
    total_replies r = len (replies r) /\
    total_replies r = len (with_content (joined (Tweet.replies thread_t7))).
Proof.
  apply (getTweetWithReplies_counts unit (config_of None)
           (answering [thread_t7]) no_likes "t7" thread_t7 [] tt tt).
  - intros q w. now exists (mkResult (Some [])), w.
  - reflexivity.
Defined.

Example thread_t7_counts :
  exists r v,
    fst (getTweetWithReplies unit (config_of None) (answering [thread_t7])
                             no_likes "t7" tt) = Ok r /\
    tweet r = Some v /\
    View.reply_count v = 9 /\ total_replies r = 1 /\
    len (joined (Tweet.replies thread_t7)) = 3.
Proof. eexists _, _. repeat split. Qed.

(** X12. [getTweetsByAuthor] returns one view per record of the answer, in
    the order of the answer and without dropping records that have no
    content; each view has the id, the content and the four stored counters
    of its record (zero when absent), the joined author and quoted tweet,
    and is marked neither liked nor retweeted. *)
Theorem getTweetsByAuthor_one_view_per_record
    (W : Type) (execute_tweets : Query -> M W (QueryResult Tweet.t))
    (author : string) (limit : option Z) (recs : list Tweet.t) (w w' : W) :
  execute_tweets (author_query author (param limit 20)) w
  = (Ok (mkResult (Some recs)), w') ->
  exists views,
    getTweetsByAuthor W execute_tweets author limit w = (Ok views, w') /\
    Forall2 (fun record view =>
               View.id view = Tweet.id record /\
               View.content view = Tweet.content record /\
               View.like_count view = or_default (Tweet.like_count record) 0 /\
               View.retweet_count view
               = or_default (Tweet.retweet_count record) 0 /\
               View.reply_count view
               = or_default (Tweet.reply_count record) 0 /\
               View.quote_count view
               = or_default (Tweet.quote_count record) 0 /\
               View.author_info view = Tweet.author_info record /\
               View.quote_tweet view = Tweet.quote_tweet record /\
               View.user_liked view = false /\
               View.user_retweeted view = false)
            recs views.
Proof.
  intros Hq. unfold getTweetsByAuthor, try_catch, bind, ret. cbv zeta.
  rewrite Hq. cbn [records]. rewrite fold_left_push. simpl.
  eexists. split; [reflexivity|].
  clear Hq. induction recs as [|r recs IH]; simpl; constructor; [|exact IH].
  destruct (with_context_counters r false) as (Hl & Hrt & Hrp & Hqc).
  destruct (with_context_fields r false) as (Hid & Hc).
  destruct (with_context_one_to_one r false) as (Ha & Hqt).
  destruct (with_context_flags r false) as (Hf & Hrf).
  repeat split; assumption.
Qed.

Lemma getTweetsByAuthor_one_view_per_record_witness :
  exists views,
    getTweetsByAuthor unit (answering sample_replies) "a2" None tt
    = (Ok views, tt) /\
    Forall2 (fun record view =>
               View.id view = Tweet.id record /\
               View.content view = Tweet.content record /\
               View.like_count view = or_default (Tweet.like_count record) 0 /\
               View.retweet_count view
               = or_default (Tweet.retweet_count record) 0 /\
               View.reply_count view
               = or_default (Tweet.reply_count record) 0 /\
               View.quote_count view
               = or_default (Tweet.quote_count record) 0 /\
               View.author_info view = Tweet.author_info record /\
               View.quote_tweet view = Tweet.quote_tweet record /\
               View.user_liked view = false /\
               View.user_retweeted view = false)
            sample_replies views.
Proof.
  apply (getTweetsByAuthor_one_view_per_record unit (answering sample_replies)
           "a2" None sample_replies tt tt).
  reflexivity.
Defined.

(** X13. The profile that [getUserWithTweets] returns for a user that was
    found carries as [follower_count] and [following_count] the numbers of
    joined follow documents, whatever their status and whatever the stored
    counters say; each of the eleven other fields of the user, [tweet_count]
    included, is the stored one. *)
Theorem getUserWithTweets_follow_counts
    (W : Type) (execute_users : Query -> M W (QueryResult UserDoc.t))
    (address : string) (limit : option Z)
    (userRecord : UserDoc.t) (rest : list UserDoc.t) (w w' : W) :
  execute_users (profile_query address) w
  = (Ok (mkResult (Some (userRecord :: rest))), w') ->
  exists r u,
    getUserWithTweets W execute_users address limit w = (Ok r, w') /\
    user r = Some u /\
    User.follower_count u
    = Some (len (joined (UserDoc.followers userRecord))) /\
    User.following_count u
    = Some (len (joined (UserDoc.following userRecord))) /\
    User.tweet_count u = User.tweet_count (UserDoc.userData userRecord) /\
    User.address u = User.address (UserDoc.userData userRecord) /\
    User.display_name u = User.display_name (UserDoc.userData userRecord) /\
    User.bio u = User.bio (UserDoc.userData userRecord) /\
    User.avatar_url u = User.avatar_url (UserDoc.userData userRecord) /\
    User.website_url u = User.website_url (UserDoc.userData userRecord) /\
    User.verified u = User.verified (UserDoc.userData userRecord) /\
    User.created_at u = User.created_at (UserDoc.userData userRecord) /\
    User.updated_at u = User.updated_at (UserDoc.userData userRecord) /\
    User.version u = User.version (UserDoc.userData userRecord) /\
    User.status u = User.status (UserDoc.userData userRecord).
Proof.
  intros Hq. unfold getUserWithTweets, try_catch, bind, ret. cbv zeta.
  rewrite Hq. cbn [records]. eexists _, _. split; [reflexivity|].
  cbn [user]. split; [reflexivity|].
  rewrite !or_default_joined. repeat split.
Qed.

Lemma getUserWithTweets_follow_counts_witness :
  exists r u,
    getUserWithTweets unit (answering [user_a1]) "a1" None tt = (Ok r, tt) /\
    user r = Some u /\
    User.follower_count u = Some (len (joined (UserDoc.followers user_a1))) /\
    User.following_count u = Some (len (joined (UserDoc.following user_a1))) /\
    User.tweet_count u = User.tweet_count (UserDoc.userData user_a1) /\
    User.address u = User.address (UserDoc.userData user_a1) /\
    User.display_name u = User.display_name (UserDoc.userData user_a1) /\
    User.bio u = User.bio (UserDoc.userData user_a1) /\
    User.avatar_url u = User.avatar_url (UserDoc.userData user_a1) /\
    User.website_url u = User.website_url (UserDoc.userData user_a1) /\
    User.verified u = User.verified (UserDoc.userData user_a1) /\
    User.created_at u = User.created_at (UserDoc.userData user_a1) /\
    User.updated_at u = User.updated_at (UserDoc.userData user_a1) /\
    User.version u = User.version (UserDoc.userData user_a1) /\
    User.status u = User.status (UserDoc.userData user_a1).
Proof.
  apply (getUserWithTweets_follow_counts unit (answering [user_a1]) "a1" None
           user_a1 [] tt tt).
  reflexivity.
Defined.

Lemma push_replies_skips (W : Type) (config : SocialServiceConfig)
    (execute_likes : Query -> M W (QueryResult Like.t))
    (skipped rs : list Tweet.t) :
  Forall (fun x => truthy_opt (Tweet.content x) = false) skipped ->
  forall acc w,
    push_replies W config execute_likes (skipped ++ rs) acc w
    = push_replies W config execute_likes rs acc w.
Proof.
  intros Hs. induction Hs as [|x skipped Hx Hs IH]; intros acc w;
    [reflexivity|].
  simpl. rewrite Hx. simpl. apply IH.
Qed.

(** X14. When a caller is configured and the like lookup for the main
    tweet fails, [getTweetWithReplies] answers the empty thread although the
    tweet was found; and when the like lookup for the first reply that has
    a content fails (whatever replies without content come before it),
    [getReplies] answers no reply at all. *)
Theorem failed_like_lookup_empties_the_thread
    (W : Type) (config : SocialServiceConfig)
    (execute_tweets : Query -> M W (QueryResult Tweet.t))
    (execute_likes : Query -> M W (QueryResult Like.t))
    (address tweetId : string) (limit : option Z) :
  currentUserAddress config = Some address -> address <> "" ->
  (forall (t : Tweet.t) (rest : list Tweet.t) (w w1 w2 : W),
      execute_tweets (thread_query tweetId) w
      = (Ok (mkResult (Some (t :: rest))), w1) ->
      execute_likes (like_query address tweetId) w1 = (Throw, w2) ->
      getTweetWithReplies W config execute_tweets execute_likes tweetId w
      = (Ok no_tweet, w2)) /\
  (forall (skipped : list Tweet.t) (r : Tweet.t) (rest : list Tweet.t)
          (w w1 w2 : W),
      execute_tweets (replies_query tweetId (param limit 50)) w
      = (Ok (mkResult (Some (skipped ++ r :: rest))), w1) ->
      Forall (fun x => truthy_opt (Tweet.content x) = false) skipped ->
      truthy_opt (Tweet.content r) = true ->
      execute_likes (like_query address (Tweet.id r)) w1 = (Throw, w2) ->
      getReplies W config execute_tweets execute_likes tweetId limit w
      = (Ok [], w2)).
Proof.
  intros Hc Hne.
  assert (Hcaller : caller config = Some address)
    by (apply caller_configured; now split).
  split.
  - intros t rest w w1 w2 Hq Hl.
    unfold getTweetWithReplies, try_catch, bind. rewrite Hq. cbn [records].
    unfold liked_by_caller, bind. rewrite Hcaller, Hl. reflexivity.
  - intros skipped r rest w w1 w2 Hq Hs Hr Hl.
    unfold getReplies, try_catch, bind. cbv zeta. rewrite Hq. cbn [records].
    rewrite (push_replies_skips W config execute_likes skipped (r :: rest) Hs).
    simpl. rewrite Hr. simpl.
    unfold bind, liked_by_caller, bind. rewrite Hcaller, Hl. reflexivity.
Qed.

Lemma failed_like_lookup_empties_the_thread_witness :
  getTweetWithReplies unit (config_of (Some "u1")) (answering [thread_t7])
                      failing "t7" tt
  = (Ok no_tweet, tt) /\
  getReplies unit (config_of (Some "u1"))
             (answering (replies_without_content ++ [reply_first]))
             failing "t7" None tt
  = (Ok [], tt).
Proof.
  destruct (failed_like_lookup_empties_the_thread unit
              (config_of (Some "u1")) (answering [thread_t7]) failing
              "u1" "t7" None eq_refl ltac:(discriminate)) as [Hthread _].
  destruct (failed_like_lookup_empties_the_thread unit
              (config_of (Some "u1"))
              (answering (replies_without_content ++ [reply_first])) failing
              "u1" "t7" None eq_refl ltac:(discriminate)) as [_ Hreplies].
  split.
  - apply (Hthread thread_t7 [] tt tt tt); reflexivity.
  - apply (Hreplies replies_without_content reply_first [] tt tt tt);
      [reflexivity | | reflexivity | reflexivity].
    repeat constructor.
Defined.

Lemma push_replies_without_caller (W : Type) (config : SocialServiceConfig)
    (execute_likes execute_likes' : Query -> M W (QueryResult Like.t))
    (rs : list Tweet.t) :
  caller config = None ->
  forall acc w,
    push_replies W config execute_likes rs acc w
    = push_replies W config execute_likes' rs acc w.
Proof.
  intros Hc. induction rs as [|r rs IH]; intros acc w; simpl; [reflexivity|].
  destruct (truthy_opt (Tweet.content r)); simpl; [|apply IH].
  unfold bind, liked_by_caller. rewrite Hc. unfold ret. apply IH.
Qed.

Lemma push_replies_not_liked (W : Type) (config : SocialServiceConfig)
    (execute_likes : Query -> M W (QueryResult Like.t)) (rs : list Tweet.t) :
  caller config = None ->
  forall acc w,
    Forall (fun v => View.user_liked v = false) acc ->
    Forall (fun v => View.user_liked v = false)
           (value [] (fst (push_replies W config execute_likes rs acc w))).
Proof.
  intros Hc. induction rs as [|r rs IH]; intros acc w Hacc; simpl.
  - exact Hacc.
  - destruct (truthy_opt (Tweet.content r)); simpl; [|now apply IH].
    unfold bind, liked_by_caller. rewrite Hc. unfold ret.
    apply IH. apply Forall_app. split; [assumption|].
    constructor; [apply with_context_flags | constructor].
Qed.

(** X15. Without a configured caller (no address, or the empty string)
    [getTweetWithReplies] and [getReplies] never look up likes: their
    results do not depend on the like collection, and neither the main
    tweet nor any reply they return is marked as liked. *)
Theorem no_caller_no_like_lookup
    (W : Type) (config : SocialServiceConfig)
    (execute_tweets : Query -> M W (QueryResult Tweet.t))
    (execute_likes execute_likes' : Query -> M W (QueryResult Like.t))
    (tweetId : string) (limit : option Z) (w : W) :
  currentUserAddress config = None \/ currentUserAddress config = Some "" ->
  getTweetWithReplies W config execute_tweets execute_likes tweetId w
  = getTweetWithReplies W config execute_tweets execute_likes' tweetId w /\
  getReplies W config execute_tweets execute_likes tweetId limit w
  = getReplies W config execute_tweets execute_likes' tweetId limit w /\
  Forall (fun v => View.user_liked v = false)
         (value [] (fst (getReplies W config execute_tweets execute_likes
                                    tweetId limit w))) /\
  Forall (fun v => View.user_liked v = false)
         (replies (value no_tweet
                     (fst (getTweetWithReplies W config execute_tweets
                                               execute_likes tweetId w)))) /\
  match tweet (value no_tweet
                 (fst (getTweetWithReplies W config execute_tweets
                                           execute_likes tweetId w))) with
  | Some v => View.user_liked v = false
  | None => True
  end.
Proof.
  intros Hc.
  assert (Hcaller : caller config = None)
    by (unfold caller; destruct Hc as [-> | ->]; reflexivity).
  split; [|split; [|split; [|split]]].
  - unfold getTweetWithReplies, try_catch, bind.
    destruct (execute_tweets _ w) as [[result|] w1]; [|reflexivity].
    destruct (records result) as [[|t rest]|]; try reflexivity.
    unfold liked_by_caller. rewrite Hcaller. unfold ret at 1 3.
    now rewrite (push_replies_without_caller W config execute_likes
                   execute_likes' _ Hcaller).
  - unfold getReplies, try_catch, bind. cbv zeta.
    destruct (execute_tweets _ w) as [[result|] w1]; [|reflexivity].
    destruct (records result) as [recs|]; [|reflexivity].
    now rewrite (push_replies_without_caller W config execute_likes
                   execute_likes' _ Hcaller).
  - unfold getReplies, try_catch, bind. cbv zeta.
    destruct (execute_tweets _ w) as [[result|] w1]; [|constructor].
    destruct (records result) as [recs|]; [|constructor].
    pose proof (push_replies_not_liked W config execute_likes recs Hcaller
                  [] w1 (Forall_nil _)) as H.
    destruct (push_replies _ _ _ _ _ w1) as [[rs|] w3]; [|constructor].
    exact H.
  - unfold getTweetWithReplies, try_catch, bind.
    destruct (execute_tweets _ w) as [[result|] w1]; [|constructor].
    destruct (records result) as [[|t rest]|]; try constructor.
    unfold liked_by_caller at 1. rewrite Hcaller. unfold ret at 1.
    pose proof (push_replies_not_liked W config execute_likes
                  (or_default (Tweet.replies t) []) Hcaller
                  [] w1 (Forall_nil _)) as H.
    destruct (push_replies _ _ _ _ _ w1) as [[rs|] w3]; [|constructor].
    exact H.
  - unfold getTweetWithReplies, try_catch, bind.
    destruct (execute_tweets _ w) as [[result|] w1]; [|exact I].
    destruct (records result) as [[|t rest]|]; try exact I.
    unfold liked_by_caller at 1. rewrite Hcaller. unfold ret at 1.
    destruct (push_replies _ _ _ _ _ w1) as [[rs|] w3]; [|exact I].
    cbn [fst value tweet ret]. apply with_context_flags.
Qed.

Lemma no_caller_no_like_lookup_witness :
  getTweetWithReplies unit (config_of (Some "")) (answering [thread_t7])
                      failing "t7" tt
  = getTweetWithReplies unit (config_of (Some "")) (answering [thread_t7])
                        no_likes "t7" tt /\
  Forall (fun v => View.user_liked v = false)
         (replies (value no_tweet
                     (fst (getTweetWithReplies unit (config_of (Some ""))
                             (answering [thread_t7]) failing "t7" tt)))).
Proof.
  destruct (no_caller_no_like_lookup unit (config_of (Some ""))
              (answering [thread_t7]) failing no_likes "t7" None tt
              (or_intror eq_refl)) as (Hsame & _ & _ & Hreplies & _).
  split; [exact Hsame | exact Hreplies].
Defined.

(* ================================================================== *)
(** * More properties of the follow and like store *)

(** ** What one remote call does, whatever faults are pending *)

Lemma execute_follows_cases (w : Store.World) (a b : string) :
  exists o w',
    Store.execute_follows (follow_query a b) w = (o, w') /\
    Store.follows w' = Store.follows w /\
    Store.likes w' = Store.likes w /\
    (o = Throw \/ o = Ok (mkResult (Some (fetched a b w)))).
Proof.
  unfold Store.execute_follows, Store.remote.
  destruct (Store.faults w) as [|[|] rest]; simpl;
    try rewrite select_follow_query; eexists _, _;
    (split; [reflexivity|]); repeat split; auto.
Qed.

Lemma execute_likes_cases (w : Store.World) (u t : string) :
  exists o w',
    Store.execute_likes (like_query u t) w = (o, w') /\
    Store.follows w' = Store.follows w /\
    Store.likes w' = Store.likes w /\
    (o = Throw \/ o = Ok (mkResult (Some (firstn 1 (likes_of u t w))))).
Proof.
  unfold Store.execute_likes, Store.remote.
  destruct (Store.faults w) as [|[|] rest]; simpl;
    try rewrite select_like_query; eexists _, _;
    (split; [reflexivity|]); repeat split; auto.
Qed.

Lemma store_follows_cases {P} (r : Follow.t) (cb : option P)
    (w : Store.World) :
  exists o w',
    Store.store_follows (StoreRequest.mk "follows" [r]) cb w = (o, w') /\
    Store.likes w' = Store.likes w /\
    (Store.follows w' = Store.follows w \/
     Store.follows w' = Store.follows w ++ [r]).
Proof.
  unfold Store.store_follows, Store.remote.
  destruct (Store.faults w) as [|[|] rest] eqn:Ef; simpl; rewrite Ef; simpl;
    eexists _, _; (split; [reflexivity|]); split; auto.
Qed.

Lemma store_likes_cases {P} (r : Like.t) (cb : option P) (w : Store.World) :
  exists o w',
    Store.store_likes (StoreRequest.mk "likes" [r]) cb w = (o, w') /\
    Store.follows w' = Store.follows w /\
    (Store.likes w' = Store.likes w \/
     Store.likes w' = Store.likes w ++ [r]).
Proof.
  unfold Store.store_likes, Store.remote.
  destruct (Store.faults w) as [|[|] rest] eqn:Ef; simpl; rewrite Ef; simpl;
    eexists _, _; (split; [reflexivity|]); split; auto.
Qed.

Lemma fetched_versions (w : Store.World) (a b : string) (m : Follow.t) :
  In m (fetched a b w) -> In m (versions a b w).
Proof. unfold fetched. apply firstn_incl. Qed.

Lemma latest_version_In (l : list Follow.t) (m : Follow.t) :
  latest_version l = Some m -> In m l.
Proof.
  revert m. induction l as [|r l IH]; intros m; simpl; [discriminate|].
  destruct (latest_version l) as [m'|].
  - destruct (newer m' r); intros E; inversion E; subst; auto.
  - intros E; inversion E; subst; auto.
Qed.

(** What [followUser] leaves behind, for every schedule of faults: the
    likes as they were, and the follows as they were or with one more
    active version of the pair that continues a stored version of the pair
    when there is one. *)
Lemma followUser_adds {P} (w : Store.World) (a b : string) (cb : option P) :
  let w' := snd (Store.followUser a b cb w) in
  Store.likes w' = Store.likes w /\
  (Store.follows w' = Store.follows w \/
   exists r,
     Store.follows w' = Store.follows w ++ [r] /\
     Follow.follower r = a /\ Follow.following r = b /\
     Follow.status r = "active" /\
     (versions a b w = [] \/
      exists m, In m (versions a b w) /\
                Follow.id r = Follow.id m /\
                Follow.created_at r = Follow.created_at m) /\
     a <> b).
Proof.
  cbv zeta. unfold Store.followUser, followUser, try_catch, bind.
  destruct (str_eq a b) eqn:Eab; [simpl; auto|].
  apply String.eqb_neq in Eab.
  destruct (execute_follows_cases w a b) as (o & w1 & -> & Hf1 & Hl1 & [->| ->]);
    [simpl; rewrite Hf1, Hl1; auto|].
  cbn [records].
  destruct (fetched a b w) as [|r0 rest] eqn:E.
  - unfold new_Date, bind, ret, Store.Date_now. cbn [fst snd].
    match goal with
    | |- context [Store.store_follows (StoreRequest.mk _ [?r]) cb ?w2] =>
        destruct (store_follows_cases r cb w2) as (o & w3 & -> & Hl3 & Hf3)
    end.
    cbn in Hl3, Hf3. rewrite Hl1 in Hl3. rewrite Hf1 in Hf3.
    assert (Hv : versions a b w = []).
    { unfold fetched in E. destruct (versions a b w); [reflexivity|].
      discriminate. }
    destruct o as [[]|]; cbn [fst snd]; (split; [exact Hl3|]);
      (destruct Hf3 as [Hf3|Hf3]; [now left|]);
      right; eexists; (split; [exact Hf3|]); repeat split; auto.
  - rewrite first_record_sorted.
    destruct (latest_version_some (r0 :: rest)) as [m Em]; [discriminate|].
    rewrite Em.
    assert (Hm : In m (versions a b w)).
    { apply fetched_versions. rewrite E. now apply latest_version_In. }
    destruct (str_eq (Follow.status m) "active");
      [simpl; rewrite Hf1, Hl1; auto|].
    rewrite first_record_sorted, Em.
    unfold new_Date, bind, ret, Store.Date_now. cbn [fst snd].
    match goal with
    | |- context [Store.store_follows (StoreRequest.mk _ [?r]) cb ?w2] =>
        destruct (store_follows_cases r cb w2) as (o & w3 & -> & Hl3 & Hf3)
    end.
    cbn in Hl3, Hf3. rewrite Hl1 in Hl3. rewrite Hf1 in Hf3.
    destruct o as [[]|]; cbn [fst snd]; (split; [exact Hl3|]);
      (destruct Hf3 as [Hf3|Hf3]; [now left|]);
      right; eexists; (split; [exact Hf3|]); repeat split; auto;
      right; exists m; repeat split; auto.
Qed.

Lemma unfollowUser_adds {P} (w : Store.World) (a b : string) (cb : option P) :
  let w' := snd (Store.unfollowUser a b cb w) in
  Store.likes w' = Store.likes w /\
  (Store.follows w' = Store.follows w \/
   exists r m,
     Store.follows w' = Store.follows w ++ [r] /\
     Follow.follower r = a /\ Follow.following r = b /\
     Follow.status r = "inactive" /\
     In m (versions a b w) /\
     Follow.id r = Follow.id m /\
     Follow.created_at r = Follow.created_at m).
Proof.
  cbv zeta. unfold Store.unfollowUser, unfollowUser, try_catch, bind.
  destruct (execute_follows_cases w a b) as (o & w1 & -> & Hf1 & Hl1 & [->| ->]);
    [simpl; rewrite Hf1, Hl1; auto|].
  cbn [records].
  destruct (fetched a b w) as [|r0 rest] eqn:E;
    [simpl; rewrite Hf1, Hl1; auto|].
  rewrite first_record_sorted.
  destruct (latest_version_some (r0 :: rest)) as [m Em]; [discriminate|].
  rewrite Em.
  assert (Hm : In m (versions a b w)).
  { apply fetched_versions. rewrite E. now apply latest_version_In. }
  destruct (str_eq (Follow.status m) "active");
    [|simpl; rewrite Hf1, Hl1; auto].
  cbn [negb].
  unfold new_Date, bind, ret, Store.Date_now. cbn [fst snd].
  match goal with
  | |- context [Store.store_follows (StoreRequest.mk _ [?r]) cb ?w2] =>
      destruct (store_follows_cases r cb w2) as (o & w3 & -> & Hl3 & Hf3)
  end.
  cbn in Hl3, Hf3. rewrite Hl1 in Hl3. rewrite Hf1 in Hf3.
  destruct o as [[]|]; cbn [fst snd]; (split; [exact Hl3|]);
    (destruct Hf3 as [Hf3|Hf3]; [now left|]);
    right; eexists _, m; (split; [exact Hf3|]); repeat split; auto.
Qed.

Lemma isFollowing_adds (w : Store.World) (a b : string) :
  let w' := snd (Store.isFollowing a b w) in
  Store.likes w' = Store.likes w /\ Store.follows w' = Store.follows w.
Proof.
  cbv zeta. unfold Store.isFollowing, isFollowing, try_catch, bind.
  destruct (execute_follows_cases w a b) as (o & w1 & -> & Hf1 & Hl1 & [->| ->]);
    [simpl; auto|].
  cbn [records].
  destruct (fetched a b w) as [|r0 rest] eqn:E; [simpl; auto|].
  rewrite first_record_sorted.
  destruct (latest_version_some (r0 :: rest)) as [m Em]; [discriminate|].
  rewrite Em. simpl. auto.
Qed.

Lemma likeTweet_adds {P} (w : Store.World) (u t : string) (cb : option P) :
  let w' := snd (Store.likeTweet u t cb w) in
  Store.follows w' = Store.follows w /\
  (Store.likes w' = Store.likes w \/
   exists r,
     Store.likes w' = Store.likes w ++ [r] /\
     Like.user r = u /\ Like.tweet_id r = t /\
     likes_of u t w = []).
Proof.
  cbv zeta. unfold Store.likeTweet, likeTweet, try_catch, bind.
  destruct (execute_likes_cases w u t) as (o & w1 & -> & Hf1 & Hl1 & [->| ->]);
    [simpl; rewrite Hf1, Hl1; auto|].
  rewrite has_records_first.
  destruct (likes_of u t w) as [|r0 rest] eqn:E;
    [|simpl; rewrite Hf1, Hl1; auto].
  unfold new_Date, bind, ret, Store.Date_now, Store.random_suffix.
  cbn [fst snd].
  match goal with
  | |- context [Store.store_likes (StoreRequest.mk _ [?r]) cb ?w2] =>
      destruct (store_likes_cases r cb w2) as (o & w3 & -> & Hf3 & Hl3)
  end.
  cbn in Hl3, Hf3. rewrite Hl1 in Hl3. rewrite Hf1 in Hf3.
  destruct o as [[]|]; cbn [fst snd]; (split; [exact Hf3|]);
    (destruct Hl3 as [Hl3|Hl3]; [now left|]);
    right; eexists; (split; [exact Hl3|]); repeat split; auto.
Qed.

Lemma versions_app (c d : string) (w w' : Store.World) (added : list Follow.t) :
  Store.follows w' = Store.follows w ++ added ->
  versions c d w' =
  versions c d w ++
  filter (fun r => str_eq (Follow.follower r) c
                   && str_eq (Follow.following r) d) added.
Proof. intros H. unfold versions. now rewrite H, filter_app. Qed.

Lemma versions_same (c d : string) (w w' : Store.World) :
  Store.follows w' = Store.follows w -> versions c d w' = versions c d w.
Proof. intros H. unfold versions. now rewrite H. Qed.

Lemma likes_of_app (u t : string) (w w' : Store.World) (added : list Like.t) :
  Store.likes w' = Store.likes w ++ added ->
  likes_of u t w' =
  likes_of u t w ++
  filter (fun r => str_eq (Like.user r) u && str_eq (Like.tweet_id r) t) added.
Proof. intros H. unfold likes_of. now rewrite H, filter_app. Qed.

Lemma likes_of_same (u t : string) (w w' : Store.World) :
  Store.likes w' = Store.likes w -> likes_of u t w' = likes_of u t w.
Proof. intros H. unfold likes_of. now rewrite H. Qed.

Lemma pair_test_other (a b c d : string) :
  a <> c \/ b <> d -> str_eq a c && str_eq b d = false.
Proof.
  intros [H|H]; apply andb_false_iff; [left | right]; now apply str_eq_false.
Qed.

(** X16. A write touches only its own pair, whatever faults are pending:
    [followUser] and [unfollowUser] for the pair (a, b) leave the stored
    versions of every other pair and all likes as they were, and
    [likeTweet] for (a, b) leaves the likes of every other (user, tweet)
    pair and all follows as they were. *)
Theorem writes_touch_only_their_pair (w : Store.World) (a b c d : string)
    (P : Type) (cb : option P) :
  a <> c \/ b <> d ->
  (versions c d (snd (Store.followUser a b cb w)) = versions c d w /\
   Store.likes (snd (Store.followUser a b cb w)) = Store.likes w) /\
  (versions c d (snd (Store.unfollowUser a b cb w)) = versions c d w /\
   Store.likes (snd (Store.unfollowUser a b cb w)) = Store.likes w) /\
  (likes_of c d (snd (Store.likeTweet a b cb w)) = likes_of c d w /\
   Store.follows (snd (Store.likeTweet a b cb w)) = Store.follows w).
Proof.
  intros Hother. split; [|split].
  - destruct (followUser_adds w a b cb) as (Hl & [Hf|(r & Hf & Ha & Hb & _)]).
    + split; [now apply versions_same | exact Hl].
    + split; [|exact Hl].
      rewrite (versions_app c d w _ [r] Hf). simpl.
      rewrite Ha, Hb, (pair_test_other a b c d Hother). apply app_nil_r.
  - destruct (unfollowUser_adds w a b cb)
      as (Hl & [Hf|(r & m & Hf & Ha & Hb & _)]).
    + split; [now apply versions_same | exact Hl].
    + split; [|exact Hl].
      rewrite (versions_app c d w _ [r] Hf). simpl.
      rewrite Ha, Hb, (pair_test_other a b c d Hother). apply app_nil_r.
  - destruct (likeTweet_adds w a b cb) as (Hf & [Hl|(r & Hl & Hu & Ht & _)]).
    + split; [now apply likes_of_same | exact Hf].
    + split; [|exact Hf].
      rewrite (likes_of_app c d w _ [r] Hl). simpl.
      rewrite Hu, Ht, (pair_test_other a b c d Hother). apply app_nil_r.
Qed.

Lemma writes_touch_only_their_pair_witness :
  versions "u1" "u3"
    (snd (Store.followUser "u1" "u2" no_callback world_other_pair))
  = versions "u1" "u3" world_other_pair.
Proof.
  assert (Hother : "u1" <> "u1" \/ "u2" <> "u3") by (right; discriminate).
  destruct (writes_touch_only_their_pair world_other_pair
              "u1" "u2" "u1" "u3" unit no_callback Hother) as [[H _] _].
  exact H.
Defined.

Lemma one_id_snoc (l : list Follow.t) (r : Follow.t) :
  one_id l ->
  (l = [] \/
   exists m, In m l /\ Follow.id r = Follow.id m /\
             Follow.created_at r = Follow.created_at m) ->
  one_id (l ++ [r]).
Proof.
  intros Hl Hr x y Hx Hy.
  apply in_app_iff in Hx as [Hx|[<-|[]]];
    apply in_app_iff in Hy as [Hy|[<-|[]]].
  - now apply Hl.
  - destruct Hr as [->|(m & Hm & Hi & Hc)]; [destruct Hx|].
    destruct (Hl x m Hx Hm) as [E1 E2]. split; congruence.
  - destruct Hr as [->|(m & Hm & Hi & Hc)]; [destruct Hy|].
    destruct (Hl m y Hm Hy) as [E1 E2]. split; congruence.
  - now split.
Qed.

Lemma pair_test_true (r : Follow.t) (c d : string) :
  str_eq (Follow.follower r) c && str_eq (Follow.following r) d = true ->
  Follow.follower r = c /\ Follow.following r = d.
Proof.
  intros H. apply andb_true_iff in H as [H1 H2].
  split; now apply String.eqb_eq.
Qed.

Lemma one_id_step (w : Store.World) (c : call) :
  (forall a b, one_id (versions a b w)) ->
  forall a b, one_id (versions a b (snd (perform c w))).
Proof.
  intros Hinv a b. destruct c as [x y|x y|x y|x y]; simpl.
  - destruct (followUser_adds w x y no_callback)
      as (_ & [Hf|(r & Hf & Hx & Hy & _ & Hr & _)]).
    + rewrite (versions_same a b w _ Hf). apply Hinv.
    + rewrite (versions_app a b w _ [r] Hf). simpl.
      destruct (str_eq (Follow.follower r) a && str_eq (Follow.following r) b)
        eqn:E.
      * apply pair_test_true in E as [Ea Eb].
        rewrite Hx in Ea. rewrite Hy in Eb. subst a b.
        apply one_id_snoc; [apply Hinv | exact Hr].
      * rewrite app_nil_r. apply Hinv.
  - destruct (unfollowUser_adds w x y no_callback)
      as (_ & [Hf|(r & m & Hf & Hx & Hy & _ & Hm & Hi & Hc)]).
    + rewrite (versions_same a b w _ Hf). apply Hinv.
    + rewrite (versions_app a b w _ [r] Hf). simpl.
      destruct (str_eq (Follow.follower r) a && str_eq (Follow.following r) b)
        eqn:E.
      * apply pair_test_true in E as [Ea Eb].
        rewrite Hx in Ea. rewrite Hy in Eb. subst a b.
        apply one_id_snoc; [apply Hinv | right; now exists m].
      * rewrite app_nil_r. apply Hinv.
  - destruct (isFollowing_adds w x y) as (_ & Hf).
    rewrite (versions_same a b w _ Hf). apply Hinv.
  - destruct (likeTweet_adds w x y no_callback) as (Hf & _).
    rewrite (versions_same a b w _ Hf). apply Hinv.
Qed.

(** X17. All stored versions of one follow relationship carry the same id
    and the same [created_at]: when this holds in a store, it holds after
    every sequence of [followUser], [unfollowUser], [isFollowing] and
    [likeTweet] calls, whichever of their remote calls fail. *)
Theorem one_id_per_relationship (w : Store.World) (calls : list call) :
  (forall a b, one_id (versions a b w)) ->
  forall a b, one_id (versions a b (after calls w)).
Proof.
  unfold after. revert w.
  induction calls as [|c calls IH]; intros w Hinv; simpl; [exact Hinv|].
  apply IH. now apply one_id_step.
Qed.

Lemma one_id_per_relationship_witness :
  one_id (versions "u1" "u2"
            (after [FollowUser "u1" "u2"; UnfollowUser "u1" "u2";
                    FollowUser "u1" "u2"; FollowUser "u2" "u1"]
                   (world_of [] []))).
Proof.
  apply (one_id_per_relationship (world_of [] [])
           [FollowUser "u1" "u2"; UnfollowUser "u1" "u2";
            FollowUser "u1" "u2"; FollowUser "u2" "u1"]).
  intros a b r r' [].
Defined.

Example three_versions_one_id :
  map Follow.id
      (versions "u1" "u2"
         (after [FollowUser "u1" "u2"; UnfollowUser "u1" "u2";
                 FollowUser "u1" "u2"; FollowUser "u2" "u1"]
                (world_of [] [])))
  = ["follow_u1_u2_1000"; "follow_u1_u2_1000"; "follow_u1_u2_1000"].
Proof. reflexivity. Qed.

Lemma no_self_follow_step (w : Store.World) (c : call) :
  Forall (fun r => Follow.follower r <> Follow.following r) (Store.follows w) ->
  Forall (fun r => Follow.follower r <> Follow.following r)
         (Store.follows (snd (perform c w))).
Proof.
  intros Hinv. destruct c as [x y|x y|x y|x y]; simpl.
  - destruct (followUser_adds w x y no_callback)
      as (_ & [->|(r & -> & Hx & Hy & _ & _ & Hxy)]); [exact Hinv|].
    apply Forall_app. split; [exact Hinv|].
    constructor; [congruence | constructor].
  - destruct (unfollowUser_adds w x y no_callback)
      as (_ & [->|(r & m & -> & Hx & Hy & _ & Hm & _)]); [exact Hinv|].
    apply Forall_app. split; [exact Hinv|].
    constructor; [|constructor].
    unfold versions in Hm. apply filter_In in Hm as [Hin Hpair].
    apply pair_test_true in Hpair as [E1 E2].
    rewrite Forall_forall in Hinv. specialize (Hinv m Hin). congruence.
  - destruct (isFollowing_adds w x y) as (_ & ->). exact Hinv.
  - destruct (likeTweet_adds w x y no_callback) as (-> & _). exact Hinv.
Qed.

(** X18. Nobody ends up following themselves: a store without a follow
    document whose follower is its own target has none after every sequence
    of [followUser], [unfollowUser], [isFollowing] and [likeTweet] calls,
    whichever of their remote calls fail. *)
Theorem no_self_follow_is_ever_stored (w : Store.World) (calls : list call) :
  Forall (fun r => Follow.follower r <> Follow.following r) (Store.follows w) ->
  Forall (fun r => Follow.follower r <> Follow.following r)
         (Store.follows (after calls w)).
Proof.
  unfold after. revert w.
  induction calls as [|c calls IH]; intros w Hinv; simpl; [exact Hinv|].
  apply IH. now apply no_self_follow_step.
Qed.

Lemma no_self_follow_is_ever_stored_witness :
  Forall (fun r => Follow.follower r <> Follow.following r)
         (Store.follows
            (after [FollowUser "u1" "u1"; FollowUser "u1" "u2";
                    UnfollowUser "u1" "u1"; UnfollowUser "u1" "u2"]
                   world_other_pair)).
Proof.
  apply (no_self_follow_is_ever_stored world_other_pair
           [FollowUser "u1" "u1"; FollowUser "u1" "u2";
            UnfollowUser "u1" "u1"; UnfollowUser "u1" "u2"]).
  repeat constructor. discriminate.
Defined.

Lemma one_like_step (w : Store.World) (c : call) :
  (forall u t, (length (likes_of u t w) <= 1)%nat) ->
  forall u t, (length (likes_of u t (snd (perform c w))) <= 1)%nat.
Proof.
  intros Hinv u t. destruct c as [x y|x y|x y|x y]; simpl.
  - destruct (followUser_adds w x y no_callback) as (Hl & _).
    rewrite (likes_of_same u t w _ Hl). apply Hinv.
  - destruct (unfollowUser_adds w x y no_callback) as (Hl & _).
    rewrite (likes_of_same u t w _ Hl). apply Hinv.
  - destruct (isFollowing_adds w x y) as (Hl & _).
    rewrite (likes_of_same u t w _ Hl). apply Hinv.
  - destruct (likeTweet_adds w x y no_callback)
      as (_ & [Hl|(r & Hl & Hu & Ht & Hnone)]).
    + rewrite (likes_of_same u t w _ Hl). apply Hinv.
    + rewrite (likes_of_app u t w _ [r] Hl). simpl.
      destruct (str_eq (Like.user r) u && str_eq (Like.tweet_id r) t) eqn:E.
      * apply andb_true_iff in E as [E1 E2].
        apply String.eqb_eq in E1, E2.
        rewrite Hu in E1. rewrite Ht in E2. subst u t.
        rewrite Hnone. simpl. lia.
      * rewrite app_nil_r. apply Hinv.
Qed.

(** X19. A store with at most one like per (user, tweet) pair keeps this
    through every sequence of [likeTweet], [followUser], [unfollowUser] and
    [isFollowing] calls, whichever of their remote calls fail. *)
Theorem one_like_per_user_and_tweet (w : Store.World) (calls : list call) :
  (forall u t, (length (likes_of u t w) <= 1)%nat) ->
  forall u t, (length (likes_of u t (after calls w)) <= 1)%nat.
Proof.
  unfold after. revert w.
  induction calls as [|c calls IH]; intros w Hinv; simpl; [exact Hinv|].
  apply IH. now apply one_like_step.
Qed.

Lemma one_like_per_user_and_tweet_witness :
  (length (likes_of "u1" "t1"
             (after [LikeTweet "u1" "t1"; LikeTweet "u1" "t1";
                     LikeTweet "u2" "t1"; LikeTweet "u1" "t1"]
                    (world_failing_second [] []))) <= 1)%nat.
Proof.
  apply (one_like_per_user_and_tweet (world_failing_second [] [])
           [LikeTweet "u1" "t1"; LikeTweet "u1" "t1";
            LikeTweet "u2" "t1"; LikeTweet "u1" "t1"]).
  intros u t. simpl. lia.
Defined.

Example likes_after_four_calls :
  map Like.user
      (Store.likes
         (after [LikeTweet "u1" "t1"; LikeTweet "u1" "t1";
                 LikeTweet "u2" "t1"; LikeTweet "u1" "t1"]
                (world_failing_second [] [])))
  = ["u1"; "u2"].
Proof. reflexivity. Qed.

(** ** Failures of the follow and like writes *)

(** X20. [followUser], [unfollowUser] and [likeTweet] never raise, whatever
    the client does; and when every [store] call fails they answer false. *)
Theorem follow_and_like_writes_never_raise (W P : Type)
    (execute_likes : Query -> M W (QueryResult Like.t))
    (execute_follows : Query -> M W (QueryResult Follow.t))
    (store_likes : StoreRequest.t Like.t -> option P -> M W unit)
    (store_follows : StoreRequest.t Follow.t -> option P -> M W unit)
    (Date_now : M W Z) (random_suffix : M W string)
    (a b : string) (cb : option P) (w : W) :
  (fst (followUser W execute_follows P store_follows Date_now a b cb w)
   <> Throw /\
   fst (unfollowUser W execute_follows P store_follows Date_now a b cb w)
   <> Throw /\
   fst (likeTweet W execute_likes P store_likes Date_now random_suffix
                  a b cb w) <> Throw) /\
  ((forall request w0, fst (store_follows request cb w0) = Throw) ->
   (forall request w0, fst (store_likes request cb w0) = Throw) ->
   fst (followUser W execute_follows P store_follows Date_now a b cb w)
   = Ok false /\
   fst (unfollowUser W execute_follows P store_follows Date_now a b cb w)
   = Ok false /\
   fst (likeTweet W execute_likes P store_likes Date_now random_suffix
                  a b cb w) = Ok false).
Proof.
  assert (Hcaught : forall (m : M W bool),
             fst (try_catch m (ret false) w) <> Throw).
  { intros m. unfold try_catch, ret. destruct (m w) as [[v|] w1]; discriminate. }
  split; [repeat split; apply Hcaught|].
  intros Hsf Hsl. split; [|split].
  - unfold followUser, new_Date, first_record, try_catch, bind, ret, throw.
    destruct (str_eq a b); [reflexivity|].
    destruct (execute_follows _ w) as [[result|] w1]; [|reflexivity].
    destruct (records result) as [[|r0 rest]|].
    + destruct (Date_now w1) as [[t0|] w2]; [|reflexivity].
      destruct (Date_now w2) as [[t1|] w3]; [|reflexivity].
      destruct (Date_now w3) as [[t2|] w4]; [|reflexivity].
      match goal with
      | |- context [store_follows ?rq cb w4] =>
          pose proof (Hsf rq w4) as Hs;
            destruct (store_follows rq cb w4) as [[u|] w5];
            [discriminate | reflexivity]
      end.
    + destruct (sort by_latest (r0 :: rest)) as [|m ms]; [reflexivity|].
      destruct (str_eq (Follow.status m) "active"); [reflexivity|].
      destruct (Date_now w1) as [[t0|] w2]; [|reflexivity].
      match goal with
      | |- context [store_follows ?rq cb w2] =>
          pose proof (Hsf rq w2) as Hs;
            destruct (store_follows rq cb w2) as [[u|] w5];
            [discriminate | reflexivity]
      end.
    + destruct (Date_now w1) as [[t0|] w2]; [|reflexivity].
      destruct (Date_now w2) as [[t1|] w3]; [|reflexivity].
      destruct (Date_now w3) as [[t2|] w4]; [|reflexivity].
      match goal with
      | |- context [store_follows ?rq cb w4] =>
          pose proof (Hsf rq w4) as Hs;
            destruct (store_follows rq cb w4) as [[u|] w5];
            [discriminate | reflexivity]
      end.
  - unfold unfollowUser, new_Date, first_record, try_catch, bind, ret, throw.
    destruct (execute_follows _ w) as [[result|] w1]; [|reflexivity].
    destruct (records result) as [[|r0 rest]|]; try reflexivity.
    destruct (sort by_latest (r0 :: rest)) as [|m ms]; [reflexivity|].
    destruct (str_eq (Follow.status m) "active"); [|reflexivity].
    cbn [negb].
    destruct (Date_now w1) as [[t0|] w2]; [|reflexivity].
    match goal with
    | |- context [store_follows ?rq cb w2] =>
        pose proof (Hsf rq w2) as Hs;
          destruct (store_follows rq cb w2) as [[u|] w5];
          [discriminate | reflexivity]
    end.
  - unfold likeTweet, new_Date, try_catch, bind, ret.
    destruct (execute_likes _ w) as [[result|] w1]; [|reflexivity].
    destruct (has_records result); [reflexivity|].
    destruct (Date_now w1) as [[t0|] w2]; [|reflexivity].
    destruct (random_suffix w2) as [[sfx|] w3]; [|reflexivity].
    destruct (Date_now w3) as [[t1|] w4]; [|reflexivity].
    match goal with
    | |- context [store_likes ?rq cb w4] =>
        pose proof (Hsl rq w4) as Hs;
          destruct (store_likes rq cb w4) as [[u|] w5];
          [discriminate | reflexivity]
    end.
Qed.

Lemma follow_and_like_writes_never_raise_witness :
  fst (followUser unit (answering []) unit rejecting (fixed_clock 1700)
                  "u1" "u2" None tt) = Ok false.
Proof.
  apply (proj2 (follow_and_like_writes_never_raise unit unit
                  (answering []) (answering []) rejecting rejecting
                  (fixed_clock 1700) (fixed_suffix "k3j9x2m1q")
                  "u1" "u2" None tt)).
  - reflexivity.
  - reflexivity.
Defined.

(** ** Round trips *)

Lemma firstn_short {A} (n : nat) (l : list A) :
  (length l <= n)%nat -> firstn n l = l.
Proof. apply firstn_all2. Qed.

Lemma versions_stored_follow (a b : string) (r : Follow.t) (k : nat)
    (w : Store.World) :
  Follow.follower r = a -> Follow.following r = b ->
  versions a b (stored_follow r k w) = versions a b w ++ [r].
Proof.
  intros Ha Hb. unfold versions, stored_follow. cbn [Store.follows].
  rewrite filter_app. simpl. rewrite Ha, Hb.
  unfold str_eq. now rewrite !String.eqb_refl.
Qed.

Lemma fetched_stored_follow (a b : string) (r : Follow.t) (k : nat)
    (w : Store.World) :
  Follow.follower r = a -> Follow.following r = b ->
  (length (versions a b w) < 10)%nat ->
  fetched a b (stored_follow r k w) = versions a b w ++ [r].
Proof.
  intros Ha Hb Hlen. unfold fetched.
  rewrite (versions_stored_follow a b r k w Ha Hb).
  apply firstn_short. rewrite length_app. simpl. lia.
Qed.

Lemma latest_version_appended (l : list Follow.t) (r : Follow.t) (t : Z) :
  older_than t l -> stamp r = Some t -> latest_version (l ++ [r]) = Some r.
Proof.
  intros Hold Hr. apply Latest_latest_version.
  - apply Forall_app. split.
    + eapply Forall_impl; [|exact Hold].
      intros x (t' & E & _). unfold has_stamp. congruence.
    + constructor; [|constructor]. unfold has_stamp. congruence.
  - exists l, [], t. repeat split; auto.
Qed.

Lemma fetched_all (w : Store.World) (a b : string) :
  (length (versions a b w) < 10)%nat -> fetched a b w = versions a b w.
Proof. intros H. unfold fetched. apply firstn_short. lia. Qed.

Lemma isFollowing_store_run (w : Store.World) (a b : string) :
  Store.faults w = [] ->
  Store.isFollowing a b w
  = (Ok (match latest_version (fetched a b w) with
         | Some m => is_active m
         | None => false
         end), w).
Proof.
  intros Hf. unfold Store.isFollowing.
  apply isFollowing_run. now apply execute_follows_ok.
Qed.

(** X21. After [followUser(a, b)] with [a] different from [b] the follow is
    in force: when no remote call fails, the pair has fewer than ten stored
    versions and they are older than the clock, [isFollowing] answers true
    in the store that [followUser] leaves, and a second [followUser]
    answers false and stores nothing. (For [a = b] the call is refused and
    nothing is in force.) *)
Theorem followUser_then_isFollowing (w : Store.World) (a b : string)
    (P : Type) (cb : option P) :
  Store.faults w = [] ->
  a <> b ->
  (length (versions a b w) < 10)%nat ->
  older_than (reading 0 w) (versions a b w) ->
  let w' := snd (Store.followUser a b cb w) in
  Store.isFollowing a b w' = (Ok true, w') /\
  Store.followUser a b cb w' = (Ok false, w').
Proof.
  intros Hf Hab Hlen Hold. cbv zeta.
  rewrite (followUser_run w a b cb Hf (str_eq_false a b Hab)).
  rewrite (fetched_all w a b Hlen).
  destruct (latest_version (versions a b w)) as [m|] eqn:Em.
  - destruct (is_active m) eqn:Ea; cbn [snd].
    + rewrite (isFollowing_store_run w a b Hf),
        (followUser_run w a b cb Hf (str_eq_false a b Hab)),
        (fetched_all w a b Hlen), Em, Ea.
      now split.
    + assert (Hlatest :
        latest_version
          (fetched a b (stored_follow (next_version m a b "active" w) 1 w))
        = Some (next_version m a b "active" w)).
      { rewrite fetched_stored_follow; try reflexivity; [|exact Hlen].
        now apply (latest_version_appended _ _ (reading 0 w)). }
      rewrite isFollowing_store_run, followUser_run;
        try exact Hf; try now apply str_eq_false.
      rewrite Hlatest. now split.
  - apply latest_version_none in Em. cbn [snd].
    assert (Hlatest :
      latest_version (fetched a b (stored_follow (first_follow a b w) 3 w))
      = Some (first_follow a b w)).
    { rewrite fetched_stored_follow; try reflexivity; [|exact Hlen].
      rewrite Em. reflexivity. }
    rewrite isFollowing_store_run, followUser_run;
      try exact Hf; try now apply str_eq_false.
    rewrite Hlatest. now split.
Qed.

Lemma followUser_then_isFollowing_witness :
  Store.isFollowing "u1" "u2"
    (snd (Store.followUser "u1" "u2" no_callback world_unfollowed))
  = (Ok true, snd (Store.followUser "u1" "u2" no_callback world_unfollowed)).
Proof.
  apply (followUser_then_isFollowing world_unfollowed "u1" "u2" unit
           no_callback).
  - reflexivity.
  - discriminate.
  - simpl. lia.
  - repeat constructor; eexists; (split; [reflexivity|]);
      unfold reading; simpl; lia.
Defined.

(** X22. After [unfollowUser] the follow is not in force: under the same
    conditions [isFollowing] answers false in the store that
    [unfollowUser] leaves, and a second [unfollowUser] answers false and
    stores nothing. *)
Theorem unfollowUser_then_not_following (w : Store.World) (a b : string)
    (P : Type) (cb : option P) :
  Store.faults w = [] ->
  (length (versions a b w) < 10)%nat ->
  older_than (reading 0 w) (versions a b w) ->
  let w' := snd (Store.unfollowUser a b cb w) in
  Store.isFollowing a b w' = (Ok false, w') /\
  Store.unfollowUser a b cb w' = (Ok false, w').
Proof.
  intros Hf Hlen Hold. cbv zeta.
  rewrite (unfollowUser_run w a b cb Hf).
  rewrite (fetched_all w a b Hlen).
  destruct (latest_version (versions a b w)) as [m|] eqn:Em.
  - destruct (is_active m) eqn:Ea; cbn [snd].
    + assert (Hlatest :
        latest_version
          (fetched a b (stored_follow (next_version m a b "inactive" w) 1 w))
        = Some (next_version m a b "inactive" w)).
      { rewrite fetched_stored_follow; try reflexivity; [|exact Hlen].
        now apply (latest_version_appended _ _ (reading 0 w)). }
      rewrite isFollowing_store_run, unfollowUser_run; try exact Hf.
      rewrite Hlatest. now split.
    + rewrite (isFollowing_store_run w a b Hf), (unfollowUser_run w a b cb Hf),
        (fetched_all w a b Hlen), Em, Ea.
      now split.
  - cbn [snd].
    rewrite (isFollowing_store_run w a b Hf), (unfollowUser_run w a b cb Hf),
      (fetched_all w a b Hlen), Em.
    now split.
Qed.

Lemma unfollowUser_then_not_following_witness :
  Store.isFollowing "u1" "u2"
    (snd (Store.unfollowUser "u1" "u2" no_callback world_followed))
  = (Ok false, snd (Store.unfollowUser "u1" "u2" no_callback world_followed)).
Proof.
  apply (unfollowUser_then_not_following world_followed "u1" "u2" unit
           no_callback).
  - reflexivity.
  - simpl. lia.
  - repeat constructor; eexists; (split; [reflexivity|]);
      unfold reading; simpl; lia.
Defined.

(** X23. After [likeTweet] the like is seen: when no remote call fails, the
    like lookup that the thread methods run for the caller [u] and the
    tweet [t] answers true in the store that [likeTweet u t] leaves,
    whether the like was stored by this call or was there before. *)
Theorem likeTweet_then_liked_by_caller (w : Store.World) (u t : string)
    (P : Type) (cb : option P) (config : SocialServiceConfig) :
  Store.faults w = [] ->
  currentUserAddress config = Some u -> u <> "" ->
  let w' := snd (Store.likeTweet u t cb w) in
  liked_by_caller Store.World config Store.execute_likes t w' = (Ok true, w').
Proof.
  intros Hf Hc Hne. cbv zeta.
  assert (Hcaller : caller config = Some u)
    by (apply caller_configured; now split).
  assert (Hrun : forall w0,
             Store.faults w0 = [] -> likes_of u t w0 <> [] ->
             liked_by_caller Store.World config Store.execute_likes t w0
             = (Ok true, w0)).
  { intros w0 Hf0 Hsome. unfold liked_by_caller, bind. rewrite Hcaller.
    unfold Store.execute_likes, Store.remote. rewrite Hf0. simpl.
    rewrite select_like_query, has_records_first. fold (likes_of u t w0).
    destruct (likes_of u t w0); [contradiction | reflexivity]. }
  rewrite (likeTweet_run w u t cb Hf).
  destruct (likes_of u t w) as [|r rest] eqn:E; cbn [snd].
  - apply Hrun; [exact Hf|].
    unfold likes_of, stored_like. cbn [Store.likes]. rewrite filter_app.
    simpl. unfold str_eq. rewrite !String.eqb_refl. simpl.
    intros H. apply app_eq_nil in H as [_ H]. discriminate.
  - apply Hrun; [exact Hf|]. rewrite E. discriminate.
Qed.

Lemma likeTweet_then_liked_by_caller_witness :
  liked_by_caller Store.World (config_of (Some "u1")) Store.execute_likes "t1"
    (snd (Store.likeTweet "u1" "t1" no_callback (world_of [] [])))
  = (Ok true, snd (Store.likeTweet "u1" "t1" no_callback (world_of [] []))).
Proof.
  apply (likeTweet_then_liked_by_caller (world_of [] []) "u1" "t1" unit
           no_callback (config_of (Some "u1"))).
  - reflexivity.
  - reflexivity.
  - discriminate.
Defined.

(* ================================================================== *)
(** * Properties of the payment callback *)

Example select_option_samples :
  select_option no_preference sample_quote = Some option_native_sepolia /\
  select_option prefers_usdc sample_quote = Some option_usdc_sepolia /\
  select_option (mkOptions "0xme" (Some "polygon") (Some "USDC")) sample_quote
  = Some option_native_base /\
  select_option (mkOptions "0xme" (Some "") (Some "TIA")) sample_quote
  = Some option_usdc_sepolia.
Proof. repeat split. Qed.

(** X24. How the callback chooses among the options of a quote: it
    chooses none exactly when the quote has none; the chosen option is one
    of the quote's; it satisfies the network and token preference whenever
    some option does, and otherwise is on the preferred network whenever
    some option is; when no option is on the preferred network it is the
    quote's first option. *)
Theorem select_option_priority (options : TempoPaymentCallbackOptions)
    (quote : X402Quote) :
  (select_option options quote = None <-> allOptions quote = []) /\
  (forall opt,
      select_option options quote = Some opt ->
      In opt (allOptions quote) /\
      ((exists o, In o (allOptions quote) /\
                  matches_preference (network_in_force options)
                                     (token_in_force options) o = true) ->
       matches_preference (network_in_force options)
                          (token_in_force options) opt = true) /\
      ((exists o, In o (allOptions quote) /\
                  PaymentOption.network o = network_in_force options) ->
       PaymentOption.network opt = network_in_force options) /\
      ((forall o, In o (allOptions quote) ->
                  PaymentOption.network o <> network_in_force options) ->
       hd_error (allOptions quote) = Some opt)).
Proof.
  unfold select_option, network_in_force, token_in_force. cbv zeta.
  set (pn := or_default (preferredNetwork options) "base-sepolia").
  set (pt := or_default (preferredToken options) "native").
  destruct (find (matches_preference pn pt) (allOptions quote)) as [o1|] eqn:E1.
  - apply find_some in E1 as [Hin1 Hm1]. split.
    + split; [discriminate|]. intros H. rewrite H in Hin1. destruct Hin1.
    + intros opt E. inversion E; subst opt. split; [exact Hin1|].
      assert (Hn1 : PaymentOption.network o1 = pn).
      { unfold matches_preference in Hm1. cbv zeta in Hm1.
        apply andb_true_iff in Hm1 as [Hn _]. now apply String.eqb_eq. }
      repeat split; auto. intros Hnone. now destruct (Hnone o1 Hin1).
  - destruct (find (fun opt => str_eq (PaymentOption.network opt) pn)
                   (allOptions quote)) as [o2|] eqn:E2.
    + apply find_some in E2 as [Hin2 Hm2]. apply String.eqb_eq in Hm2. split.
      * split; [discriminate|]. intros H. rewrite H in Hin2. destruct Hin2.
      * intros opt E. inversion E; subst opt. split; [exact Hin2|].
        split; [|split]; auto.
        -- intros (o & Hin & Hm).
           now rewrite (find_none _ _ E1 o Hin) in Hm.
        -- intros Hnone. now destruct (Hnone o2 Hin2).
    + split.
      * destruct (allOptions quote); simpl; split; auto; discriminate.
      * intros opt E. split; [|split; [|split]].
        -- destruct (allOptions quote) as [|o rest]; [discriminate|].
           inversion E; subst. now left.
        -- intros (o & Hin & Hm).
           now rewrite (find_none _ _ E1 o Hin) in Hm.
        -- intros (o & Hin & Hm).
           pose proof (find_none _ _ E2 o Hin) as Hno. cbv beta in Hno.
           apply String.eqb_neq in Hno. contradiction.
        -- intros _. exact E.
Qed.

Lemma select_option_priority_witness :
  In option_usdc_sepolia (allOptions sample_quote) /\
  PaymentOption.network option_usdc_sepolia = network_in_force prefers_usdc.
Proof.
  destruct (proj2 (select_option_priority prefers_usdc sample_quote)
              option_usdc_sepolia eq_refl) as (Hin & _ & Hnet & _).
  split; [exact Hin|].
  apply Hnet. exists option_native_sepolia. split; [|reflexivity].
  right. right. now left.
Defined.

(** X25. The callback refuses without touching anything: when the quote
    has no option, or the chosen option is not a facilitator option, or its
    network has no value in [NETWORK_CONFIGS], the callback throws without
    reading the clock, drawing a random byte or asking the wallet for a
    signature. *)
Theorem createTempoPaymentCallback_refuses (W : Type)
    (Date_now : M W Z) (random_byte : M W Byte.byte)
    (provider_request : string -> string -> TypedData.t -> M W string)
    (options : TempoPaymentCallbackOptions) (quote : X402Quote) (w : W) :
  (forall opt, select_option options quote = Some opt -> ~ payable opt) ->
  createTempoPaymentCallback W Date_now random_byte provider_request
                             options quote w
  = (Throw, w).
Proof.
  intros Hno. unfold createTempoPaymentCallback.
  destruct (select_option options quote) as [opt|]; [|reflexivity].
  specialize (Hno opt eq_refl). unfold payable in Hno.
  destruct (extra_field opt Extra.paymentMethod) as [m|] eqn:Em;
    [|reflexivity].
  simpl. unfold str_eq. destruct (String.eqb_spec m "x402-facilitator");
    [|reflexivity].
  subst m.
  destruct (NETWORK_CONFIGS (PaymentOption.network opt)); [|reflexivity].
  exfalso. apply Hno. split; [reflexivity | discriminate].
Qed.

Lemma createTempoPaymentCallback_refuses_witness :
  createTempoPaymentCallback unit (fixed_clock 1700000000999) (fixed_byte Byte.xab)
                             (signing "0xsig") no_preference sample_quote tt
  = (Throw, tt).
Proof.
  apply (createTempoPaymentCallback_refuses unit (fixed_clock 1700000000999)
           (fixed_byte Byte.xab) (signing "0xsig") no_preference sample_quote tt).
  intros opt E. inversion E; subst opt. intros [H _]. discriminate.
Defined.

(** X26. What the wallet signs is what the callback returns: a result of
    the callback carries the signature that the wallet gave for typed data
    whose message spells out exactly the returned authorization and whose
    domain is read from the configuration of the chosen option's network;
    the authorization pays the chosen option's amount from the user to the
    option's payee. *)
Theorem signature_covers_returned_authorization (W : Type)
    (Date_now : M W Z) (random_byte : M W Byte.byte)
    (provider_request : string -> string -> TypedData.t -> M W string)
    (options : TempoPaymentCallbackOptions) (quote : X402Quote)
    (w w' : W) (r : X402PaymentResult.t) :
  createTempoPaymentCallback W Date_now random_byte provider_request
                             options quote w
  = (Ok r, w') ->
  exists opt config typedData w0,
    select_option options quote = Some opt /\
    payable opt /\
    NETWORK_CONFIGS (PaymentOption.network opt) = Some config /\
    provider_request "eth_signTypedData_v4" (userAddress options) typedData w0
    = (Ok (EvmAuthorization.signature (X402PaymentResult.evmAuthorization r)),
       w') /\
    let a := EvmAuthorization.authorization
               (X402PaymentResult.evmAuthorization r) in
    TypedData.message typedData
    = Message.mk (Authorization.from a) (Authorization.to a)
                 (Authorization.value a)
                 (show (Authorization.validAfter a))
                 (show (Authorization.validBefore a))
                 (Authorization.nonce a) /\
    TypedData.domain typedData
    = Domain.mk (config_field config usdcName)
                (config_field config usdcVersion)
                (config_field config chainId)
                (config_field config usdcAddress) /\
    Authorization.from a = userAddress options /\
    Authorization.to a = PaymentOption.payTo opt /\
    Authorization.value a = PaymentOption.maxAmountRequired opt /\
    X402PaymentResult.network r = PaymentOption.network opt /\
    X402PaymentResult.paymentMethod r = "x402-facilitator".
Proof.
  unfold createTempoPaymentCallback, throw.
  destruct (select_option options quote) as [opt|]; [|discriminate].
  destruct (opt_str_eq (extra_field opt Extra.paymentMethod)
                       "x402-facilitator") eqn:Em; [|discriminate].
  destruct (NETWORK_CONFIGS (PaymentOption.network opt)) as [config|] eqn:Ec;
    [|discriminate].
  unfold bind, ret.
  destruct (Date_now w) as [[t1|] w1]; [|discriminate].
  destruct (Date_now w1) as [[t2|] w2]; [|discriminate].
  destruct (generateNonce W random_byte w2) as [[nonce|] w3]; [|discriminate].
  match goal with
  | |- context [provider_request ?m ?a ?td w3] =>
      destruct (provider_request m a td w3) as [[sig|] w4] eqn:Es;
        [|discriminate];
        intros E; inversion E; subst; exists opt, config, td, w3
  end.
  assert (Hm : extra_field opt Extra.paymentMethod = Some "x402-facilitator").
  { destruct (extra_field opt Extra.paymentMethod) as [m|]; [|discriminate].
    simpl in Em. apply String.eqb_eq in Em. now subst. }
  repeat split; auto. rewrite Ec. discriminate.
Qed.

Lemma signature_covers_returned_authorization_witness :
  exists opt config typedData w0 r,
    select_option prefers_usdc sample_quote = Some opt /\
    NETWORK_CONFIGS (PaymentOption.network opt) = Some config /\
    signing "0xsig" "eth_signTypedData_v4" (userAddress prefers_usdc)
            typedData w0
    = (Ok (EvmAuthorization.signature (X402PaymentResult.evmAuthorization r)),
       tt) /\
    Message.value (TypedData.message typedData) = "2000".
Proof.
  destruct (createTempoPaymentCallback unit (fixed_clock 1700000000999)
              (fixed_byte Byte.xab) (signing "0xsig") prefers_usdc
              sample_quote tt) as [[r|] w'] eqn:E; [|discriminate].
  destruct (signature_covers_returned_authorization unit
              (fixed_clock 1700000000999) (fixed_byte Byte.xab)
              (signing "0xsig") prefers_usdc sample_quote tt w' r E)
    as (opt & config & td & w0 & Hsel & _ & Hcfg & Hsig & Hmsg & _ & _ & _
        & Hval & _).
  exists opt, config, td, w0, r. destruct w'.
  split; [exact Hsel|]. split; [exact Hcfg|]. split; [exact Hsig|].
  cbv zeta in Hmsg. rewrite Hmsg. cbn [Message.value]. rewrite Hval.
  inversion Hsel; subst opt. reflexivity.
Defined.

(** X27. The window of an authorization: it starts between 60 and 61
    seconds before the first reading of the clock and ends between 299 and
    300 seconds after the second one, so it spans at least 360 seconds
    when the clock does not run backwards between the two readings. *)
Theorem authorization_window (W : Type)
    (Date_now : M W Z) (random_byte : M W Byte.byte)
    (provider_request : string -> string -> TypedData.t -> M W string)
    (options : TempoPaymentCallbackOptions) (quote : X402Quote)
    (w w1 w2 w' : W) (t1 t2 : Z) (r : X402PaymentResult.t) :
  Date_now w = (Ok t1, w1) ->
  Date_now w1 = (Ok t2, w2) ->
  createTempoPaymentCallback W Date_now random_byte provider_request
                             options quote w
  = (Ok r, w') ->
  let a := EvmAuthorization.authorization
             (X402PaymentResult.evmAuthorization r) in
  1000 * (Authorization.validAfter a + 60) <= t1
    < 1000 * (Authorization.validAfter a + 61) /\
  1000 * (Authorization.validBefore a - 300) <= t2
    < 1000 * (Authorization.validBefore a - 299) /\
  (t1 <= t2 ->
   360 <= Authorization.validBefore a - Authorization.validAfter a).
Proof.
  intros H1 H2. unfold createTempoPaymentCallback, throw.
  destruct (select_option options quote) as [opt|]; [|discriminate].
  destruct (opt_str_eq _ _); [|discriminate].
  destruct (NETWORK_CONFIGS _) as [config|]; [|discriminate].
  unfold bind, ret. rewrite H1, H2.
  destruct (generateNonce W random_byte w2) as [[nonce|] w3]; [|discriminate].
  destruct (provider_request _ _ _ w3) as [[sig|] w4]; [|discriminate].
  intros E. inversion E; subst.
  cbn [X402PaymentResult.evmAuthorization EvmAuthorization.authorization
       Authorization.validAfter Authorization.validBefore].
  pose proof (Z.div_mod t1 1000 ltac:(lia)) as D1.
  pose proof (Z.mod_pos_bound t1 1000 ltac:(lia)) as B1.
  pose proof (Z.div_mod t2 1000 ltac:(lia)) as D2.
  pose proof (Z.mod_pos_bound t2 1000 ltac:(lia)) as B2.
  split; [lia|]. split; [lia|].
  intros Hle. pose proof (Z.div_le_mono t1 t2 1000 ltac:(lia) Hle). lia.
Qed.

Lemma authorization_window_witness :
  exists r,
    fst (createTempoPaymentCallback unit (fixed_clock 1700000000999)
           (fixed_byte Byte.xab) (signing "0xsig") prefers_usdc sample_quote tt)
    = Ok r /\
    360 <= Authorization.validBefore
             (EvmAuthorization.authorization
                (X402PaymentResult.evmAuthorization r))
           - Authorization.validAfter
               (EvmAuthorization.authorization
                  (X402PaymentResult.evmAuthorization r)).
Proof.
  destruct (createTempoPaymentCallback unit (fixed_clock 1700000000999)
              (fixed_byte Byte.xab) (signing "0xsig") prefers_usdc
              sample_quote tt) as [[r|] w'] eqn:E; [|discriminate].
  exists r. split; [reflexivity|].
  apply (authorization_window unit (fixed_clock 1700000000999)
           (fixed_byte Byte.xab) (signing "0xsig") prefers_usdc sample_quote
           tt tt tt w' 1700000000999 1700000000999 r eq_refl eq_refl E).
  lia.
Defined.

Example wallet_refusal_reaches_the_caller :
  fst (createTempoPaymentCallback unit (fixed_clock 1700000000999)
         (fixed_byte Byte.xab) refusing prefers_usdc sample_quote tt)
  = Throw.
Proof. reflexivity. Qed.

(** ** The nonce *)

Lemma concat_empty_cons (x : string) (xs : list string) :
  String.concat "" (x :: xs) = (x ++ String.concat "" xs)%string.
Proof.
  destruct xs; simpl; [now rewrite string_app_nil_r | reflexivity].
Qed.

Lemma two_digits (b : Byte.byte) :
  exists hi lo,
    padStart 2 "0" (toString16 b) = String hi (String lo "") /\
    is_hex_digit hi = true /\ is_hex_digit lo = true /\
    byte_of_hex (String hi (String lo "")) = Some b.
Proof.
  destruct b; eexists _, _; repeat split.
Qed.

Lemma hex_of_bytes_cons (b : Byte.byte) (bs : list Byte.byte) :
  exists hi lo digits,
    hex_of_bytes (b :: bs) = String "0" (String "x" (String hi (String lo digits))) /\
    hex_of_bytes bs = String "0" (String "x" digits) /\
    is_hex_digit hi = true /\ is_hex_digit lo = true /\
    byte_of_hex (String hi (String lo "")) = Some b.
Proof.
  destruct (two_digits b) as (hi & lo & E & Hhi & Hlo & Hb).
  exists hi, lo, (String.concat "" (map (fun b => padStart 2 "0" (toString16 b)) bs)).
  unfold hex_of_bytes. cbn [map]. rewrite concat_empty_cons, E.
  repeat split; auto.
Qed.

Lemma hex_of_bytes_digits (bs : list Byte.byte) :
  exists digits,
    hex_of_bytes bs = String "0" (String "x" digits) /\
    String.length digits = (2 * length bs)%nat /\
    forallb is_hex_digit (list_ascii_of_string digits) = true.
Proof.
  induction bs as [|b bs IH].
  - exists ""%string. repeat split.
  - destruct IH as (digits & E & Hlen & Hhex).
    destruct (hex_of_bytes_cons b bs) as (hi & lo & digits' & E1 & E2 & Hhi & Hlo & _).
    rewrite E in E2. inversion E2; subst digits'.
    exists (String hi (String lo digits)). split; [exact E1|]. split.
    + simpl. rewrite Hlen. simpl. lia.
    + simpl. now rewrite Hhi, Hlo, Hhex.
Qed.

Lemma getRandomValues_length (W : Type) (random_byte : M W Byte.byte)
    (n : nat) :
  forall (w w' : W) (bytes : list Byte.byte),
    getRandomValues W random_byte n w = (Ok bytes, w') -> length bytes = n.
Proof.
  induction n as [|n IH]; intros w w' bytes; simpl.
  - intros E. inversion E. reflexivity.
  - unfold bind, ret. destruct (random_byte w) as [[b|] w1]; [|discriminate].
    destruct (getRandomValues W random_byte n w1) as [[rest|] w2] eqn:E;
      [|discriminate].
    intros E'. inversion E'; subst. simpl. f_equal. eapply IH. exact E.
Qed.

(** X28. A nonce that [generateNonce] returns has 66 characters: [0x]
    followed by 64 lower-case hexadecimal digits. *)
Theorem generateNonce_format (W : Type) (random_byte : M W Byte.byte)
    (w w' : W) (nonce : string) :
  generateNonce W random_byte w = (Ok nonce, w') ->
  String.length nonce = 66%nat /\
  exists digits,
    nonce = ("0x" ++ digits)%string /\
    String.length digits = 64%nat /\
    forallb is_hex_digit (list_ascii_of_string digits) = true.
Proof.
  unfold generateNonce, bind, ret.
  destruct (getRandomValues W random_byte 32 w) as [[bytes|] w1] eqn:E;
    [|discriminate].
  intros E'. inversion E'; subst.
  apply getRandomValues_length in E.
  destruct (hex_of_bytes_digits bytes) as (digits & -> & Hlen & Hhex).
  rewrite E in Hlen. split.
  - simpl. now rewrite Hlen.
  - exists digits. repeat split; assumption.
Qed.

Lemma generateNonce_format_witness :
  exists nonce,
    fst (generateNonce unit (fixed_byte Byte.x0a) tt) = Ok nonce /\
    String.length nonce = 66%nat.
Proof.
  destruct (generateNonce unit (fixed_byte Byte.x0a) tt) as [[nonce|] w']
    eqn:E; [|discriminate].
  exists nonce. split; [reflexivity|].
  apply (generateNonce_format unit (fixed_byte Byte.x0a) tt w' nonce E).
Defined.

(** X29. The hexadecimal rendering of the nonce loses nothing: different
    sequences of random bytes give different nonces. *)
Theorem hex_of_bytes_injective (bytes bytes' : list Byte.byte) :
  hex_of_bytes bytes = hex_of_bytes bytes' -> bytes = bytes'.
Proof.
  revert bytes'. induction bytes as [|b bs IH]; intros [|b' bs'] E.
  - reflexivity.
  - destruct (hex_of_bytes_cons b' bs') as (hi & lo & d & E1 & _).
    rewrite E1 in E. discriminate.
  - destruct (hex_of_bytes_cons b bs) as (hi & lo & d & E1 & _).
    rewrite E1 in E. discriminate.
  - destruct (hex_of_bytes_cons b bs) as (hi & lo & d & E1 & E2 & _ & _ & Hb).
    destruct (hex_of_bytes_cons b' bs')
      as (hi' & lo' & d' & E1' & E2' & _ & _ & Hb').
    rewrite E1, E1' in E. inversion E; subst.
    rewrite Hb in Hb'. inversion Hb'; subst. f_equal.
    apply IH. now rewrite E2, E2'.
Qed.

Lemma hex_of_bytes_injective_witness :
  [Byte.x0a; Byte.xff] = [Byte.x0a; Byte.xff].
Proof.
  apply (hex_of_bytes_injective [Byte.x0a; Byte.xff] [Byte.x0a; Byte.xff]).
  reflexivity.
Defined.
